(** * Backup and restore orchestration of the PostgreSQL operator

    A shallow embedding of [src/backups.py] (class [PostgreSQLBackups]) and
    the properties of its catalog listing, eligibility rules, stanza state
    machine, backup run and restore workflow.

    Conventions of the embedding:
    - a Python [str] is a [string]; every [ascii] stands for the code point
      of the same number (code points below 256);
    - a Python [dict] with string keys is a [gmap string _]; the ordered
      dictionary returned by the catalog listing is an association list kept
      in insertion order;
    - a method that raises returns [Raise e], one that returns gives [Ok v];
    - calls into collaborators (cluster manager, snap, object store, action
      event) are appended to a log of events, their answers are read from an
      environment record. *)

From Stdlib Require Import ZArith Ascii String Bool Lia DecimalString.
From stdpp Require Import base option list gmap strings.

Local Open Scope Z_scope.

(** ** Python string primitives *)

Module PyStr.

Definition slash : ascii := "/"%char.

(** [str.isspace] on a single code point below 256. *)
Definition is_space (c : ascii) : bool :=
  let n := nat_of_ascii c in
  ((9 <=? n) && (n <=? 13) || (28 <=? n) && (n <=? 32)
   || (n =? 133) || (n =? 160))%nat.

(** [s.lstrip()] / [s.lstrip(chars)], with the set of characters to drop
    given as a predicate. *)
Fixpoint lstrip_by (p : ascii -> bool) (s : string) : string :=
  match s with
  | EmptyString => EmptyString
  | String c s' => if p c then lstrip_by p s' else s
  end.

(** [s.rstrip()] / [s.rstrip(chars)]. *)
Fixpoint rstrip_by (p : ascii -> bool) (s : string) : string :=
  match s with
  | EmptyString => EmptyString
  | String c s' =>
      match rstrip_by p s' with
      | EmptyString => if p c then EmptyString else String c EmptyString
      | r => String c r
      end
  end.

Definition strip_by (p : ascii -> bool) (s : string) : string :=
  rstrip_by p (lstrip_by p s).

(** [s.strip()] *)
Definition strip (s : string) : string := strip_by is_space s.

Definition is_slash (c : ascii) : bool := Ascii.eqb c slash.

(** [s.strip("/")], [s.lstrip("/")], [s.rstrip("/")] *)
Definition strip_slash (s : string) : string := strip_by is_slash s.
Definition lstrip_slash (s : string) : string := lstrip_by is_slash s.
Definition rstrip_slash (s : string) : string := rstrip_by is_slash s.

(** [s.startswith(p)] *)
Fixpoint startswith (p s : string) : bool :=
  match p, s with
  | EmptyString, _ => true
  | String a p', String b s' => Ascii.eqb a b && startswith p' s'
  | String _ _, EmptyString => false
  end.

(** last character of a string, if any *)
Fixpoint last_char (s : string) : option ascii :=
  match s with
  | EmptyString => None
  | String c EmptyString => Some c
  | String _ s' => last_char s'
  end.

(** [s.endswith(c)] for a one-character suffix. *)
Definition endswith_char (c : ascii) (s : string) : bool :=
  match last_char s with
  | Some c' => Ascii.eqb c' c
  | None => false
  end.

Definition first_char (s : string) : option ascii :=
  match s with
  | EmptyString => None
  | String c _ => Some c
  end.

(** [s[:-1]] *)
Fixpoint drop_last (s : string) : string :=
  match s with
  | EmptyString => EmptyString
  | String _ EmptyString => EmptyString
  | String c s' => String c (drop_last s')
  end.

(** [os.path.join(a, b)] of [posixpath] for two components. *)
Definition path_join (a b : string) : string :=
  if startswith "/" b then b
  else if String.eqb a "" || endswith_char slash a then a +:+ b
  else a +:+ "/" +:+ b.

End PyStr.

(** ** Python [datetime.strptime] and [datetime.strftime]

    Modelled from CPython's [_strptime.py] and the documentation of the
    [datetime] module, for the directives the two timestamp formats of this
    program use ([%Y %m %d %H %M %S]) and literal characters.  [strptime]
    turns the format into a regular expression (one group of ordered
    alternatives per directive), matches it at the start of the input with
    backtracking, rejects input that is left over, converts the groups with
    [int] and builds a [datetime], which validates the ranges.  [strftime]
    hands the format to the C library of the platform, glibc for the snap
    this charm drives: the fields other than the year are printed with two
    digits, and [%Y] prints the decimal digits of the year without padding,
    so that a year below 1000 is printed with fewer than four digits. *)

Module PyDatetime.

Record datetime := mkDatetime {
  year : nat; month : nat; day : nat;
  hour : nat; minute : nat; second : nat }.

Inductive directive := DY | Dm | Dd | DH | DM | DS.

Inductive fmt_item :=
| FLit (c : ascii)
| FDir (d : directive).

Definition directive_of_ascii (c : ascii) : option directive :=
  match c with
  | "Y" => Some DY | "m" => Some Dm | "d" => Some Dd
  | "H" => Some DH | "M" => Some DM | "S" => Some DS
  | _ => None
  end%char.

(** A format string as a list of directives and literal characters.
    Formats with other directives or with white space are outside the
    model ([None]). *)
Fixpoint parse_format (f : string) : option (list fmt_item) :=
  match f with
  | EmptyString => Some []
  | String "%" (String c f') =>
      match directive_of_ascii c, parse_format f' with
      | Some d, Some l => Some (FDir d :: l)
      | _, _ => None
      end
  | String c f' =>
      if PyStr.is_space c || Ascii.eqb c "%" then None
      else match parse_format f' with
           | Some l => Some (FLit c :: l)
           | None => None
           end
  end.

(** Character classes of the regular expressions. *)
Inductive cclass :=
| CDigit                       (* \d *)
| CRange (lo hi : nat)         (* [lo-hi], digits given by value *)
| CChar (c : ascii).

Definition digit_val (c : ascii) : option nat :=
  let n := nat_of_ascii c in
  if ((48 <=? n) && (n <=? 57))%nat then Some (n - 48)%nat else None.

Definition cclass_match (k : cclass) (c : ascii) : bool :=
  match k with
  | CDigit => bool_decide (is_Some (digit_val c))
  | CRange lo hi =>
      match digit_val c with
      | Some v => ((lo <=? v) && (v <=? hi))%nat
      | None => false
      end
  | CChar c' => Ascii.eqb c c'
  end.

(** The ordered alternatives of each directive's group, as in
    [TimeRE.__init__]. *)
Definition alternatives (d : directive) : list (list cclass) :=
  match d with
  | DY => [[CDigit; CDigit; CDigit; CDigit]]
  | Dm => [[CRange 1 1; CRange 0 2]; [CRange 0 0; CRange 1 9]; [CRange 1 9]]
  | Dd => [[CRange 3 3; CRange 0 1]; [CRange 1 2; CDigit];
           [CRange 0 0; CRange 1 9]; [CRange 1 9];
           [CChar " "; CRange 1 9]]
  | DH => [[CRange 2 2; CRange 0 3]; [CRange 0 1; CDigit]; [CDigit]]
  | DM => [[CRange 0 5; CDigit]; [CDigit]]
  | DS => [[CRange 6 6; CRange 0 1]; [CRange 0 5; CDigit]; [CDigit]]
  end.

(** One alternative against the start of the input: the matched text and
    the rest. *)
Fixpoint match_alt (a : list cclass) (s : string) : option (string * string) :=
  match a with
  | [] => Some (EmptyString, s)
  | k :: a' =>
      match s with
      | EmptyString => None
      | String c s' =>
          if cclass_match k c then
            match match_alt a' s' with
            | Some (t, r) => Some (String c t, r)
            | None => None
            end
          else None
      end
  end.

Definition captures := list (directive * string).

(** The alternatives of a group in order; the first one after which the
    rest of the pattern [k] matches wins (backtracking). *)
Fixpoint try_alts (d : directive) (alts : list (list cclass)) (s : string)
    (k : string -> option (captures * string)) : option (captures * string) :=
  match alts with
  | [] => None
  | a :: alts' =>
      match match_alt a s with
      | Some (t, r) =>
          match k r with
          | Some (caps, r') => Some ((d, t) :: caps, r')
          | None => try_alts d alts' s k
          end
      | None => try_alts d alts' s k
      end
  end.

(** Lower case of an ASCII letter: the pattern is compiled with IGNORECASE,
    and the literal characters of the formats at hand are ASCII. *)
Definition lower (c : ascii) : ascii :=
  let n := nat_of_ascii c in
  if ((65 <=? n) && (n <=? 90))%nat then ascii_of_nat (n + 32) else c.

(** [format_regex.match(data_string)]: the captured groups and what is
    left of the input after the match. *)
Fixpoint match_items (its : list fmt_item) (s : string)
    : option (captures * string) :=
  match its with
  | [] => Some ([], s)
  | FLit c :: its' =>
      match s with
      | String c' s' =>
          if Ascii.eqb (lower c) (lower c') then match_items its' s' else None
      | EmptyString => None
      end
  | FDir d :: its' => try_alts d (alternatives d) s (match_items its')
  end.

(** [int(text)] for the text of a group: decimal digits, white space
    around them ignored. *)
Fixpoint int_digits (acc : nat) (s : string) : option nat :=
  match s with
  | EmptyString => Some acc
  | String c s' =>
      match digit_val c with
      | Some v => int_digits (10 * acc + v)%nat s'
      | None => None
      end
  end.

Definition int_of_string (s : string) : option nat :=
  match PyStr.strip s with
  | EmptyString => None
  | t => int_digits 0 t
  end.

Definition directive_eqb (a b : directive) : bool :=
  match a, b with
  | DY, DY | Dm, Dm | Dd, Dd | DH, DH | DM, DM | DS, DS => true
  | _, _ => false
  end.

(** The value of a group, or the default of [_strptime] when the format
    does not have the directive. *)
Fixpoint field (d : directive) (dflt : nat) (caps : captures) : option nat :=
  match caps with
  | [] => Some dflt
  | (d', t) :: caps' =>
      if directive_eqb d d' then int_of_string t else field d dflt caps'
  end.

Definition is_leap (y : nat) : bool :=
  ((y mod 4 =? 0) && (negb (y mod 100 =? 0) || (y mod 400 =? 0)))%nat.

Definition days_in_month (y m : nat) : nat :=
  match m with
  | 2 => if is_leap y then 29 else 28
  | 4 | 6 | 9 | 11 => 30
  | _ => 31
  end%nat.

Definition MINYEAR : nat := 1.
Definition MAXYEAR : nat := Z.to_nat 9999.

(** The range checks of the [datetime] constructor. *)
Definition valid (dt : datetime) : bool :=
  ((MINYEAR <=? year dt) && (year dt <=? MAXYEAR)
   && (1 <=? month dt) && (month dt <=? 12)
   && (1 <=? day dt) && (day dt <=? days_in_month (year dt) (month dt))
   && (hour dt <=? 23) && (minute dt <=? 59) && (second dt <=? 59))%nat.

(** [datetime.strptime(data, format)]; [None] stands for [ValueError]. *)
Definition strptime (data fmt : string) : option datetime :=
  match parse_format fmt with
  | None => None
  | Some its =>
      match match_items its data with
      | Some (caps, EmptyString) =>
          match field DY 1900 caps, field Dm 1 caps, field Dd 1 caps,
                field DH 0 caps, field DM 0 caps, field DS 0 caps with
          | Some y, Some mo, Some d, Some h, Some mi, Some sec =>
              let dt := mkDatetime y mo d h mi sec in
              if valid dt then Some dt else None
          | _, _, _, _, _, _ => None
          end
      | _ => None
      end
  end.

Definition digit_char (n : nat) : ascii := ascii_of_nat (48 + n mod 10).

Definition pad2 (n : nat) : string :=
  String (digit_char (n / 10)) (String (digit_char n) EmptyString).

(** Four digits: what [%Y] prints for the years 1000 to 9999. *)
Definition pad4 (n : nat) : string :=
  String (digit_char (n / 1000)) (String (digit_char (n / 100))
    (String (digit_char (n / 10)) (String (digit_char n) EmptyString))).

(** [%Y] of glibc: the year in decimal, with no leading zero. *)
Definition print_year (n : nat) : string :=
  NilEmpty.string_of_uint (Nat.to_uint n).

Definition print_directive (d : directive) (dt : datetime) : string :=
  match d with
  | DY => print_year (year dt)
  | Dm => pad2 (month dt)
  | Dd => pad2 (day dt)
  | DH => pad2 (hour dt)
  | DM => pad2 (minute dt)
  | DS => pad2 (second dt)
  end.

Fixpoint print_items (its : list fmt_item) (dt : datetime) : string :=
  match its with
  | [] => EmptyString
  | FLit c :: its' => String c (print_items its' dt)
  | FDir d :: its' => print_directive d dt +:+ print_items its' dt
  end.

(** [datetime.strftime(dt, format)] *)
Definition strftime (dt : datetime) (fmt : string) : option string :=
  match parse_format fmt with
  | Some its => Some (print_items its dt)
  | None => None
  end.

End PyDatetime.

Import PyDatetime.

(** ** Values, exceptions and results *)

(** The Python values that occur in the relation data and in the engine's
    JSON: [None], booleans, integers, strings and lists of strings. *)
Inductive pyval :=
| PyNone
| PyBool (b : bool)
| PyInt (n : Z)
| PyStr (s : string)
| PyList (l : list string).

(** Truth value of a Python object ([if v:] / [not v]). *)
Definition truthy (v : pyval) : bool :=
  match v with
  | PyNone => false
  | PyBool b => b
  | PyInt n => negb (n =? 0)
  | PyStr s => negb (String.eqb s "")
  | PyList l => match l with [] => false | _ => true end
  end.

Inductive exn :=
| ListBackupsError (msg : string)
| JSONDecodeError
| ValueError
| KeyError (k : string)
| IndexError
| AttributeError
| TypeError
| TimeoutError
| TimeoutExpired.

Inductive result (A : Type) :=
| Ok (a : A)
| Raise (e : exn).
Arguments Ok {A} a.
Arguments Raise {A} e.

Definition rbind {A B} (r : result A) (f : A -> result B) : result B :=
  match r with
  | Ok a => f a
  | Raise e => Raise e
  end.

(** ** Ordered dictionaries (insertion order, one entry per key) *)

Definition odict := list (string * string).

(** [d[k] = v]: an existing key keeps its place, a new one goes last. *)
Fixpoint od_set (k v : string) (d : odict) : odict :=
  match d with
  | [] => [(k, v)]
  | (k', v') :: d' =>
      if String.eqb k k' then (k', v) :: d' else (k', v') :: od_set k v d'
  end.

(** [OrderedDict(pairs)] *)
Definition OrderedDict (pairs : list (string * string)) : odict :=
  foldl (fun d p => od_set p.1 p.2 d) [] pairs.

Definition od_keys (d : odict) : list string := d.*1.

(** [d.get(k)] *)
Fixpoint od_get (k : string) (d : odict) : option string :=
  match d with
  | [] => None
  | (k', v) :: d' => if String.eqb k k' then Some v else od_get k d'
  end.

(** [k in d.keys()] *)
Definition od_mem (k : string) (d : odict) : bool :=
  bool_decide (k ∈ od_keys d).

(** ** Data model *)

(** One entry of the engine's [info --output=json]: a repository with its
    backups. *)
Record backup_entry := mkBackup { label : string; error : pyval }.
Record repository := mkRepo { name : string; backup : list backup_entry }.

Inductive status :=
| ActiveStatus
| MaintenanceStatus (msg : string)
| BlockedStatus (msg : string)
| WaitingStatus (msg : string).

Definition status_message (s : status) : string :=
  match s with
  | ActiveStatus => ""
  | MaintenanceStatus m | BlockedStatus m | WaitingStatus m => m
  end.

(** Everything the workflows do to their collaborators, in program order.
    An event that has an answer records it. *)
Inductive event :=
| EvExec (cmd : list string) (input : option string) (rc : Z)
| EvExecTimedOut (cmd : list string)
| EvSleep (seconds : nat)
| EvUpdateConfig (is_creating_backup : bool)
| EvReloadPatroni
| EvStopPatroni (ok : bool)
| EvStartPatroni
| EvRemoveDataDir (ok : bool)
| EvRenderFile (path : string)
| EvSnapStop
| EvSnapRestart
| EvUpload (bucket key content : string) (ok : bool)
| EvSetStatus (s : status)
| EvAppPeerUpdate (kvs : list (string * string))
| EvAppPeerPop (k : string)
| EvUnitPeerUpdate (kvs : list (string * string))
| EvFail (msg : string)
| EvSetResults (k v : string).

(** The mutable state a hook sees: both peer data bags, the unit status and
    the log of events so far. *)
Record world := mkWorld {
  app_peer_data : gmap string string;
  unit_peer_data : gmap string string;
  unit_status : status;
  log : list event }.

(** The constants of the [constants] module, which the program imports. *)
Record constants := mkConstants {
  BACKUP_ID_FORMAT : string;
  PGBACKREST_BACKUP_ID_FORMAT : string;
  PGBACKREST_EXECUTABLE : string;
  PGBACKREST_CONFIGURATION_FILE : string;
  PGBACKREST_CONF_PATH : string;
  PATRONI_CONF_PATH : string;
  POSTGRESQL_DATA_PATH : string }.

(** What the collaborators answer.  Answers that can change while a hook
    runs are functions of the log so far. *)
Record env := mkEnv {
  model_name : string;
  app_name : string;
  unit_name : string;
  cluster_name : string;
  juju_version : string;
  is_leader : bool;                    (* charm.unit.is_leader() *)
  is_primary : bool;                   (* charm.is_primary *)
  unit_is_patroni_primary : bool;      (* unit.name == _patroni.get_primary(..) *)
  planned_units : nat;                 (* charm.app.planned_units() *)
  is_tls_enabled : bool;               (* charm.is_tls_enabled *)
  peer_members_ips : list string;      (* charm._peer_members_ips *)
  primary_endpoint : option string;    (* charm.primary_endpoint *)
  s3_relation_exists : bool;           (* model.get_relation(..) is not None *)
  s3_connection_info : gmap string pyval;  (* s3_client.get_s3_connection_info() *)
  snap_present : bool;
  action_backup_id : option string;    (* event.params.get("backup-id") *)
  member_started : list event -> bool;
  exec : list event -> list string -> option string -> Z * string * string;
  exec_exceeds : list event -> list string -> nat -> bool;
  json_loads : string -> option (list repository);
  upload_ok : list event -> string -> string -> string -> bool;
  stop_patroni_ok : list event -> bool;
  data_dir_exists : list event -> bool;
  rmtree_ok : list event -> bool;
  now : list event -> datetime }.

(** ** The monad of a hook: state, log and exceptions *)

Definition M (A : Type) : Type := world -> result A * world.

Definition ret {A} (a : A) : M A := fun w => (Ok a, w).

Definition raise {A} (e : exn) : M A := fun w => (Raise e, w).

Definition bind {A B} (m : M A) (f : A -> M B) : M B :=
  fun w =>
    match m w with
    | (Ok a, w') => f a w'
    | (Raise e, w') => (Raise e, w')
    end.

Declare Scope hook_scope.
Delimit Scope hook_scope with hook.
Notation "x <~ m ;; k" := (bind m (fun x => k))
  (at level 20, m at level 99, k at level 200, only parsing)
  : hook_scope.
Notation "' p <~ m ;; k" := (bind m (fun x => let 'p := x in k))
  (at level 20, p pattern, m at level 99, k at level 200, only parsing)
  : hook_scope.
Local Open Scope hook_scope.

Definition emit (e : event) : M unit :=
  fun w => (Ok tt, mkWorld (app_peer_data w) (unit_peer_data w) (unit_status w)
                           (log w ++ [e])).

Definition get_world : M world := fun w => (Ok w, w).

Definition lift {A} (r : result A) : M A := fun w => (r, w).

(** [charm.unit.status = s] *)
Definition set_status (s : status) : M unit :=
  fun w => (Ok tt, mkWorld (app_peer_data w) (unit_peer_data w) s
                           (log w ++ [EvSetStatus s])).

(** [d.update({k1: v1, ...})] on a peer data bag *)
Definition dict_update (kvs : list (string * string)) (d : gmap string string)
    : gmap string string :=
  foldl (fun m kv => <[kv.1 := kv.2]> m) d kvs.

(** [charm.app_peer_data.update(kvs)] *)
Definition app_peer_update (kvs : list (string * string)) : M unit :=
  fun w => (Ok tt, mkWorld (dict_update kvs (app_peer_data w)) (unit_peer_data w)
                           (unit_status w) (log w ++ [EvAppPeerUpdate kvs])).

(** [charm.app_peer_data.pop(k, None)] *)
Definition app_peer_pop (k : string) : M unit :=
  fun w => (Ok tt, mkWorld (delete k (app_peer_data w)) (unit_peer_data w)
                           (unit_status w) (log w ++ [EvAppPeerPop k])).

(** [charm.unit_peer_data.update(kvs)] *)
Definition unit_peer_update (kvs : list (string * string)) : M unit :=
  fun w => (Ok tt, mkWorld (app_peer_data w) (dict_update kvs (unit_peer_data w))
                           (unit_status w) (log w ++ [EvUnitPeerUpdate kvs])).

(** [charm.is_blocked]: the unit status is a [BlockedStatus]. *)
Definition is_blocked (w : world) : bool :=
  match unit_status w with
  | BlockedStatus _ => true
  | _ => false
  end.

Definition ANOTHER_CLUSTER_REPOSITORY_ERROR_MESSAGE : string :=
  "the S3 repository has backups from another cluster".
Definition FAILED_TO_ACCESS_CREATE_BUCKET_ERROR_MESSAGE : string :=
  "failed to access/create the bucket, check your S3 settings".
Definition FAILED_TO_INITIALIZE_STANZA_ERROR_MESSAGE : string :=
  "failed to initialize stanza, check your S3 settings".

Definition S3_BLOCK_MESSAGES : list string :=
  [ANOTHER_CLUSTER_REPOSITORY_ERROR_MESSAGE;
   FAILED_TO_ACCESS_CREATE_BUCKET_ERROR_MESSAGE;
   FAILED_TO_INITIALIZE_STANZA_ERROR_MESSAGE].

Definition nl : string := String (ascii_of_nat 10) EmptyString.

Global Instance result_ret : MRet result := fun A a => Ok a.
Global Instance result_bind : MBind result := fun A B f r => rbind r f.

(** [d[k]] on a dictionary of Python values *)
Definition getitem (d : gmap string pyval) (k : string) : result pyval :=
  match d !! k with
  | Some v => Ok v
  | None => Raise (KeyError k)
  end.

(** [k in d] *)
Definition contains {V} (k : string) (d : gmap string V) : bool :=
  match d !! k with
  | Some _ => true
  | None => false
  end.

(** [d.setdefault(k, v)] *)
Definition setdefault (k : string) (v : pyval) (d : gmap string pyval)
    : gmap string pyval :=
  match d !! k with
  | Some _ => d
  | None => <[k := v]> d
  end.

(** A [str] method applied to a value: a value that is not a string has no
    such attribute. *)
Definition str_method (f : string -> string) (v : pyval) : result string :=
  match v with
  | PyStr s => Ok (f s)
  | _ => Raise AttributeError
  end.

(** The path argument of [os.path.join] has to be a string. *)
Definition as_path (v : pyval) : result string :=
  match v with
  | PyStr s => Ok s
  | _ => Raise TypeError
  end.

(** [value.strip()] for the string values of the loop over [items()]. *)
Definition strip_value (v : pyval) : pyval :=
  match v with
  | PyStr s => PyStr (PyStr.strip s)
  | _ => v
  end.

(** [repr] of a list of strings without quotes or backslashes, as the
    f-string of the missing parameters prints it. *)
Fixpoint repr_items (l : list string) : string :=
  match l with
  | [] => ""
  | [x] => "'" +:+ x +:+ "'"
  | x :: l' => "'" +:+ x +:+ "', " +:+ repr_items l'
  end.

Definition repr_list (l : list string) : string := "[" +:+ repr_items l +:+ "]".

(** [except ListBackupsError] around a call: [None] when it was raised. *)
Definition catch_ListBackupsError {A} (m : M A) : M (option A) :=
  fun w =>
    match m w with
    | (Ok a, w') => (Ok (Some a), w')
    | (Raise (ListBackupsError _), w') => (Ok None, w')
    | (Raise e, w') => (Raise e, w')
    end.

(** The search of [re.findall] in [_run_backup] for
    [(new backup label = )([0-9]{8}[-][0-9]{6}[F])$] with [re.MULTILINE];
    the second group of the first match. *)
Fixpoint strip_prefix (p s : string) : option string :=
  match p, s with
  | EmptyString, _ => Some s
  | String a p', String b s' => if Ascii.eqb a b then strip_prefix p' s' else None
  | String _ _, EmptyString => None
  end.

Fixpoint take_digits (n : nat) (s : string) : option (string * string) :=
  match n with
  | O => Some (EmptyString, s)
  | S n' =>
      match s with
      | String c s' =>
          if bool_decide (is_Some (digit_val c)) then
            match take_digits n' s' with
            | Some (t, r) => Some (String c t, r)
            | None => None
            end
          else None
      | EmptyString => None
      end
  end.

(** [$] with [re.MULTILINE]: at the end of the text or before a newline. *)
Definition at_line_end (s : string) : bool :=
  match s with
  | EmptyString => true
  | String c _ => Ascii.eqb c (ascii_of_nat 10)
  end.

Definition backup_label_at (s : string) : option string :=
  r0 ← strip_prefix "new backup label = " s;
  '(d8, r1) ← take_digits 8 r0;
  r2 ← strip_prefix "-" r1;
  '(d6, r3) ← take_digits 6 r2;
  r4 ← strip_prefix "F" r3;
  if at_line_end r4 then Some (d8 +:+ "-" +:+ d6 +:+ "F") else None.

Fixpoint find_backup_label (stdout : string) : option string :=
  match backup_label_at stdout with
  | Some l => Some l
  | None =>
      match stdout with
      | EmptyString => None
      | String _ s' => find_backup_label s'
      end
  end.

(** [tenacity.Retrying(stop=stop_after_attempt(n), wait=wait_fixed(d))]
    around a block: the block is run until it does not raise ([true]); after
    a failed attempt the loop gives up when that was attempt [n]
    ([false], the [RetryError]) and sleeps [d] seconds otherwise. *)
Fixpoint Retrying (stop_after_attempt wait_fixed : nat) (attempt : M bool) : M bool :=
  match stop_after_attempt with
  | O => ret false
  | S n =>
      ok <~ attempt;;
      if ok then ret true
      else match n with
           | O => ret false
           | S _ => _ <~ emit (EvSleep wait_fixed);; Retrying n wait_fixed attempt
           end
  end.

(** ** The methods of [PostgreSQLBackups] *)

Section Backups.

Variable K : constants.
Variable E : env.

(** [stanza_name]: model name and cluster name joined by a dot. *)
Definition stanza_name : string := model_name E +:+ "." +:+ cluster_name E.

Definition required_parameters : list string :=
  ["bucket"; "access-key"; "secret-key"].

(** [_retrieve_s3_parameters] *)
Definition _retrieve_s3_parameters : result (gmap string pyval * list string) :=
  let s3_parameters := s3_connection_info E in
  let missing_required_parameters :=
    filter (fun param => s3_parameters !! param = None) required_parameters in
  match missing_required_parameters with
  | _ :: _ => Ok (∅, missing_required_parameters)
  | [] =>
      let p1 := setdefault "endpoint" (PyStr "https://s3.amazonaws.com") s3_parameters in
      let p2 := setdefault "region" PyNone p1 in
      let p3 := setdefault "path" (PyStr "") p2 in
      let p4 := setdefault "s3-uri-style" (PyStr "host") p3 in
      let p5 := strip_value <$> p4 in
      endpoint ← getitem p5 "endpoint" ≫= str_method PyStr.rstrip_slash;
      let p6 := <["endpoint" := PyStr endpoint]> p5 in
      path ← getitem p6 "path" ≫= str_method PyStr.strip_slash;
      let p7 := <["path" := PyStr ("/" +:+ path)]> p6 in
      bucket ← getitem p7 "bucket" ≫= str_method PyStr.strip_slash;
      let p8 := <["bucket" := PyStr bucket]> p7 in
      Ok (p8, [])
  end.

(** [_are_backup_settings_ok] *)
Definition _are_backup_settings_ok : result (bool * option string) :=
  if negb (s3_relation_exists E) then
    Ok (false,
        Some "Relation with s3-integrator charm missing, cannot create/restore backup.")
  else
    '(_, missing_parameters) ← _retrieve_s3_parameters;
    match missing_parameters with
    | _ :: _ =>
        Ok (false, Some ("Missing S3 parameters: " +:+ repr_list missing_parameters))
    | [] => Ok (true, None)
    end.

(** [_can_unit_perform_backup] *)
Definition _can_unit_perform_backup (w : world) : result (bool * option string) :=
  if is_blocked w then Ok (false, Some "Unit is in a blocking state")
  else
    let tls_enabled := contains "tls" (unit_peer_data w) in
    let is_primary := unit_is_patroni_primary E in
    if is_primary && (1 <? planned_units E)%nat && tls_enabled then
      Ok (false, Some "Unit cannot perform backups as it is the cluster primary")
    else if negb is_primary && negb tls_enabled then
      Ok (false, Some "Unit cannot perform backups as TLS is not enabled")
    else if negb (member_started E (log w)) then
      Ok (false, Some "Unit cannot perform backups as it's not in running state")
    else if negb (contains "stanza" (app_peer_data w)) then
      Ok (false, Some "Stanza was not initialised")
    else _are_backup_settings_ok.

(** [_execute_command]: the process runs to its end unless a timeout was
    given and is exceeded, which raises [TimeoutExpired]. *)
Definition _execute_command (command : list string) (command_input : option string)
    (timeout : option nat) : M (Z * string * string) :=
  w <~ get_world;;
  let timed_out :=
    match timeout with
    | Some t => exec_exceeds E (log w) command t
    | None => false
    end in
  if timed_out then
    _ <~ emit (EvExecTimedOut command);; raise TimeoutExpired
  else
    let r := exec E (log w) command command_input in
    _ <~ emit (EvExec command command_input r.1.1);; ret r.

(** [_change_connectivity_to_database] *)
Definition _change_connectivity_to_database (connectivity : bool) : M unit :=
  _ <~ unit_peer_update [("connectivity", if connectivity then "on" else "off")];;
  emit (EvUpdateConfig false).

(** [_empty_data_files] *)
Definition _empty_data_files : M bool :=
  w <~ get_world;;
  if data_dir_exists E (log w) then
    let ok := rmtree_ok E (log w) in
    _ <~ emit (EvRemoveDataDir ok);; ret ok
  else ret true.

(** The conversion of an engine label to a backup id in [_list_backups]:
    [strftime(strptime(label[:-1], PGBACKREST_BACKUP_ID_FORMAT),
    BACKUP_ID_FORMAT)]. *)
Definition backup_id_of_label (lbl : string) : option string :=
  dt ← strptime (PyStr.drop_last lbl) (PGBACKREST_BACKUP_ID_FORMAT K);
  strftime dt (BACKUP_ID_FORMAT K).

(** The conversion of a backup id to the restore label in
    [_on_restore_action]:
    [f"{strftime(strptime(backup_id, BACKUP_ID_FORMAT),
    PGBACKREST_BACKUP_ID_FORMAT)}F"]. *)
Definition timestamp_of_backup_id (backup_id : string) : option string :=
  dt ← strptime backup_id (BACKUP_ID_FORMAT K);
  strftime dt (PGBACKREST_BACKUP_ID_FORMAT K).

Definition restore_label (backup_id : string) : option string :=
  ts ← timestamp_of_backup_id backup_id;
  Some (ts +:+ "F").

Definition or_ValueError {A} (o : option A) : result A :=
  match o with
  | Some a => Ok a
  | None => Raise ValueError
  end.

(** The entries the generator of [_list_backups] keeps:
    [for backup in backups if show_failed or not backup["error"]]. *)
Definition selected (show_failed : bool) (backups : list backup_entry)
    : list backup_entry :=
  filter (fun b => show_failed || negb (truthy (error b)) = true) backups.

(** The pairs the generator yields, up to the first label that
    [strptime] rejects. *)
Fixpoint catalog_pairs (stanza : string) (backups : list backup_entry)
    : result (list (string * string)) :=
  match backups with
  | [] => Ok []
  | b :: backups' =>
      backup_id ← or_ValueError (backup_id_of_label (label b));
      rest ← catalog_pairs stanza backups';
      Ok ((backup_id, stanza) :: rest)
  end.

(** [_list_backups] once the engine's output is decoded. *)
Definition list_backups_of (show_failed : bool) (repositories : list repository)
    : result odict :=
  match repositories with
  | [] => Ok []
  | repository_info :: _ =>
      pairs ← catalog_pairs (name repository_info)
                (selected show_failed (backup repository_info));
      Ok (OrderedDict pairs)
  end.

Definition info_command : list string :=
  [PGBACKREST_EXECUTABLE K; PGBACKREST_CONFIGURATION_FILE K; "info"; "--output=json"].

(** [_list_backups] *)
Definition _list_backups (show_failed : bool) : M odict :=
  '(return_code, output, stderr) <~ _execute_command info_command None None;;
  if negb (return_code =? 0) then
    raise (ListBackupsError ("Failed to list backups with error: " +:+ stderr))
  else
    match json_loads E output with
    | None => raise JSONDecodeError
    | Some repositories => lift (list_backups_of show_failed repositories)
    end.

(** [_render_pgbackrest_conf_file] *)
Definition _render_pgbackrest_conf_file : M bool :=
  '(_, missing_parameters) <~ lift _retrieve_s3_parameters;;
  match missing_parameters with
  | _ :: _ => ret false
  | [] =>
      _ <~ emit (EvRenderFile (PGBACKREST_CONF_PATH K +:+ "/pgbackrest.conf"));;
      ret true
  end.

(** [_is_primary_pgbackrest_service_running] *)
Definition _is_primary_pgbackrest_service_running : M bool :=
  match primary_endpoint E with
  | None | Some "" => ret false
  | Some endpoint =>
      '(return_code, _, _) <~
        _execute_command
          [PGBACKREST_EXECUTABLE K; "server-ping"; "--io-timeout=10"; endpoint]
          None None;;
      ret (return_code =? 0)
  end.

(** [start_stop_pgbackrest_service] *)
Definition start_stop_pgbackrest_service : M bool :=
  '(are_backup_settings_ok, _) <~ lift _are_backup_settings_ok;;
  if negb are_backup_settings_ok then ret true
  else
    rendered <~ _render_pgbackrest_conf_file;;
    if negb rendered then ret false
    else if negb (snap_present E) then ret false
    else if negb (is_tls_enabled E) || (length (peer_members_ips E) =? 0)%nat then
      _ <~ emit EvSnapStop;; ret true
    else
      running <~ (if is_primary E then ret true
                  else _is_primary_pgbackrest_service_running);;
      if negb running then ret false
      else _ <~ emit EvSnapRestart;; ret true.

Definition stanza_create_command : list string :=
  [PGBACKREST_EXECUTABLE K; PGBACKREST_CONFIGURATION_FILE K;
   "--stanza=" +:+ stanza_name; "stanza-create"].

(** [_initialise_stanza] *)
Definition _initialise_stanza : M unit :=
  if negb (is_leader E) then ret tt
  else
    w <~ get_world;;
    if is_blocked w
       && negb (bool_decide (status_message (unit_status w) ∈ S3_BLOCK_MESSAGES))
    then ret tt
    else
      _ <~ set_status (MaintenanceStatus "initialising stanza");;
      '(return_code, _, stderr) <~ _execute_command stanza_create_command None None;;
      if return_code =? 49 then raise TimeoutError
      else if negb (return_code =? 0) then
        set_status (BlockedStatus FAILED_TO_INITIALIZE_STANZA_ERROR_MESSAGE)
      else
        _ <~ start_stop_pgbackrest_service;;
        app_peer_update [("stanza", stanza_name); ("init-pgbackrest", "True")].

Definition check_command : list string :=
  [PGBACKREST_EXECUTABLE K; PGBACKREST_CONFIGURATION_FILE K;
   "--stanza=" +:+ stanza_name; "check"].

(** The block of one attempt in [check_stanza]: [true] unless it raised. *)
Definition check_attempt : M bool :=
  w <~ get_world;;
  _ <~ (if member_started E (log w) then emit EvReloadPatroni else ret tt);;
  '(return_code, _, _) <~ _execute_command check_command None None;;
  ret (return_code =? 0).

(** [check_stanza] *)
Definition check_stanza : M unit :=
  w <~ get_world;;
  if negb (is_leader E) || negb (contains "init-pgbackrest" (app_peer_data w))
  then ret tt
  else
    _ <~ emit (EvUpdateConfig false);;
    _ <~ set_status (MaintenanceStatus "checking stanza");;
    ok <~ Retrying 5 3 check_attempt;;
    _ <~ (if ok then set_status ActiveStatus
          else
            _ <~ app_peer_update [("stanza", "")];;
            _ <~ app_peer_pop "init-pgbackrest";;
            _ <~ emit (EvUpdateConfig false);;
            set_status (BlockedStatus FAILED_TO_INITIALIZE_STANZA_ERROR_MESSAGE));;
    app_peer_pop "init-pgbackrest".

(** The object key of [_upload_content_to_s3]:
    [os.path.join(s3_parameters["path"], s3_path).lstrip("/")]. *)
Definition object_key (path s3_path : string) : string :=
  PyStr.lstrip_slash (PyStr.path_join path s3_path).

(** [_upload_content_to_s3]: everything after the key is computed runs
    under [except Exception], so the answer is a boolean. *)
Definition _upload_content_to_s3 (content s3_path : string)
    (s3_parameters : gmap string pyval) : M bool :=
  bucket_name <~ lift (getitem s3_parameters "bucket");;
  path <~ lift (getitem s3_parameters "path" ≫= as_path);;
  let key := object_key path s3_path in
  match bucket_name with
  | PyStr bucket =>
      w <~ get_world;;
      let ok := upload_ok E (log w) bucket key content in
      _ <~ emit (EvUpload bucket key content ok);; ret ok
  | _ => ret false
  end.

Definition backup_command : list string :=
  [PGBACKREST_EXECUTABLE K; PGBACKREST_CONFIGURATION_FILE K;
   "--stanza=" +:+ stanza_name; "--log-level-console=debug"; "--type=full";
   "backup"]
  ++ (if is_primary E then ["--no-backup-standby"] else []).

(** The text of the log object. *)
Definition backup_logs (stdout stderr : string) : string :=
  "Stdout:" +:+ nl +:+ stdout +:+ nl +:+ nl +:+ "Stderr:" +:+ nl +:+ stderr +:+ nl.

(** The logical path of the log object, joined by the caller. *)
Definition backup_log_path (path backup_id : string) : string :=
  PyStr.path_join path ("backup/" +:+ stanza_name +:+ "/" +:+ backup_id +:+ "/backup.log").

(** [_run_backup] *)
Definition _run_backup (s3_parameters : gmap string pyval)
    (datetime_backup_requested : string) : M unit :=
  '(return_code, stdout, stderr) <~ _execute_command backup_command None None;;
  if negb (return_code =? 0) then
    w <~ get_world;;
    backup_id <~
      match find_backup_label stdout with
      | Some l => ret l
      | None => lift (or_ValueError (strftime (now E (log w)) "%Y%m%d-%H%M%SF"))
      end;;
    let logs := backup_logs stdout stderr in
    path <~ lift (getitem s3_parameters "path" ≫= as_path);;
    _ <~ _upload_content_to_s3 logs (backup_log_path path backup_id) s3_parameters;;
    emit (EvFail ("Failed to backup PostgreSQL with error: " +:+ stderr))
  else
    listed <~ catch_ListBackupsError
                (backups <~ _list_backups true;;
                 match last (od_keys backups) with
                 | Some backup_id => ret backup_id
                 | None => raise IndexError
                 end);;
    match listed with
    | None => emit (EvFail "Failed to retrieve backup id")
    | Some backup_id =>
        let logs := backup_logs stdout stderr in
        path <~ lift (getitem s3_parameters "path" ≫= as_path);;
        uploaded <~ _upload_content_to_s3 logs (backup_log_path path backup_id)
                      s3_parameters;;
        if negb uploaded then emit (EvFail "Error uploading logs to S3")
        else emit (EvSetResults "backup-status" "backup created")
    end.

Definition backup_metadata (datetime_backup_requested : string) : string :=
  "Date Backup Requested: " +:+ datetime_backup_requested +:+ nl +:+
  "Model Name: " +:+ model_name E +:+ nl +:+
  "Application Name: " +:+ app_name E +:+ nl +:+
  "Unit Name: " +:+ unit_name E +:+ nl +:+
  "Juju Version: " +:+ juju_version E +:+ nl.

(** [_on_create_backup_action] *)
Definition _on_create_backup_action : M unit :=
  w <~ get_world;;
  '(can_unit_perform_backup, validation_message) <~ lift (_can_unit_perform_backup w);;
  if negb can_unit_perform_backup then
    emit (EvFail (default "None" validation_message))
  else
    '(s3_parameters, _) <~ lift _retrieve_s3_parameters;;
    datetime_backup_requested <~
      lift (or_ValueError (strftime (now E (log w)) "%Y-%m-%dT%H:%M:%SZ"));;
    let metadata := backup_metadata datetime_backup_requested in
    path <~ lift (getitem s3_parameters "path" ≫= as_path);;
    uploaded <~ _upload_content_to_s3 metadata
                  (PyStr.path_join path ("backup/" +:+ stanza_name +:+ "/latest"))
                  s3_parameters;;
    if negb uploaded then emit (EvFail "Failed to upload metadata to provided S3")
    else
      _ <~ (if negb (is_primary E) then _change_connectivity_to_database false
            else ret tt);;
      _ <~ set_status (MaintenanceStatus "creating backup");;
      _ <~ emit (EvUpdateConfig true);;
      _ <~ _run_backup s3_parameters datetime_backup_requested;;
      _ <~ (if negb (is_primary E) then _change_connectivity_to_database true
            else ret tt);;
      _ <~ emit (EvUpdateConfig false);;
      set_status ActiveStatus.

(** [_restart_database] *)
Definition _restart_database : M unit :=
  _ <~ app_peer_update [("restoring-backup", "")];;
  _ <~ emit (EvUpdateConfig false);;
  emit EvStartPatroni.

(** [_pre_restore_checks] *)
Definition _pre_restore_checks : M bool :=
  '(are_backup_settings_ok, validation_message) <~ lift _are_backup_settings_ok;;
  if negb are_backup_settings_ok then
    _ <~ emit (EvFail (default "None" validation_message));; ret false
  else
    match action_backup_id E with
    | None | Some "" =>
        _ <~ emit (EvFail "Missing backup-id to restore");; ret false
    | Some _ =>
        w <~ get_world;;
        if is_blocked w
           && negb (String.eqb (status_message (unit_status w))
                               ANOTHER_CLUSTER_REPOSITORY_ERROR_MESSAGE)
        then _ <~ emit (EvFail "Cluster or unit is in a blocking state");; ret false
        else if (1 <? planned_units E)%nat then
          _ <~ emit (EvFail "Unit cannot restore backup as there are more than one unit in the cluster");;
          ret false
        else if negb (is_leader E) then
          _ <~ emit (EvFail "Unit cannot restore backup as it was not elected the leader unit yet");;
          ret false
        else ret true
    end.

Definition remove_cluster_command : list string :=
  ["charmed-postgresql.patronictl"; "-c"; PATRONI_CONF_PATH K +:+ "/patroni.yaml";
   "remove"; cluster_name E].

(** [_on_restore_action] *)
Definition _on_restore_action : M unit :=
  checked <~ _pre_restore_checks;;
  if negb checked then ret tt
  else
    let backup_id := default "None" (action_backup_id E) in
    listed <~ catch_ListBackupsError (_list_backups false);;
    match listed with
    | None => emit (EvFail "Failed to retrieve backup id")
    | Some backups =>
        if negb (od_mem backup_id backups) then
          emit (EvFail ("Invalid backup-id: " +:+ backup_id))
        else
          _ <~ set_status (MaintenanceStatus "restoring backup");;
          w <~ get_world;;
          let stopped := stop_patroni_ok E (log w) in
          _ <~ emit (EvStopPatroni stopped);;
          if negb stopped then emit (EvFail "Failed to stop database service")
          else
            emptied <~ _empty_data_files;;
            if negb emptied then
              _ <~ emit (EvFail "Failed to remove contents of the data directory");;
              _restart_database
            else
              restoring_backup <~ lift (or_ValueError (restore_label backup_id));;
              restore_stanza <~
                match od_get backup_id backups with
                | Some s => ret s
                | None => raise (KeyError backup_id)
                end;;
              _ <~ app_peer_update [("restoring-backup", restoring_backup);
                                    ("restore-stanza", restore_stanza)];;
              _ <~ emit (EvUpdateConfig false);;
              _ <~ emit EvStartPatroni;;
              '(return_code, _, stderr) <~
                _execute_command remove_cluster_command
                  (Some (cluster_name E +:+ nl +:+ "Yes I am aware")) (Some 10%nat);;
              if negb (return_code =? 0) then
                emit (EvFail ("Failed to remove previous cluster information with error: "
                              +:+ stderr))
              else emit (EvSetResults "restore-status" "restore started")
    end.

End Backups.

(** ** Vocabulary of the statements *)

(** The value of a directive in a [datetime]. *)
Definition directive_value (d : directive) (dt : datetime) : nat :=
  match d with
  | DY => year dt | Dm => month dt | Dd => day dt
  | DH => hour dt | DM => minute dt | DS => second dt
  end.

(** The groups a format captures from what it printed. *)
Fixpoint printed_captures (its : list fmt_item) (dt : datetime) : captures :=
  match its with
  | [] => []
  | FLit _ :: its' => printed_captures its' dt
  | FDir d :: its' => (d, print_directive d dt) :: printed_captures its' dt
  end.

Definition has_directive (d : directive) (its : list fmt_item) : bool :=
  existsb (fun i => match i with FDir d' => directive_eqb d d' | FLit _ => false end) its.

(** A format that names the six fields of a timestamp, so that no field is
    lost in printing. *)
Definition complete_format (f : string) : bool :=
  match parse_format f with
  | Some its => forallb (fun d => has_directive d its) [DY; Dm; Dd; DH; DM; DS]
  | None => false
  end.

(** The range of each field in a valid [datetime] (the day by its widest
    month). *)
Definition in_range (d : directive) (v : nat) : bool :=
  match d with
  | DY => (v <=? MAXYEAR)%nat
  | Dm => ((1 <=? v) && (v <=? 12))%nat
  | Dd => ((1 <=? v) && (v <=? 31))%nat
  | DH => (v <=? 23)%nat
  | DM | DS => (v <=? 59)%nat
  end.

(** The [constants] module is not among the sources, so the methods take
    its values as the parameter [K].  This instance is used for the worked
    examples: the two timestamp formats are the ones the program itself
    spells out, in [_on_create_backup_action] for the time a backup was
    requested and (with the type suffix) in [_run_backup] for a label made
    up after a failure; the other values are sample paths. *)
Definition sample_constants : constants :=
  {| BACKUP_ID_FORMAT := "%Y-%m-%dT%H:%M:%SZ";
     PGBACKREST_BACKUP_ID_FORMAT := "%Y%m%d-%H%M%S";
     PGBACKREST_EXECUTABLE := "charmed-postgresql.pgbackrest";
     PGBACKREST_CONFIGURATION_FILE := "--config=/etc/pgbackrest/pgbackrest.conf";
     PGBACKREST_CONF_PATH := "/etc/pgbackrest";
     PATRONI_CONF_PATH := "/etc/patroni";
     POSTGRESQL_DATA_PATH := "/var/lib/postgresql" |}.

(** The timestamp an engine label bears: [strptime(label[:-1],
    PGBACKREST_BACKUP_ID_FORMAT)]. *)
Definition label_timestamp (K : constants) (lbl : string) : option datetime :=
  strptime (PyStr.drop_last lbl) (PGBACKREST_BACKUP_ID_FORMAT K).

(** The backups of the repository the listing reads (the first one). *)
Definition catalog_entries (repositories : list repository) : list backup_entry :=
  match repositories with
  | [] => []
  | repository_info :: _ => backup repository_info
  end.

(** A catalog with a finished full backup, a failed one and a finished
    backup whose label ends in the suffix of a differential one. *)
Definition sample_catalog : list repository :=
  [ {| name := "prod.postgresql";
       backup := [ {| label := "20230101-000000F"; error := PyBool false |};
                   {| label := "20230102-101500F"; error := PyStr "backup aborted" |};
                   {| label := "20230103-235959D"; error := PyNone |} ] |} ].

(** A catalog whose only backup bears a label of the year 999. *)
Definition ancient_catalog : list repository :=
  [ {| name := "prod.postgresql";
       backup := [ {| label := "09990101-000000F"; error := PyNone |} ] |} ].

(** A complete set of S3 parameters as the relation gives them. *)
Definition sample_s3_info : gmap string pyval :=
  <["bucket" := PyStr "backups"]>
    (<["access-key" := PyStr "AKIA"]>
       (<["secret-key" := PyStr "secret"]>
          (<["path" := PyStr "/postgresql/"]> ∅))).

(** A single-unit cluster whose unit is leader and primary, with TLS and no
    peers.  The answers of the engine, of the object store and the action
    parameter are arguments: [exec_rc] gives the exit code of a command,
    [uploads_ok] the fate of every upload. *)
Definition sample_env (exec_rc : list string -> Z) (uploads_ok : bool)
    (backup_id : option string) (s3_info : gmap string pyval) : env :=
  {| model_name := "prod";
     app_name := "postgresql";
     unit_name := "postgresql/0";
     cluster_name := "postgresql";
     juju_version := "2.9.42";
     is_leader := true;
     is_primary := true;
     unit_is_patroni_primary := true;
     planned_units := 1;
     is_tls_enabled := true;
     peer_members_ips := ["10.0.0.2"];
     primary_endpoint := Some "10.0.0.1";
     s3_relation_exists := true;
     s3_connection_info := s3_info;
     snap_present := true;
     action_backup_id := backup_id;
     member_started := fun _ => true;
     exec := fun _ cmd _ => (exec_rc cmd, "catalog", "engine error");
     exec_exceeds := fun _ _ _ => false;
     json_loads := fun _ => Some sample_catalog;
     upload_ok := fun _ _ _ _ => uploads_ok;
     stop_patroni_ok := fun _ => true;
     data_dir_exists := fun _ => true;
     rmtree_ok := fun _ => true;
     now := fun _ => mkDatetime 2023 1 4 12 0 0 |}.

(** A unit that is active, with empty peer data and nothing done yet. *)
Definition sample_world : world :=
  {| app_peer_data := ∅; unit_peer_data := ∅;
     unit_status := ActiveStatus; log := [] |}.

(** The events after the log [before] in the log [after]. *)
Definition events_since (before after : world) : list event :=
  drop (length (log before)) (log after).

(** A string without white space at either end. *)
Definition trimmed (s : string) : bool := String.eqb (PyStr.strip s) s.

(** No white space stands next to a slash in the string. *)
Fixpoint no_space_by_slash (s : string) : bool :=
  match s with
  | String a (String b _ as s') =>
      negb (PyStr.is_slash a && PyStr.is_space b)
      && negb (PyStr.is_space a && PyStr.is_slash b)
      && no_space_by_slash s'
  | _ => true
  end.

(** The value under a key is a string, or the key is absent. *)
Definition str_or_absent (d : gmap string pyval) (k : string) : Prop :=
  match d !! k with
  | Some (PyStr _) | None => True
  | Some _ => False
  end.

(** The string under a key, or a default. *)
Definition raw_str (d : gmap string pyval) (k dflt : string) : string :=
  match d !! k with
  | Some (PyStr s) => s
  | _ => dflt
  end.

(** The required parameters only: the path is left to its default. *)
Definition s3_info_without_path : gmap string pyval :=
  <["bucket" := PyStr "backups"]>
    (<["access-key" := PyStr "AKIA"]> (<["secret-key" := PyStr "secret"]> ∅)).

(** A bucket name with a blank before its trailing slash. *)
Definition s3_info_spaced_bucket : gmap string pyval :=
  <["bucket" := PyStr "backups /"]>
    (<["access-key" := PyStr "AKIA"]> (<["secret-key" := PyStr "secret"]> ∅)).

(** The world after some more events. *)
Definition extend_log (w : world) (new : list event) : world :=
  mkWorld (app_peer_data w) (unit_peer_data w) (unit_status w) (log w ++ new).

(** The exit codes of the runs of a command in a log, in order. *)
Definition exec_codes (cmd : list string) (l : list event) : list Z :=
  omap (fun e => match e with
                 | EvExec c _ rc => if decide (c = cmd) then Some rc else None
                 | _ => None
                 end) l.

(** The delays slept in a log, in order. *)
Definition sleeps (l : list event) : list nat :=
  omap (fun e => match e with EvSleep n => Some n | _ => None end) l.

(** The events of the rollback of [check_stanza], up to its last step. *)
Definition stanza_rollback : list event :=
  [EvAppPeerUpdate [("stanza", "")]; EvAppPeerPop "init-pgbackrest";
   EvUpdateConfig false;
   EvSetStatus (BlockedStatus FAILED_TO_INITIALIZE_STANZA_ERROR_MESSAGE);
   EvAppPeerPop "init-pgbackrest"].

(** A world in which a stanza waits for its check. *)
Definition pending_world : world :=
  {| app_peer_data := <["stanza" := "prod.postgresql"]> (<["init-pgbackrest" := "True"]> ∅);
     unit_peer_data := ∅;
     unit_status := ActiveStatus; log := [] |}.

(** What a run of the retry loop over a command leaves in the log: between
    one and [n] runs, a sleep of three seconds after each run but the last,
    and either a run that exits 0 after failed ones, or [n] failed runs. *)
Definition retry_outcome (cmd : list string) (n : nat) (ok : bool) (new : list event)
    : Prop :=
  let rcs := exec_codes cmd new in
  (1 <= length rcs <= n)%nat
  /\ sleeps new = replicate (length rcs - 1) 3%nat
  /\ if ok then exists failed, rcs = failed ++ [0] /\ Forall (fun rc => rc <> 0) failed
     else length rcs = n /\ Forall (fun rc => rc <> 0) rcs.

(** An event matching [p] occurs in the log before one matching [q]. *)
Fixpoint event_before (p q : event -> bool) (l : list event) : bool :=
  match l with
  | [] => false
  | e :: l' => p e && existsb q l' || event_before p q l'
  end.

Definition is_stanza_record (e : event) : bool :=
  match e with
  | EvAppPeerUpdate kvs => bool_decide ("stanza" ∈ kvs.*1)
  | _ => false
  end.

Definition is_service_restart (e : event) : bool :=
  match e with
  | EvSnapRestart => true
  | _ => false
  end.

(** The ping of the TLS service of the primary in
    [_is_primary_pgbackrest_service_running]. *)
Definition server_ping_command (K : constants) (endpoint : string) : list string :=
  [PGBACKREST_EXECUTABLE K; "server-ping"; "--io-timeout=10"; endpoint].

(** The events of [start_stop_pgbackrest_service]. *)
Definition is_service_event (e : event) : bool :=
  match e with
  | EvRenderFile _ | EvSnapStop | EvSnapRestart | EvExec _ _ _ => true
  | _ => false
  end.

(** The label made up from the clock when the engine printed none. *)
Definition label_of_now (dt : datetime) : string :=
  print_items [FDir DY; FDir Dm; FDir Dd; FLit "-"; FDir DH; FDir DM; FDir DS; FLit "F"] dt.

(** The backup id under which the log of a failed run is stored. *)
Definition failed_backup_id (E : env) (stdout : string) (l : list event) : string :=
  match find_backup_label stdout with
  | Some lbl => lbl
  | None => label_of_now (now E l)
  end.

(** ** The other methods of [PostgreSQLBackups] *)

(** [str(v)], as an f-string prints a value. *)
Definition py_str (v : pyval) : string :=
  match v with
  | PyNone => "None"
  | PyBool true => "True"
  | PyBool false => "False"
  | PyInt n => NilZero.string_of_int (Z.to_int n)
  | PyStr s => s
  | PyList l => repr_list l
  end.

(** [n] copies of a character. *)
Fixpoint repeat_char (c : ascii) (n : nat) : string :=
  match n with
  | O => EmptyString
  | S n' => String c (repeat_char c n')
  end.

(** ["{:<ns}".format(s)]: left-justified in a field of [n] characters,
    never cut. *)
Definition ljust (n : nat) (s : string) : string :=
  s +:+ repeat_char " " (n - String.length s).

(** ["{:<21s} | {:<12s} | {:s}".format(a, b, c)] *)
Definition format_row (a b c : string) : string :=
  ljust 21 a +:+ " | " +:+ ljust 12 b +:+ " | " +:+ c.

(** ["\n".join(lines)] *)
Fixpoint join_lines (lines : list string) : string :=
  match lines with
  | [] => ""
  | [x] => x
  | x :: rest => x +:+ nl +:+ join_lines rest
  end.

(** [_format_backup_list] *)
Definition _format_backup_list (backup_list : list (string * string * string)) : string :=
  let header := format_row "backup-id" "backup-type" "backup-status" in
  let backups :=
    [header; repeat_char "-" (String.length header)]
    ++ map (fun '(backup_id, backup_type, backup_status) =>
              format_row backup_id backup_type backup_status) backup_list in
  join_lines backups.

(** [s.split()[0]]: the first run of characters that are not white space,
    [None] for the [IndexError] of a blank string. *)
Fixpoint take_token (s : string) : string :=
  match s with
  | EmptyString => EmptyString
  | String c s' => if PyStr.is_space c then EmptyString else String c (take_token s')
  end.

Definition first_token (s : string) : option string :=
  match PyStr.lstrip_by PyStr.is_space s with
  | EmptyString => None
  | t => Some (take_token t)
  end.

(** [except ListBackupsError as e] around a call, keeping [str(e)]. *)
Definition catch_ListBackupsError_message {A} (m : M A) : M (A + string) :=
  fun w =>
    match m w with
    | (Ok a, w') => (Ok (inl a), w')
    | (Raise (ListBackupsError msg), w') => (Ok (inr msg), w')
    | (Raise e, w') => (Raise e, w')
    end.

(** [except TimeoutExpired: raise TimeoutError] around a call. *)
Definition timeout_as_TimeoutError {A} (m : M A) : M A :=
  fun w =>
    match m w with
    | (Raise TimeoutExpired, w') => (Raise TimeoutError, w')
    | r => r
    end.

(** [endpoint.split("://")[0]]: the text before the first ["://"], the whole
    text when there is none. *)
Fixpoint before_scheme_separator (s : string) : string :=
  match s with
  | EmptyString => EmptyString
  | String c s' =>
      if PyStr.startswith "://" s then EmptyString
      else String c (before_scheme_separator s')
  end.

(** [s.endswith(suffix)] *)
Fixpoint endswith (suffix s : string) : bool :=
  String.eqb suffix s
  || match s with
     | EmptyString => false
     | String _ s' => endswith suffix s'
     end.

Section MoreBackups.

Variable K : constants.
Variable E : env.
(* resolver.construct_endpoint("s3", region): the dnsSuffix and the hostname
   of the endpoint data, if any *)
Variable construct_endpoint : pyval -> option (string * string).

(** [_construct_endpoint] *)
Definition _construct_endpoint (s3_parameters : gmap string pyval) : result pyval :=
  endpoint ← getitem s3_parameters "endpoint";
  region ← getitem s3_parameters "region";
  match construct_endpoint region with
  | Some (dnsSuffix, hostname) =>
      text ← str_method id endpoint;
      if endswith dnsSuffix text
      then Ok (PyStr (before_scheme_separator text +:+ "://" +:+ hostname))
      else Ok endpoint
  | None => Ok endpoint
  end.

(** The rows of [_generate_backup_list_output], up to the first label that
    [strptime] rejects. *)
Fixpoint backup_rows (backups : list backup_entry)
    : result (list (string * string * string)) :=
  match backups with
  | [] => Ok []
  | b :: backups' =>
      backup_id ← or_ValueError (backup_id_of_label K (label b));
      let backup_status :=
        if truthy (error b) then "failed: " +:+ py_str (error b) else "finished" in
      rest ← backup_rows backups';
      Ok ((backup_id, "physical", backup_status) :: rest)
  end.

(** [_generate_backup_list_output] *)
Definition _generate_backup_list_output : M string :=
  '(return_code, output, stderr) <~ _execute_command E (info_command K) None None;;
  if negb (return_code =? 0) then
    raise (ListBackupsError ("Failed to list backups with error: " +:+ stderr))
  else
    match json_loads E output with
    | None => raise JSONDecodeError
    | Some [] => raise IndexError
    | Some (repository_info :: _) =>
        backup_list <~ lift (backup_rows (backup repository_info));;
        ret (_format_backup_list backup_list)
    end.

(** [_on_list_backups_action] *)
Definition _on_list_backups_action : M unit :=
  '(are_backup_settings_ok, validation_message) <~ lift (_are_backup_settings_ok E);;
  if negb are_backup_settings_ok then
    emit (EvFail (default "None" validation_message))
  else
    listed <~ catch_ListBackupsError_message _generate_backup_list_output;;
    match listed with
    | inl formatted_list => emit (EvSetResults "backups" formatted_list)
    | inr message =>
        emit (EvFail ("Failed to list PostgreSQL backups with error: " +:+ message))
    end.

(** [can_use_s3_repository] *)
Definition can_use_s3_repository : M (bool * option string) :=
  '(return_code, stdout, stderr) <~
    timeout_as_TimeoutError (_execute_command E (info_command K) None (Some 30%nat));;
  if negb (return_code =? 0) then
    ret (false, Some FAILED_TO_INITIALIZE_STANZA_ERROR_MESSAGE)
  else if is_leader E then
    match json_loads E stdout with
    | None => raise JSONDecodeError
    | Some repositories =>
        w <~ get_world;;
        let expected := default (stanza_name E) (app_peer_data w !! "stanza") in
        match find (fun stanza => negb (String.eqb (name stanza) expected)) repositories with
        | Some _ =>
            _ <~ app_peer_update [("stanza", "")];;
            _ <~ emit (EvUpdateConfig false);;
            w' <~ get_world;;
            _ <~ (if member_started E (log w') then emit EvReloadPatroni else ret tt);;
            ret (false, Some ANOTHER_CLUSTER_REPOSITORY_ERROR_MESSAGE)
        | None => ret (true, None)
        end
    end
  else ret (true, None).

(** [_on_s3_credential_gone] *)
Definition _on_s3_credential_gone : M unit :=
  w <~ get_world;;
  if is_blocked w
     && bool_decide (status_message (unit_status w) ∈ S3_BLOCK_MESSAGES)
  then set_status ActiveStatus
  else ret tt.

End MoreBackups.

(** No character of the string is white space. *)
Fixpoint no_space (s : string) : bool :=
  match s with
  | EmptyString => true
  | String c s' => negb (PyStr.is_space c) && no_space s'
  end.

(** The status column of a row of the table. *)
Definition backup_status_of (b : backup_entry) : string :=
  if truthy (error b) then "failed: " +:+ py_str (error b) else "finished".

(** The reports of an action: [event.fail] and [event.set_results]. *)
Definition is_report (e : event) : bool :=
  match e with
  | EvFail _ | EvSetResults _ _ => true
  | _ => false
  end.

Definition reports (l : list event) : list event :=
  filter (fun e => is_report e = true) l.

(** A computation that leaves the peer data and the status as they are. *)
Definition logs_only {A} (m : M A) : Prop :=
  forall w, exists new, (m w).2 = extend_log w new.

(** A computation that reports nothing to the action. *)
Definition quiet {A} (m : M A) : Prop :=
  forall w, exists new, log (m w).2 = log w ++ new /\ reports new = [].

(** A computation that reports at most once, and once when it returns. *)
Definition reports_once {A} (m : M A) : Prop :=
  forall w, exists new,
    log (m w).2 = log w ++ new
    /\ (length (reports new) <= 1)%nat
    /\ (forall a, (m w).1 = Ok a -> length (reports new) = 1%nat).

(** The time of the request as the backup action prints it. *)
Definition requested_at (dt : datetime) : string :=
  print_items [FDir DY; FLit "-"; FDir Dm; FLit "-"; FDir Dd; FLit "T";
               FDir DH; FLit ":"; FDir DM; FLit ":"; FDir DS; FLit "Z"] dt.

(** A replica of a cluster of three units, with complete S3 settings; the
    engine exits with 0 and its catalog decodes to [catalog]. *)
Definition sample_replica_env (catalog : list repository) : env :=
  {| model_name := "prod";
     app_name := "postgresql";
     unit_name := "postgresql/1";
     cluster_name := "postgresql";
     juju_version := "2.9.42";
     is_leader := false;
     is_primary := false;
     unit_is_patroni_primary := false;
     planned_units := 3;
     is_tls_enabled := true;
     peer_members_ips := ["10.0.0.1"; "10.0.0.3"];
     primary_endpoint := Some "10.0.0.1";
     s3_relation_exists := true;
     s3_connection_info := sample_s3_info;
     snap_present := true;
     action_backup_id := None;
     member_started := fun _ => true;
     exec := fun _ _ _ => (0, "catalog", "");
     exec_exceeds := fun _ _ _ => false;
     json_loads := fun _ => Some catalog;
     upload_ok := fun _ _ _ _ => true;
     stop_patroni_ok := fun _ => true;
     data_dir_exists := fun _ => true;
     rmtree_ok := fun _ => true;
     now := fun _ => mkDatetime 2023 1 4 12 0 0 |}.

(** A replica with TLS whose cluster has an initialised stanza. *)
Definition sample_replica_world : world :=
  {| app_peer_data := <["stanza" := "prod.postgresql"]> ∅;
     unit_peer_data := <["tls" := "enabled"]> ∅;
     unit_status := ActiveStatus; log := [] |}.

(** The steps of a restore in the log. *)
Definition is_database_stop (e : event) : bool :=
  match e with
  | EvStopPatroni true => true
  | _ => false
  end.

Definition is_data_removal (e : event) : bool :=
  match e with
  | EvRemoveDataDir _ => true
  | _ => false
  end.

Definition is_database_start (e : event) : bool :=
  match e with
  | EvStartPatroni => true
  | _ => false
  end.

Definition is_restore_record (e : event) : bool :=
  match e with
  | EvAppPeerUpdate kvs => bool_decide ("restoring-backup" ∈ kvs.*1)
  | _ => false
  end.

Definition is_command (e : event) : bool :=
  match e with
  | EvExec _ (Some _) _ | EvExecTimedOut _ => true
  | _ => false
  end.

(** Every character of the string is one of [0-9]. *)
Fixpoint all_digits (s : string) : bool :=
  match s with
  | EmptyString => true
  | String c s' => bool_decide (is_Some (digit_val c)) && all_digits s'
  end.

(** A label of the shape [[0-9]{8}-[0-9]{6}F]. *)
Definition full_backup_label (l : string) : Prop :=
  exists d8 d6,
    l = d8 +:+ "-" +:+ d6 +:+ "F"
    /\ String.length d8 = 8%nat /\ String.length d6 = 6%nat
    /\ all_digits d8 = true /\ all_digits d6 = true.

(** * Properties *)

(** ** Timestamps: printing and reading back *)

Lemma digit_char_val n : digit_val (digit_char n) = Some (n mod 10)%nat.
Proof.
  unfold digit_char. pose proof (Nat.mod_upper_bound n 10 ltac:(lia)) as H.
  destruct (n mod 10)%nat as [|[|[|[|[|[|[|[|[|[|m]]]]]]]]]]; try reflexivity; lia.
Qed.

Lemma digit_char_not_space n : PyStr.is_space (digit_char n) = false.
Proof.
  unfold digit_char. pose proof (Nat.mod_upper_bound n 10 ltac:(lia)) as H.
  destruct (n mod 10)%nat as [|[|[|[|[|[|[|[|[|[|m]]]]]]]]]]; try reflexivity; lia.
Qed.

Lemma four_digits y :
  (y <= MAXYEAR)%nat ->
  ((((y / 1000) mod 10 * 10 + (y / 100) mod 10) * 10 + (y / 10) mod 10) * 10
   + y mod 10 = y)%nat.
Proof.
  unfold MAXYEAR. intros Hy.
  pose proof (Nat.div_mod_eq y 10) as H0.
  pose proof (Nat.div_mod_eq (y / 10) 10) as H1.
  pose proof (Nat.div_mod_eq (y / 100) 10) as H2.
  pose proof (Nat.Div0.div_div y 10 10) as E1. change (10 * 10)%nat with 100%nat in E1.
  pose proof (Nat.Div0.div_div y 100 10) as E2. change (100 * 10)%nat with 1000%nat in E2.
  assert (y / 1000 < 10)%nat as Ha by (apply Nat.Div0.div_lt_upper_bound; lia).
  rewrite (Nat.mod_small (y / 1000) 10 Ha).
  rewrite E1 in H1. rewrite E2 in H2. lia.
Qed.

(** From the year 1000 on, the digits of the year are four. *)
Lemma print_year_table :
  forallb (fun y => String.eqb (print_year y) (pad4 y)) (seq 1000 (MAXYEAR - 999)) = true.
Proof. vm_compute. reflexivity. Qed.

Lemma print_year_four_digits y :
  (1000 <= y)%nat -> (y <= MAXYEAR)%nat -> print_year y = pad4 y.
Proof.
  intros Hy Hm. pose proof print_year_table as H.
  rewrite forallb_forall in H. apply String.eqb_eq, H, in_seq.
  unfold MAXYEAR in *. lia.
Qed.

Lemma valid_year dt : valid dt = true -> (year dt <= MAXYEAR)%nat.
Proof.
  unfold valid. intros H. repeat (apply andb_prop in H as [H ?]).
  by apply Nat.leb_le.
Qed.

Lemma two_digits v : (v < 100)%nat -> ((v / 10) mod 10 * 10 + v mod 10 = v)%nat.
Proof.
  intros Hv. pose proof (Nat.div_mod_eq v 10) as H0.
  assert (v / 10 < 10)%nat as Ha by (apply Nat.Div0.div_lt_upper_bound; lia).
  rewrite (Nat.mod_small _ _ Ha). lia.
Qed.

Lemma append_assoc' (a b c : string) : (a +:+ b) +:+ c = a +:+ (b +:+ c).
Proof.
  induction a as [|x a IH]; [reflexivity|].
  change (String x ((a +:+ b) +:+ c) = String x (a +:+ (b +:+ c))). by rewrite IH.
Qed.

Lemma digit_char_is_digit n : cclass_match CDigit (digit_char n) = true.
Proof. unfold cclass_match. rewrite digit_char_val. reflexivity. Qed.

Lemma strip_digits c s :
  PyStr.is_space c = false ->
  PyStr.rstrip_by PyStr.is_space s = s ->
  PyStr.rstrip_by PyStr.is_space (String c s) = String c s.
Proof.
  intros Hc Hs. cbn. rewrite Hs. destruct s; [by rewrite Hc | reflexivity].
Qed.

Lemma int_of_pad2 v : (v < 100)%nat -> int_of_string (pad2 v) = Some v.
Proof.
  intros Hv. unfold int_of_string, PyStr.strip, PyStr.strip_by, pad2.
  cbn [PyStr.lstrip_by]. rewrite digit_char_not_space.
  match goal with
  | |- context [PyStr.rstrip_by ?p ?s] =>
      replace (PyStr.rstrip_by p s) with s
        by (symmetry; repeat (apply strip_digits; [apply digit_char_not_space|]);
            reflexivity)
  end.
  cbn [int_digits]. rewrite !digit_char_val. cbn [int_digits].
  f_equal. pose proof (two_digits v Hv). lia.
Qed.

Lemma int_of_pad4 y : (y <= MAXYEAR)%nat -> int_of_string (pad4 y) = Some y.
Proof.
  intros Hy. unfold int_of_string, PyStr.strip, PyStr.strip_by, pad4.
  cbn [PyStr.lstrip_by]. rewrite digit_char_not_space.
  match goal with
  | |- context [PyStr.rstrip_by ?p ?s] =>
      replace (PyStr.rstrip_by p s) with s
        by (symmetry; repeat (apply strip_digits; [apply digit_char_not_space|]);
            reflexivity)
  end.
  cbn [int_digits]. rewrite !digit_char_val. cbn [int_digits].
  f_equal. pose proof (four_digits y Hy). lia.
Qed.

Lemma try_alts_year y s k :
  try_alts DY (alternatives DY) (pad4 y +:+ s) k =
  match k s with
  | Some (caps, r) => Some ((DY, pad4 y) :: caps, r)
  | None => None
  end.
Proof.
  unfold pad4, alternatives.
  change (try_alts DY [[CDigit; CDigit; CDigit; CDigit]]
            (String (digit_char (y / 1000)) (String (digit_char (y / 100))
              (String (digit_char (y / 10)) (String (digit_char y) s)))) k = 
          match k s with
          | Some (caps, r) => Some ((DY, pad4 y) :: caps, r)
          | None => None
          end).
  cbn [try_alts match_alt]. rewrite !digit_char_is_digit. reflexivity.
Qed.

Lemma try_alts_two_digits d v s k caps r :
  d <> DY ->
  in_range d v = true ->
  k s = Some (caps, r) ->
  try_alts d (alternatives d) (pad2 v +:+ s) k = Some ((d, pad2 v) :: caps, r).
Proof.
  intros Hd Hv Hk. destruct d; [congruence | | | | | ]; cbn [in_range] in Hv.
  - do 13 (destruct v as [|v]; [ try discriminate; vm_compute; rewrite Hk; reflexivity | ]). discriminate.
  - do 32 (destruct v as [|v]; [ try discriminate; vm_compute; rewrite Hk; reflexivity | ]). discriminate.
  - do 24 (destruct v as [|v]; [ try discriminate; vm_compute; rewrite Hk; reflexivity | ]). discriminate.
  - do 60 (destruct v as [|v]; [ try discriminate; vm_compute; rewrite Hk; reflexivity | ]). discriminate.
  - do 60 (destruct v as [|v]; [ try discriminate; vm_compute; rewrite Hk; reflexivity | ]). discriminate.
Qed.

Lemma valid_in_range dt d : valid dt = true -> in_range d (directive_value d dt) = true.
Proof.
  unfold valid, MINYEAR. intros H.
  repeat (apply andb_prop in H as [H ?]).
  assert (day dt <= 31)%nat.
  { assert (days_in_month (year dt) (month dt) <= 31)%nat.
    { unfold days_in_month.
      destruct (month dt) as [|[|[|[|[|[|[|[|[|[|[|[|?]]]]]]]]]]]];
        try destruct (is_leap _); lia. }
    apply Nat.leb_le in H3. lia. }
  destruct d; cbn [in_range directive_value];
    repeat (apply andb_true_intro; split); try assumption; apply Nat.leb_le; lia.
Qed.

Lemma print_directive_two_digits d dt :
  d <> DY -> print_directive d dt = pad2 (directive_value d dt).
Proof. by destruct d. Qed.

Lemma lower_eqb_refl c : Ascii.eqb (lower c) (lower c) = true.
Proof. apply Ascii.eqb_refl. Qed.

Lemma match_items_print its dt s :
  valid dt = true ->
  (1000 <= year dt)%nat ->
  match_items its (print_items its dt +:+ s) = Some (printed_captures its dt, s).
Proof.
  intros Hv Hy. induction its as [|[c|d] its IH].
  - reflexivity.
  - cbn [print_items printed_captures].
    change (String c (print_items its dt) +:+ s)
      with (String c (print_items its dt +:+ s)).
    cbn [match_items]. by rewrite lower_eqb_refl.
  - cbn [print_items printed_captures match_items]. rewrite append_assoc'.
    assert (d = DY \/ d <> DY) as [->|Hd]
      by (destruct d; (by left) || (by right)).
    + cbn [print_directive].
      rewrite (print_year_four_digits _ Hy (valid_year _ Hv)), try_alts_year, IH.
      reflexivity.
    + rewrite (print_directive_two_digits d dt Hd).
      apply try_alts_two_digits; [done | by apply valid_in_range | done].
Qed.

Lemma int_of_print_directive d dt :
  valid dt = true ->
  (1000 <= year dt)%nat ->
  int_of_string (print_directive d dt) = Some (directive_value d dt).
Proof.
  intros Hv Hy. pose proof (valid_in_range dt d Hv) as Hr.
  destruct d; cbn [print_directive directive_value in_range] in *.
  - rewrite (print_year_four_digits _ Hy (valid_year _ Hv)).
    apply int_of_pad4. by apply valid_year.
  - apply int_of_pad2. apply andb_prop in Hr as [_ Hr]. apply Nat.leb_le in Hr. lia.
  - apply int_of_pad2. apply andb_prop in Hr as [_ Hr]. apply Nat.leb_le in Hr. lia.
  - apply int_of_pad2. apply Nat.leb_le in Hr. lia.
  - apply int_of_pad2. apply Nat.leb_le in Hr. lia.
  - apply int_of_pad2. apply Nat.leb_le in Hr. lia.
Qed.

Lemma directive_eqb_eq a b : directive_eqb a b = true <-> a = b.
Proof. destruct a, b; cbn; split; congruence. Qed.

Lemma field_printed d dflt its dt :
  valid dt = true ->
  (1000 <= year dt)%nat ->
  has_directive d its = true ->
  field d dflt (printed_captures its dt) = Some (directive_value d dt).
Proof.
  intros Hv Hy. induction its as [|[c|d'] its IH]; cbn [has_directive existsb printed_captures field].
  - discriminate.
  - intros H. apply IH. exact H.
  - destruct (directive_eqb d d') eqn:He.
    + intros _. apply directive_eqb_eq in He as <-. by apply int_of_print_directive.
    + intros H. apply IH. exact H.
Qed.

Lemma append_empty_r (s : string) : s +:+ "" = s.
Proof.
  induction s as [|c s IH]; [reflexivity|].
  change (String c (s +:+ "") = String c s). by rewrite IH.
Qed.

(** Printing a valid timestamp of the year 1000 or later with a complete
    format and reading it back with the same format gives the timestamp. *)
Lemma strptime_strftime f dt :
  complete_format f = true ->
  valid dt = true ->
  (1000 <= year dt)%nat ->
  exists s, strftime dt f = Some s /\ strptime s f = Some dt.
Proof.
  unfold complete_format, strftime, strptime. intros Hc Hv Hy.
  destruct (parse_format f) as [its|]; [|discriminate].
  exists (print_items its dt). split; [reflexivity|].
  pose proof (match_items_print its dt "" Hv Hy) as Hm.
  rewrite append_empty_r in Hm. rewrite Hm.
  cbn [forallb] in Hc. repeat (apply andb_prop in Hc as [? Hc]).
  rewrite !field_printed by assumption.
  cbn [directive_value]. destruct dt. cbn in *. by rewrite Hv.
Qed.

Lemma strptime_valid s f dt : strptime s f = Some dt -> valid dt = true.
Proof.
  unfold strptime. intros H.
  repeat match type of H with
         | match ?x with _ => _ end = _ => destruct x eqn:?; try discriminate
         | (let (_, _) := ?x in _) = _ => destruct x eqn:?
         end.
  by simplify_eq.
Qed.

(** ** Ordered dictionaries *)

Lemma od_keys_od_set k v d k' :
  k' ∈ od_keys (od_set k v d) <-> k' = k \/ k' ∈ od_keys d.
Proof.
  unfold od_keys. induction d as [|[k0 v0] d IH]; cbn.
  - set_solver.
  - destruct (String.eqb k k0) eqn:He; cbn.
    + apply String.eqb_eq in He as ->. set_solver.
    + rewrite !elem_of_cons, IH. tauto.
Qed.

Lemma od_keys_foldl pairs d k :
  k ∈ od_keys (foldl (fun d p => od_set p.1 p.2 d) d pairs)
  <-> k ∈ od_keys d \/ k ∈ pairs.*1.
Proof.
  revert d. induction pairs as [|[k0 v0] pairs IH]; intros d; cbn.
  - set_solver.
  - rewrite IH, od_keys_od_set, elem_of_cons. tauto.
Qed.

Lemma od_keys_OrderedDict pairs k : k ∈ od_keys (OrderedDict pairs) <-> k ∈ pairs.*1.
Proof. unfold OrderedDict. rewrite od_keys_foldl. unfold od_keys. set_solver. Qed.

Lemma od_get_elem k v d : od_get k d = Some v -> (k, v) ∈ d.
Proof.
  induction d as [|[k0 v0] d IH]; cbn; [discriminate|].
  destruct (String.eqb k k0) eqn:He.
  - apply String.eqb_eq in He as ->. intros [= ->]. left.
  - intros H. right. by apply IH.
Qed.

Lemma od_get_key k d : k ∈ od_keys d -> is_Some (od_get k d).
Proof.
  unfold od_keys. induction d as [|[k0 v0] d IH]; cbn.
  - by intros ?%elem_of_nil.
  - destruct (String.eqb k k0) eqn:He; [eauto|].
    rewrite elem_of_cons. intros [->|H]; [|by apply IH].
    by rewrite String.eqb_refl in He.
Qed.

Lemma od_set_values v0 k d :
  Forall (fun p => p.2 = v0) d -> Forall (fun p => p.2 = v0) (od_set k v0 d).
Proof.
  induction 1 as [|[k0 v1] d Hx Hd IH]; cbn.
  - by constructor.
  - destruct (String.eqb k k0); constructor; auto.
Qed.

Lemma foldl_od_set_values v0 pairs d :
  Forall (fun p => p.2 = v0) d ->
  Forall (fun p => p.2 = v0) pairs ->
  Forall (fun p : string * string => p.2 = v0)
    (foldl (fun d p => od_set p.1 p.2 d) d pairs).
Proof.
  intros Hd Hp. revert d Hd.
  induction Hp as [|[k v] pairs Hx Hp IH]; intros d Hd; [exact Hd|].
  cbn in *. subst v. apply IH. by apply od_set_values.
Qed.

Lemma OrderedDict_values v0 pairs :
  Forall (fun p => p.2 = v0) pairs ->
  Forall (fun p => p.2 = v0) (OrderedDict pairs).
Proof. intros Hp. apply foldl_od_set_values; [constructor | exact Hp]. Qed.

(** With one value for all pairs, the dictionary maps exactly its keys to
    that value. *)
Lemma od_get_OrderedDict v0 pairs k v :
  Forall (fun p => p.2 = v0) pairs ->
  od_get k (OrderedDict pairs) = Some v <-> v = v0 /\ k ∈ pairs.*1.
Proof.
  intros Hp. split.
  - intros H. split.
    + apply od_get_elem in H. apply OrderedDict_values in Hp.
      rewrite Forall_forall in Hp. by apply (Hp (k, v)).
    + apply od_keys_OrderedDict. unfold od_keys. apply od_get_elem in H.
      apply list_elem_of_fmap. by exists (k, v).
  - intros [-> Hk]. apply od_keys_OrderedDict in Hk.
    destruct (od_get_key _ _ Hk) as [v Hv]. rewrite Hv. f_equal.
    apply od_get_elem in Hv. apply OrderedDict_values in Hp.
    rewrite Forall_forall in Hp. by apply (Hp (k, v)).
Qed.

(** ** The catalog listing *)

Lemma catalog_pairs_inv K stanza backups pairs :
  catalog_pairs K stanza backups = Ok pairs ->
  Forall2 (fun b p => backup_id_of_label K (label b) = Some p.1 /\ p.2 = stanza)
          backups pairs.
Proof.
  revert pairs. induction backups as [|b backups IH]; intros pairs; cbn.
  - intros [= <-]. constructor.
  - destruct (backup_id_of_label K (label b)) as [backup_id|] eqn:Hb; cbn; [|discriminate].
    destruct (catalog_pairs K stanza backups) as [rest|] eqn:Hr; cbn; [|discriminate].
    intros [= <-]. constructor; [done | by apply IH].
Qed.

Lemma catalog_pairs_total K stanza backups :
  Forall (fun b => is_Some (backup_id_of_label K (label b))) backups ->
  exists pairs, catalog_pairs K stanza backups = Ok pairs.
Proof.
  induction 1 as [|b backups [backup_id Hb] _ [rest Hr]]; cbn.
  - eauto.
  - rewrite Hb. cbn. rewrite Hr. cbn. eauto.
Qed.

Lemma catalog_pairs_keys K stanza backups pairs k :
  catalog_pairs K stanza backups = Ok pairs ->
  k ∈ pairs.*1 <-> exists b, b ∈ backups /\ backup_id_of_label K (label b) = Some k.
Proof.
  intros H%catalog_pairs_inv. induction H as [|b p backups pairs [Hb _] _ IH]; cbn.
  - split; [by intros ?%elem_of_nil | by intros (? & ?%elem_of_nil & _)].
  - rewrite elem_of_cons, IH. split.
    + intros [->|(b' & Hin & Hb')]; [exists b | exists b']; split; auto; by constructor.
    + intros (b' & Hin & Hb'). apply elem_of_cons in Hin as [->|Hin].
      * left. congruence.
      * right. eauto.
Qed.

Lemma catalog_pairs_values K stanza backups pairs :
  catalog_pairs K stanza backups = Ok pairs ->
  Forall (fun p => p.2 = stanza) pairs.
Proof.
  intros H%catalog_pairs_inv. induction H as [|b p backups pairs [_ Hp] _ IH];
    constructor; auto.
Qed.

Lemma selected_true backups : selected true backups = backups.
Proof.
  unfold selected. induction backups as [|b backups IH]; [reflexivity|].
  rewrite filter_cons_True by reflexivity. by rewrite IH.
Qed.

Lemma selected_false backups :
  selected false backups = filter (fun b => truthy (error b) = false) backups.
Proof.
  unfold selected. apply list_filter_iff. intros b. cbn.
  destruct (truthy (error b)); cbn; split; congruence.
Qed.

Lemma list_backups_of_keys K show_failed repositories d k :
  list_backups_of K show_failed repositories = Ok d ->
  k ∈ od_keys d <->
  exists b, b ∈ selected show_failed (catalog_entries repositories)
            /\ backup_id_of_label K (label b) = Some k.
Proof.
  unfold list_backups_of, catalog_entries.
  destruct repositories as [|repository_info ?].
  - intros [= <-]. split; [by intros ?%elem_of_nil | by intros (? & ?%elem_of_nil & _)].
  - destruct (catalog_pairs _ _ _) as [pairs|] eqn:Hp; cbn; [|discriminate].
    intros [= <-]. rewrite od_keys_OrderedDict. by eapply catalog_pairs_keys.
Qed.

Lemma list_backups_of_get K show_failed repositories d k v :
  list_backups_of K show_failed repositories = Ok d ->
  od_get k d = Some v ->
  k ∈ od_keys d /\ exists repository_info rest,
    repositories = repository_info :: rest /\ v = name repository_info.
Proof.
  unfold list_backups_of.
  destruct repositories as [|repository_info rest]; [by intros [= <-]|].
  destruct (catalog_pairs _ _ _) as [pairs|] eqn:Hp; cbn; [|discriminate].
  intros [= <-] Hg.
  apply (od_get_OrderedDict (name repository_info)) in Hg as [-> Hk];
    [|by eapply catalog_pairs_values].
  split; [by apply od_keys_OrderedDict | eauto].
Qed.

Lemma list_backups_of_get_key K show_failed repositories d k :
  list_backups_of K show_failed repositories = Ok d ->
  k ∈ od_keys d ->
  exists repository_info rest,
    repositories = repository_info :: rest /\ od_get k d = Some (name repository_info).
Proof.
  unfold list_backups_of.
  destruct repositories as [|repository_info rest]; [by intros [= <-] ?%elem_of_nil|].
  destruct (catalog_pairs _ _ _) as [pairs|] eqn:Hp; cbn; [|discriminate].
  intros [= <-] Hk. exists repository_info, rest. split; [done|].
  apply (od_get_OrderedDict (name repository_info)); [by eapply catalog_pairs_values|].
  split; [done | by apply od_keys_OrderedDict].
Qed.

(** C7.  For the same decoded output of the engine, the listing without the
    failed backups is contained in the listing with them (same keys, same
    values), and it omits exactly the entries whose error field is true in
    the sense of Python: the generator keeps every entry when [show_failed]
    is set and those with a false error field when it is not, so that a
    backup id is listed without the failed ones exactly when an entry
    without error has it. *)
Theorem catalog_without_failed_is_subset K repositories with_failed :
  list_backups_of K true repositories = Ok with_failed ->
  exists without_failed,
    list_backups_of K false repositories = Ok without_failed
    /\ (forall k v, od_get k without_failed = Some v -> od_get k with_failed = Some v)
    /\ (forall k, k ∈ od_keys without_failed -> k ∈ od_keys with_failed)
    /\ selected true (catalog_entries repositories) = catalog_entries repositories
    /\ selected false (catalog_entries repositories)
       = filter (fun b => truthy (error b) = false) (catalog_entries repositories)
    /\ (forall k, k ∈ od_keys with_failed <->
          exists b, b ∈ catalog_entries repositories
                    /\ backup_id_of_label K (label b) = Some k)
    /\ (forall k, k ∈ od_keys without_failed <->
          exists b, b ∈ catalog_entries repositories
                    /\ truthy (error b) = false
                    /\ backup_id_of_label K (label b) = Some k).
Proof.
  intros Ht.
  assert (exists without_failed, list_backups_of K false repositories = Ok without_failed)
    as [without_failed Hf].
  { unfold list_backups_of in *. destruct repositories as [|r rest]; [eauto|].
    destruct (catalog_pairs K (name r) (selected true (backup r))) as [pairs|] eqn:Hp;
      [|discriminate].
    destruct (catalog_pairs_total K (name r) (selected false (backup r))) as [ps ->];
      [|cbn; eauto].
    apply catalog_pairs_inv in Hp. rewrite selected_true in Hp.
    rewrite selected_false. apply Forall_forall. intros b [_ Hb]%list_elem_of_filter.
    apply list_elem_of_lookup in Hb as [i Hi].
    destruct (Forall2_lookup_l _ _ _ _ _ Hp Hi) as (p & _ & Hid & _). eauto. }
  assert (forall k, k ∈ od_keys without_failed -> k ∈ od_keys with_failed) as Hsub.
  { intros k. rewrite (list_backups_of_keys _ _ _ _ _ Hf),
      (list_backups_of_keys _ _ _ _ _ Ht), selected_true, selected_false.
    intros (b & [_ Hb]%list_elem_of_filter & Hid). eauto. }
  exists without_failed. split; [exact Hf|]. split; [|split; [exact Hsub|]].
  - intros k v Hg.
    destruct (list_backups_of_get _ _ _ _ _ _ Hf Hg) as (Hk & r & rest & -> & ->).
    destruct (list_backups_of_get_key _ _ _ _ _ Ht (Hsub _ Hk)) as (r' & rest' & [= <- <-] & ->).
    reflexivity.
  - split; [apply selected_true|]. split; [apply selected_false|]. split.
    + intros k. rewrite (list_backups_of_keys _ _ _ _ _ Ht), selected_true. reflexivity.
    + intros k. rewrite (list_backups_of_keys _ _ _ _ _ Hf), selected_false. split.
      * intros (b & [He Hb]%list_elem_of_filter & Hid). eauto.
      * intros (b & Hb & He & Hid). exists b. split; [|done].
        apply list_elem_of_filter. done.
Qed.

Lemma catalog_without_failed_is_subset_witness :
  exists without_failed,
    list_backups_of sample_constants false sample_catalog = Ok without_failed
    /\ od_keys without_failed = ["2023-01-01T00:00:00Z"; "2023-01-03T23:59:59Z"]
    /\ forall k, k ∈ od_keys without_failed ->
         k ∈ ["2023-01-01T00:00:00Z"; "2023-01-02T10:15:00Z"; "2023-01-03T23:59:59Z"].
Proof.
  destruct (catalog_without_failed_is_subset sample_constants sample_catalog
              [("2023-01-01T00:00:00Z", "prod.postgresql");
               ("2023-01-02T10:15:00Z", "prod.postgresql");
               ("2023-01-03T23:59:59Z", "prod.postgresql")])
    as (without_failed & Hf & _ & Hsub & _).
  - vm_compute. reflexivity.
  - exists without_failed. split; [exact Hf|]. split; [|exact Hsub].
    vm_compute in Hf. by injection Hf as <-.
Defined.

Lemma _list_backups_inv K E show_failed w d w' :
  _list_backups K E show_failed w = (Ok d, w') ->
  exists output repositories,
    (exec E (log w) (info_command K) None).1.2 = output
    /\ (exec E (log w) (info_command K) None).1.1 = 0
    /\ json_loads E output = Some repositories
    /\ list_backups_of K show_failed repositories = Ok d
    /\ w' = mkWorld (app_peer_data w) (unit_peer_data w) (unit_status w)
              (log w ++ [EvExec (info_command K) None 0]).
Proof.
  unfold _list_backups, _execute_command, bind, get_world, emit, ret, raise, lift.
  cbn. destruct (exec E (log w) (info_command K) None) as [[return_code output] stderr].
  cbn. destruct (return_code =? 0) eqn:Hrc; cbn; [|discriminate].
  apply Z.eqb_eq in Hrc as ->.
  destruct (json_loads E output) as [repositories|] eqn:Hj; [|discriminate].
  destruct (list_backups_of K show_failed repositories) as [d'|] eqn:Hl; [|discriminate].
  intros [= <- <-]. exists output, repositories. done.
Qed.

Lemma drop_last_append_char s c : PyStr.drop_last (s +:+ String c "") = s.
Proof.
  induction s as [|x s IH]; [reflexivity|].
  change (PyStr.drop_last (String x (s +:+ String c "")) = String x s).
  cbn [PyStr.drop_last]. rewrite IH. destruct s; reflexivity.
Qed.

(** A complete format prints every timestamp. *)
Lemma strftime_complete f dt :
  complete_format f = true -> is_Some (strftime dt f).
Proof.
  unfold complete_format, strftime. destruct (parse_format f); [eauto|discriminate].
Qed.

(** A backup id that comes from a label is the print of the timestamp the
    label bears; when the year of the timestamp has four digits both
    formats read their prints of it back. *)
Lemma backup_id_of_label_round_trip K lbl backup_id :
  complete_format (BACKUP_ID_FORMAT K) = true ->
  complete_format (PGBACKREST_BACKUP_ID_FORMAT K) = true ->
  backup_id_of_label K lbl = Some backup_id ->
  exists dt,
    label_timestamp K lbl = Some dt
    /\ valid dt = true
    /\ strftime dt (BACKUP_ID_FORMAT K) = Some backup_id
    /\ ((1000 <= year dt)%nat ->
        exists ts,
          strptime backup_id (BACKUP_ID_FORMAT K) = Some dt
          /\ strftime dt (PGBACKREST_BACKUP_ID_FORMAT K) = Some ts
          /\ strptime ts (PGBACKREST_BACKUP_ID_FORMAT K) = Some dt).
Proof.
  intros Hb Hp. unfold backup_id_of_label, label_timestamp.
  destruct (strptime _ _) as [dt|] eqn:Hdt; cbn; [|discriminate]. intros Hid.
  pose proof (strptime_valid _ _ _ Hdt) as Hv.
  exists dt. split; [done|]. split; [done|]. split; [done|]. intros Hy.
  destruct (strptime_strftime _ dt Hb Hv Hy) as (s & Hs & Hs').
  destruct (strptime_strftime _ dt Hp Hv Hy) as (ts & Hts & Hts').
  rewrite Hid in Hs. injection Hs as <-. exists ts. done.
Qed.

(** C6, as the code has it.  Every backup id the catalog listing returns is
    the print of the timestamp that the label of a listed entry bears.  When
    the year of that timestamp is 1000 or later, the conversion of the
    restore action turns the backup id into a timestamp in the engine's label
    format, and the conversion of the listing turns that timestamp, and the
    label made of it and a type suffix, back into the same backup id. *)
Theorem backup_id_round_trip K E show_failed w backups w' backup_id :
  complete_format (BACKUP_ID_FORMAT K) = true ->
  complete_format (PGBACKREST_BACKUP_ID_FORMAT K) = true ->
  _list_backups K E show_failed w = (Ok backups, w') ->
  backup_id ∈ od_keys backups ->
  exists repositories b dt,
    json_loads E (exec E (log w) (info_command K) None).1.2 = Some repositories
    /\ b ∈ selected show_failed (catalog_entries repositories)
    /\ label_timestamp K (label b) = Some dt
    /\ strftime dt (BACKUP_ID_FORMAT K) = Some backup_id
    /\ ((1000 <= year dt)%nat ->
        exists ts,
          timestamp_of_backup_id K backup_id = Some ts
          /\ (strptime ts (PGBACKREST_BACKUP_ID_FORMAT K)
                ≫= fun dt => strftime dt (BACKUP_ID_FORMAT K)) = Some backup_id
          /\ restore_label K backup_id = Some (ts +:+ "F")
          /\ backup_id_of_label K (ts +:+ "F") = Some backup_id).
Proof.
  intros Hb Hp Hl Hk.
  destruct (_list_backups_inv _ _ _ _ _ _ Hl)
    as (output & repositories & Hout & _ & Hjson & Hd & _).
  subst output.
  destruct (proj1 (list_backups_of_keys _ _ _ _ _ Hd) Hk) as (b & Hin & Hid).
  destruct (backup_id_of_label_round_trip _ _ _ Hb Hp Hid) as (dt & Hdt & Hv & Hprint & Hback).
  exists repositories, b, dt. split; [exact Hjson|]. split; [exact Hin|].
  split; [exact Hdt|]. split; [exact Hprint|]. intros Hy.
  destruct (Hback Hy) as (ts & H1 & H2 & H3).
  exists ts. unfold restore_label, timestamp_of_backup_id, backup_id_of_label.
  rewrite drop_last_append_char, H1. cbn. rewrite H2, H3. cbn. done.
Qed.

Lemma backup_id_round_trip_witness :
  exists ts,
    timestamp_of_backup_id sample_constants "2023-01-03T23:59:59Z" = Some ts
    /\ (strptime ts (PGBACKREST_BACKUP_ID_FORMAT sample_constants)
          ≫= fun dt => strftime dt (BACKUP_ID_FORMAT sample_constants))
       = Some "2023-01-03T23:59:59Z"
    /\ restore_label sample_constants "2023-01-03T23:59:59Z" = Some (ts +:+ "F")
    /\ backup_id_of_label sample_constants (ts +:+ "F") = Some "2023-01-03T23:59:59Z".
Proof.
  destruct (backup_id_round_trip sample_constants
              (sample_env (fun _ => 0) true None sample_s3_info) false sample_world
              [("2023-01-01T00:00:00Z", "prod.postgresql");
               ("2023-01-03T23:59:59Z", "prod.postgresql")]
              (extend_log sample_world [EvExec (info_command sample_constants) None 0])
              "2023-01-03T23:59:59Z")
    as (repositories & b & dt & Hjson & Hin & Hdt & _ & Hback).
  - reflexivity.
  - reflexivity.
  - vm_compute. reflexivity.
  - apply list_elem_of_further, list_elem_of_here.
  - apply Hback. injection Hjson as <-.
    rewrite selected_false in Hin. cbn [catalog_entries sample_catalog backup] in Hin.
    rewrite filter_cons_True in Hin by reflexivity.
    rewrite filter_cons_False in Hin by (by vm_compute).
    rewrite filter_cons_True in Hin by reflexivity.
    apply Nat.leb_le.
    apply elem_of_cons in Hin as [->|Hin];
      [|apply elem_of_cons in Hin as [->|Hin]; [|by apply elem_of_nil in Hin]];
      vm_compute in Hdt; injection Hdt as <-; reflexivity.
Defined.

(** C6 as stated fails on the code: the label of the year 999 lists as a
    backup id that begins with three digits, which the conversion of the
    restore action rejects, so that nothing is converted back. *)
Lemma backup_id_round_trip_fails_before_1000 :
  list_backups_of sample_constants false ancient_catalog
  = Ok [("999-01-01T00:00:00Z", "prod.postgresql")]
  /\ timestamp_of_backup_id sample_constants "999-01-01T00:00:00Z" = None
  /\ restore_label sample_constants "999-01-01T00:00:00Z" = None.
Proof. repeat split; vm_compute; reflexivity. Qed.

(** ** Stripping *)

Lemma lstrip_by_first p s c :
  PyStr.first_char (PyStr.lstrip_by p s) = Some c -> p c = false.
Proof.
  induction s as [|x s IH]; cbn; [discriminate|].
  destruct (p x) eqn:Hx; [exact IH|]. cbn. congruence.
Qed.

Lemma rstrip_by_last p s c :
  PyStr.last_char (PyStr.rstrip_by p s) = Some c -> p c = false.
Proof.
  induction s as [|x s IH]; cbn; [discriminate|].
  destruct (PyStr.rstrip_by p s) as [|y r] eqn:Hr.
  - destruct (p x) eqn:Hx; cbn; congruence.
  - cbn in *. exact IH.
Qed.

Lemma rstrip_by_first p s c :
  PyStr.first_char (PyStr.rstrip_by p s) = Some c -> PyStr.first_char s = Some c.
Proof.
  destruct s as [|x s]; cbn; [discriminate|].
  destruct (PyStr.rstrip_by p s); [destruct (p x)|]; cbn; congruence.
Qed.

Lemma strip_by_first p s c :
  PyStr.first_char (PyStr.strip_by p s) = Some c -> p c = false.
Proof. intros H%rstrip_by_first. by eapply lstrip_by_first. Qed.

Lemma strip_by_last p s c :
  PyStr.last_char (PyStr.strip_by p s) = Some c -> p c = false.
Proof. apply rstrip_by_last. Qed.

Lemma lstrip_by_id p s :
  (forall c, PyStr.first_char s = Some c -> p c = false) -> PyStr.lstrip_by p s = s.
Proof. destruct s as [|x s]; cbn; [done|]. intros H. by rewrite (H x). Qed.

Lemma rstrip_by_id p s :
  (forall c, PyStr.last_char s = Some c -> p c = false) -> PyStr.rstrip_by p s = s.
Proof.
  induction s as [|x s IH]; cbn; [done|]. intros H.
  destruct s as [|y s].
  - cbn. by rewrite (H x).
  - rewrite IH by exact H. reflexivity.
Qed.

(** Stripping is idempotent: a stripped string is trimmed. *)
Lemma strip_by_idempotent p s :
  PyStr.strip_by p (PyStr.strip_by p s) = PyStr.strip_by p s.
Proof.
  unfold PyStr.strip_by at 1.
  rewrite (lstrip_by_id p (PyStr.strip_by p s)) by apply strip_by_first.
  apply rstrip_by_id, strip_by_last.
Qed.

Lemma rstrip_slash_no_trailing s :
  PyStr.endswith_char PyStr.slash (PyStr.rstrip_slash s) = false.
Proof.
  unfold PyStr.endswith_char, PyStr.rstrip_slash.
  destruct (PyStr.last_char _) as [c|] eqn:Hc; [|done].
  apply rstrip_by_last in Hc. exact Hc.
Qed.

Lemma strip_slash_no_trailing s :
  PyStr.endswith_char PyStr.slash (PyStr.strip_slash s) = false.
Proof.
  unfold PyStr.endswith_char, PyStr.strip_slash.
  destruct (PyStr.last_char _) as [c|] eqn:Hc; [|done].
  apply strip_by_last in Hc. exact Hc.
Qed.

Lemma strip_slash_no_leading s : PyStr.startswith "/" (PyStr.strip_slash s) = false.
Proof.
  unfold PyStr.strip_slash.
  destruct (PyStr.strip_by PyStr.is_slash s) as [|c r] eqn:Hs; [done|].
  assert (PyStr.is_slash c = false) as Hc.
  { apply (strip_by_first PyStr.is_slash s). by rewrite Hs. }
  change (Ascii.eqb "/" c && true = false). unfold PyStr.is_slash, PyStr.slash in Hc.
  rewrite Ascii.eqb_sym, Hc. reflexivity.
Qed.

Lemma last_char_cons c s :
  s <> "" -> PyStr.last_char (String c s) = PyStr.last_char s.
Proof. by destruct s. Qed.

Lemma endswith_char_cons c x s :
  s <> "" -> PyStr.endswith_char c (String x s) = PyStr.endswith_char c s.
Proof. intros H. unfold PyStr.endswith_char. by rewrite last_char_cons. Qed.

(** ** S3 parameters *)

Lemma lookup_setdefault k v (d : gmap string pyval) k' :
  setdefault k v d !! k' = if decide (k = k') then Some (default v (d !! k)) else d !! k'.
Proof.
  unfold setdefault. destruct (d !! k) as [x|] eqn:Hk; cbn.
  - case_decide; [by subst|done].
  - rewrite lookup_insert. by case_decide.
Qed.

Lemma strip_trimmed s : trimmed (PyStr.strip s) = true.
Proof. unfold trimmed, PyStr.strip. rewrite strip_by_idempotent. apply String.eqb_refl. Qed.

Lemma path_shape x :
  let path := "/" +:+ PyStr.strip_slash x in
  PyStr.startswith "/" path = true
  /\ (path = "/" \/ PyStr.endswith_char PyStr.slash path = false).
Proof.
  cbn. split; [reflexivity|].
  change ("/" +:+ PyStr.strip_slash x) with (String "/" (PyStr.strip_slash x)).
  destruct (PyStr.strip_slash x) as [|c r] eqn:Hx; [by left|right].
  rewrite endswith_char_cons by done. rewrite <- Hx. apply strip_slash_no_trailing.
Qed.

Lemma required_present E :
  (forall k, k ∈ required_parameters -> is_Some (s3_connection_info E !! k)) ->
  filter (fun param => s3_connection_info E !! param = None) required_parameters = [].
Proof.
  intros H. unfold required_parameters in *.
  destruct (H "bucket") as [? Hb]; [set_solver|].
  destruct (H "access-key") as [? Ha]; [set_solver|].
  destruct (H "secret-key") as [? Hs]; [set_solver|].
  rewrite !filter_cons, Hb, Ha, Hs. reflexivity.
Qed.

(** What the retrieval returns, value by value. *)
Lemma _retrieve_s3_parameters_values E :
  let info := s3_connection_info E in
  (forall k, k ∈ required_parameters -> info !! k = None ->
     exists missing,
       _retrieve_s3_parameters E = Ok (∅, missing) /\ k ∈ missing
       /\ missing = filter (fun param => info !! param = None) required_parameters)
  /\ ((forall k, k ∈ required_parameters -> is_Some (info !! k)) ->
      str_or_absent info "endpoint" -> str_or_absent info "path" ->
      str_or_absent info "bucket" ->
      exists p,
        _retrieve_s3_parameters E = Ok (p, [])
        /\ (forall k s, k ∉ ["endpoint"; "path"; "bucket"] ->
              p !! k = Some (PyStr s) -> trimmed s = true)
        /\ p !! "endpoint"
           = Some (PyStr (PyStr.rstrip_slash
                            (PyStr.strip (raw_str info "endpoint" "https://s3.amazonaws.com"))))
        /\ p !! "path"
           = Some (PyStr ("/" +:+ PyStr.strip_slash (PyStr.strip (raw_str info "path" ""))))
        /\ p !! "bucket"
           = Some (PyStr (PyStr.strip_slash (PyStr.strip (raw_str info "bucket" ""))))
        /\ (forall s, p !! "endpoint" = Some (PyStr s) ->
              PyStr.endswith_char PyStr.slash s = false)
        /\ (forall s, p !! "path" = Some (PyStr s) ->
              PyStr.startswith "/" s = true
              /\ (s = "/" \/ PyStr.endswith_char PyStr.slash s = false))
        /\ (forall s, p !! "bucket" = Some (PyStr s) ->
              PyStr.endswith_char PyStr.slash s = false
              /\ PyStr.startswith "/" s = false)).
Proof.
  intros info. split.
  - intros k Hk Hnone. unfold _retrieve_s3_parameters. fold info.
    assert (k ∈ filter (fun param => info !! param = None) required_parameters) as Hin
      by (by apply list_elem_of_filter).
    destruct (filter _ required_parameters) as [|m ms] eqn:Hf; [by apply elem_of_nil in Hin|].
    eauto.
  - intros Hreq He Hp Hb. unfold _retrieve_s3_parameters.
    rewrite (required_present E Hreq). fold info.
    set (p4 := setdefault "s3-uri-style" _ _).
    assert (p4 !! "endpoint"
            = Some (default (PyStr "https://s3.amazonaws.com") (info !! "endpoint"))) as H4e.
    { unfold p4. rewrite !lookup_setdefault. by repeat case_decide. }
    assert (p4 !! "path" = Some (default (PyStr "") (info !! "path"))) as H4p.
    { unfold p4. rewrite !lookup_setdefault. by repeat case_decide. }
    assert (p4 !! "bucket" = info !! "bucket") as H4b.
    { unfold p4. rewrite !lookup_setdefault. by repeat case_decide. }
    unfold getitem, str_or_absent, raw_str in *.
    destruct (Hreq "bucket" ltac:(set_solver)) as [bv Hbv]; fold info in Hbv.
    rewrite Hbv in Hb |- *.
    rewrite lookup_fmap, H4e.
    destruct (info !! "endpoint") as [[| | |e|]|] eqn:Hei; try done.
    all: cbn [mbind result_bind rbind str_method default from_option id fmap option_fmap option_map
              strip_value].
    all: rewrite lookup_insert_ne by done; rewrite lookup_fmap, H4p.
    all: destruct (info !! "path") as [[| | |pa|]|] eqn:Hpi; try done.
    all: cbn [mbind result_bind rbind str_method default from_option id fmap option_fmap option_map
              strip_value].
    all: rewrite !lookup_insert_ne by done; rewrite lookup_fmap, H4b, Hbv.
    all: destruct bv as [| | |bu|]; try done.
    all: cbn [mbind result_bind rbind str_method default from_option id fmap option_fmap option_map
              strip_value].
    all: eexists; split; [reflexivity|].
    all: split;
      [ intros k s Hk; rewrite !not_elem_of_cons in Hk; destruct Hk as (?&?&?&_);
        rewrite !lookup_insert_ne by done; rewrite lookup_fmap;
        destruct (p4 !! k) as [[| | |x|]|]; cbn [fmap option_fmap option_map strip_value];
        try done; intros [= <-]; apply strip_trimmed |].
    all: split; [by rewrite !lookup_insert_ne by done; rewrite lookup_insert_eq|].
    all: split; [by rewrite lookup_insert_ne by done; rewrite lookup_insert_eq|].
    all: split; [by rewrite lookup_insert_eq|].
    all: split; [rewrite !lookup_insert_ne by done; rewrite lookup_insert_eq;
                 intros s [= <-]; apply rstrip_slash_no_trailing|].
    all: split; [rewrite lookup_insert_ne by done; rewrite lookup_insert_eq;
                 intros s [= <-]; apply path_shape|].
    all: rewrite lookup_insert_eq; intros s [= <-];
      split; [apply strip_slash_no_trailing | apply strip_slash_no_leading].
Qed.

Lemma no_space_by_slash_tail c s :
  no_space_by_slash (String c s) = true -> no_space_by_slash s = true.
Proof.
  destruct s as [|b s]; [done|]. cbn [no_space_by_slash].
  by intros [_ H]%andb_prop.
Qed.

Lemma lstrip_slash_clean t :
  no_space_by_slash t = true ->
  (forall c, PyStr.first_char t = Some c -> PyStr.is_space c = false) ->
  (forall c, PyStr.first_char (PyStr.lstrip_by PyStr.is_slash t) = Some c ->
             PyStr.is_space c = false)
  /\ no_space_by_slash (PyStr.lstrip_by PyStr.is_slash t) = true.
Proof.
  induction t as [|x t IH]; [done|]. intros Hclean Hfirst.
  cbn [PyStr.lstrip_by]. destruct (PyStr.is_slash x) eqn:Hx; [|done].
  apply IH; [by eapply no_space_by_slash_tail|].
  destruct t as [|y t]; [done|]. cbn [PyStr.first_char]. intros c [= <-].
  cbn [no_space_by_slash] in Hclean. rewrite Hx in Hclean.
  apply andb_prop in Hclean as [[H _]%andb_prop _].
  cbn [andb] in H. by apply negb_true_iff in H.
Qed.

Lemma lstrip_by_last p t c :
  PyStr.last_char (PyStr.lstrip_by p t) = Some c -> PyStr.last_char t = Some c.
Proof.
  induction t as [|x t IH]; [done|]. cbn [PyStr.lstrip_by].
  destruct (p x); [|done]. intros H. specialize (IH H).
  destruct t; [discriminate|]. exact IH.
Qed.

Lemma rstrip_by_empty p s c :
  PyStr.rstrip_by p s = "" -> PyStr.first_char s = Some c -> p c = true.
Proof.
  destruct s as [|x s]; [discriminate|]. cbn [PyStr.rstrip_by PyStr.first_char].
  intros H [= <-]. destruct (PyStr.rstrip_by p s); [|discriminate].
  by destruct (p x).
Qed.

Lemma rstrip_slash_clean s :
  no_space_by_slash s = true ->
  (forall c, PyStr.last_char s = Some c -> PyStr.is_space c = false) ->
  forall c, PyStr.last_char (PyStr.rstrip_by PyStr.is_slash s) = Some c ->
            PyStr.is_space c = false.
Proof.
  induction s as [|x s IH]; [done|]. intros Hclean Hlast c.
  cbn [PyStr.rstrip_by].
  destruct (PyStr.rstrip_by PyStr.is_slash s) as [|y r] eqn:Hr.
  - destruct (PyStr.is_slash x) eqn:Hx; [done|]. cbn. intros [= <-].
    destruct s as [|b s]; [by apply Hlast|].
    pose proof (rstrip_by_empty _ _ b Hr eq_refl) as Hb.
    cbn [no_space_by_slash] in Hclean. rewrite Hb in Hclean.
    apply andb_prop in Hclean as [[_ H]%andb_prop _].
    rewrite andb_true_r in H. by apply negb_true_iff in H.
  - rewrite last_char_cons by done. apply IH.
    + by eapply no_space_by_slash_tail.
    + intros c' Hc'. apply Hlast. rewrite last_char_cons; [done|].
      intros ->. discriminate.
Qed.

Lemma trimmed_ends u :
  (forall c, PyStr.first_char u = Some c -> PyStr.is_space c = false) ->
  (forall c, PyStr.last_char u = Some c -> PyStr.is_space c = false) ->
  trimmed u = true.
Proof.
  intros Hf Hl. unfold trimmed, PyStr.strip, PyStr.strip_by.
  rewrite (lstrip_by_id _ u Hf), (rstrip_by_id _ u Hl). apply String.eqb_refl.
Qed.

(** Stripping the slashes of a trimmed text leaves it trimmed, unless a
    blank stood next to a slash. *)
Lemma rstrip_slash_trimmed raw :
  no_space_by_slash (PyStr.strip raw) = true ->
  trimmed (PyStr.rstrip_slash (PyStr.strip raw)) = true.
Proof.
  intros Hclean. apply trimmed_ends.
  - intros c Hc%rstrip_by_first. by apply (strip_by_first PyStr.is_space raw).
  - apply rstrip_slash_clean; [done|]. apply (strip_by_last PyStr.is_space raw).
Qed.

Lemma strip_slash_ends raw :
  no_space_by_slash (PyStr.strip raw) = true ->
  (forall c, PyStr.first_char (PyStr.strip_slash (PyStr.strip raw)) = Some c ->
             PyStr.is_space c = false)
  /\ (forall c, PyStr.last_char (PyStr.strip_slash (PyStr.strip raw)) = Some c ->
                PyStr.is_space c = false).
Proof.
  intros Hclean.
  destruct (lstrip_slash_clean (PyStr.strip raw) Hclean
              (strip_by_first PyStr.is_space raw)) as [Hfirst Hclean'].
  unfold PyStr.strip_slash, PyStr.strip_by. split.
  - intros c Hc%rstrip_by_first. by apply Hfirst.
  - apply rstrip_slash_clean; [done|].
    intros c Hc%lstrip_by_last. by apply (strip_by_last PyStr.is_space raw).
Qed.

Lemma strip_slash_trimmed raw :
  no_space_by_slash (PyStr.strip raw) = true ->
  trimmed (PyStr.strip_slash (PyStr.strip raw)) = true.
Proof. intros [Hf Hl]%strip_slash_ends. by apply trimmed_ends. Qed.

Lemma path_trimmed raw :
  no_space_by_slash (PyStr.strip raw) = true ->
  trimmed ("/" +:+ PyStr.strip_slash (PyStr.strip raw)) = true.
Proof.
  intros [Hf Hl]%strip_slash_ends. apply trimmed_ends.
  - intros c [= <-]. reflexivity.
  - change ("/" +:+ PyStr.strip_slash (PyStr.strip raw))
      with (String "/" (PyStr.strip_slash (PyStr.strip raw))).
    destruct (PyStr.strip_slash (PyStr.strip raw)) as [|x r] eqn:Hs.
    + intros c [= <-]. reflexivity.
    + rewrite last_char_cons by done. exact Hl.
Qed.

(** C8, as the code has it.  When one of bucket, access-key and secret-key is
    absent the result is the empty set with the list of the absent required
    keys.  Otherwise (and when endpoint, path and bucket are strings) the
    result has no missing key and: every string value other than endpoint,
    path and bucket is trimmed of white space, and so are these three when
    no white space stands next to a slash in their trimmed values; endpoint
    is https://s3.amazonaws.com when none is given, and has no trailing
    slash; path starts with a slash and ends with one only when it is the
    single slash; bucket has no leading and no trailing slash. *)
Theorem retrieve_s3_parameters_normalised E :
  let info := s3_connection_info E in
  (forall k, k ∈ required_parameters -> info !! k = None ->
     exists missing,
       _retrieve_s3_parameters E = Ok (∅, missing) /\ k ∈ missing
       /\ missing = filter (fun param => info !! param = None) required_parameters)
  /\ ((forall k, k ∈ required_parameters -> is_Some (info !! k)) ->
      str_or_absent info "endpoint" -> str_or_absent info "path" ->
      str_or_absent info "bucket" ->
      exists p,
        _retrieve_s3_parameters E = Ok (p, [])
        /\ (forall k s, k ∉ ["endpoint"; "path"; "bucket"] ->
              p !! k = Some (PyStr s) -> trimmed s = true)
        /\ ((forall k s, k ∈ ["endpoint"; "path"; "bucket"] ->
                info !! k = Some (PyStr s) ->
                no_space_by_slash (PyStr.strip s) = true) ->
            forall k s, p !! k = Some (PyStr s) -> trimmed s = true)
        /\ (info !! "endpoint" = None ->
            p !! "endpoint" = Some (PyStr "https://s3.amazonaws.com"))
        /\ (exists s, p !! "endpoint" = Some (PyStr s)
                      /\ PyStr.endswith_char PyStr.slash s = false)
        /\ (exists s, p !! "path" = Some (PyStr s)
                      /\ PyStr.startswith "/" s = true
                      /\ (s = "/" \/ PyStr.endswith_char PyStr.slash s = false))
        /\ (exists s, p !! "bucket" = Some (PyStr s)
                      /\ PyStr.endswith_char PyStr.slash s = false
                      /\ PyStr.startswith "/" s = false)).
Proof.
  intros info. destruct (_retrieve_s3_parameters_values E) as [Hmissing Hvalues].
  split; [exact Hmissing|]. intros Hreq He Hp Hb.
  destruct (Hvalues Hreq He Hp Hb)
    as (p & Hrun & Hothers & Hep & Hpp & Hbp & Hes & Hps & Hbs).
  exists p. split; [exact Hrun|]. split; [exact Hothers|]. split.
  { intros Hclean k s Hk.
    assert (forall key dflt,
              key ∈ ["endpoint"; "path"; "bucket"] ->
              str_or_absent (s3_connection_info E) key ->
              no_space_by_slash (PyStr.strip dflt) = true ->
              no_space_by_slash
                (PyStr.strip (raw_str (s3_connection_info E) key dflt)) = true) as Hraw.
    { intros key dflt Hkey Hstr Hd. unfold raw_str, str_or_absent in *.
      destruct (s3_connection_info E !! key) as [[| | |x|]|] eqn:Hx; try done.
      by apply (Hclean key). }
    destruct (decide (k = "endpoint")) as [->|Hne].
    { rewrite Hep in Hk. injection Hk as <-. apply rstrip_slash_trimmed.
      apply Hraw; [set_solver | done | reflexivity]. }
    destruct (decide (k = "path")) as [->|Hnp].
    { rewrite Hpp in Hk. injection Hk as <-. apply path_trimmed.
      apply Hraw; [set_solver | done | reflexivity]. }
    destruct (decide (k = "bucket")) as [->|Hnb].
    { rewrite Hbp in Hk. injection Hk as <-. apply strip_slash_trimmed.
      apply Hraw; [set_solver | done | reflexivity]. }
    apply (Hothers k); [set_solver | done]. }
  split.
  { intros Hnone. rewrite Hep. unfold raw_str. fold info. by rewrite Hnone. }
  split; [eexists; split; [exact Hep | by apply Hes]|].
  split; [eexists; split; [exact Hpp | by apply Hps]|].
  eexists; split; [exact Hbp | by apply Hbs].
Qed.

Lemma retrieve_s3_parameters_normalised_witness :
  exists p,
    _retrieve_s3_parameters (sample_env (fun _ => 0) true None sample_s3_info) = Ok (p, [])
    /\ p !! "endpoint" = Some (PyStr "https://s3.amazonaws.com")
    /\ forall k s, p !! k = Some (PyStr s) -> trimmed s = true.
Proof.
  destruct (proj2 (retrieve_s3_parameters_normalised
                     (sample_env (fun _ => 0) true None sample_s3_info)))
    as (p & Hp & _ & Htrim & He & _).
  - intros k Hk. vm_compute in Hk.
    repeat (apply elem_of_cons in Hk as [->|Hk]; [vm_compute; eauto|]).
    by apply elem_of_nil in Hk.
  - vm_compute. exact I.
  - vm_compute. exact I.
  - vm_compute. exact I.
  - exists p. split; [exact Hp|]. split; [by apply He|]. apply Htrim.
    intros k s Hk Hs.
    repeat (apply elem_of_cons in Hk as [->|Hk];
            [vm_compute in Hs; by first [discriminate Hs | injection Hs as <-]|]).
    by apply elem_of_nil in Hk.
Defined.

(** C8 as stated fails on the code: with the path left to its default the
    normalised path is the single slash, which ends with a slash. *)
Lemma retrieve_s3_parameters_default_path_is_slash :
  (_retrieve_s3_parameters (sample_env (fun _ => 0) true None s3_info_without_path)
     ≫= fun r => if bool_decide (r.2 = []) then getitem r.1 "path" else Raise ValueError)
  = Ok (PyStr "/")
  /\ PyStr.endswith_char PyStr.slash "/" = true.
Proof. split; vm_compute; reflexivity. Qed.

(** A blank that a trailing slash kept from [strip()] is laid bare when the
    slash is stripped afterwards: this bucket is returned with a blank at
    its end, although the code sets out to strip white space from all
    parameters. *)
Lemma retrieve_s3_parameters_blank_by_slash :
  (_retrieve_s3_parameters (sample_env (fun _ => 0) true None s3_info_spaced_bucket)
     ≫= fun r => if bool_decide (r.2 = []) then getitem r.1 "bucket" else Raise ValueError)
  = Ok (PyStr "backups ")
  /\ trimmed "backups " = false
  /\ no_space_by_slash (PyStr.strip "backups /") = false.
Proof. repeat split; vm_compute; reflexivity. Qed.

(** ** Object keys *)

Lemma startswith_app p s : PyStr.startswith p (p +:+ s) = true.
Proof.
  induction p as [|c p IH]; [by destruct s|].
  change (Ascii.eqb c c && PyStr.startswith p (p +:+ s) = true).
  by rewrite Ascii.eqb_refl, IH.
Qed.

Lemma startswith_slash_trans path s3_path :
  PyStr.startswith "/" path = true ->
  PyStr.startswith path s3_path = true ->
  PyStr.startswith "/" s3_path = true.
Proof.
  destruct path as [|c path]; [discriminate|].
  destruct s3_path as [|x s]; [discriminate|].
  change (Ascii.eqb "/" c && true = true -> Ascii.eqb c x && PyStr.startswith path s = true ->
          Ascii.eqb "/" x && true = true).
  rewrite !andb_true_r. intros ->%Ascii.eqb_eq [Hx _]%andb_prop. exact Hx.
Qed.

Lemma path_join_absolute path s3_path :
  PyStr.startswith "/" s3_path = true -> PyStr.path_join path s3_path = s3_path.
Proof. unfold PyStr.path_join. by intros ->. Qed.

Lemma lstrip_slash_relative rel :
  PyStr.startswith "/" rel = false -> PyStr.lstrip_slash rel = rel.
Proof.
  intros H. apply lstrip_by_id. intros c Hc. destruct rel as [|x rel]; [discriminate|].
  injection Hc as ->. change (Ascii.eqb "/" c && true = false) in H.
  rewrite andb_true_r, Ascii.eqb_sym in H. exact H.
Qed.

Lemma startswith_slash_app a b :
  a <> "" -> PyStr.startswith "/" (a +:+ b) = PyStr.startswith "/" a.
Proof. by destruct a. Qed.

(** The paths the callers build from the normalised prefix. *)
Lemma caller_path_shape x rel :
  let path := "/" +:+ PyStr.strip_slash x in
  PyStr.startswith "/" rel = false ->
  PyStr.startswith path (PyStr.path_join path rel) = true
  /\ String "/" (object_key path (PyStr.path_join path rel)) = PyStr.path_join path rel.
Proof.
  intros path Hrel. unfold object_key.
  assert (PyStr.startswith path (PyStr.path_join path rel) = true) as Hpre.
  { unfold PyStr.path_join. rewrite Hrel.
    destruct (_ || _); apply startswith_app. }
  split; [exact Hpre|].
  rewrite (path_join_absolute path (PyStr.path_join path rel))
    by (apply (startswith_slash_trans path); [reflexivity | exact Hpre]).
  unfold PyStr.path_join. rewrite Hrel.
  change path with (String "/" (PyStr.strip_slash x)).
  change (String.eqb (String "/" (PyStr.strip_slash x)) "") with false.
  rewrite orb_false_l.
  pose proof (strip_slash_no_leading x) as Hl.
  pose proof (strip_slash_no_trailing x) as Ht.
  destruct (PyStr.strip_slash x) as [|c r] eqn:Hx.
  - change (PyStr.endswith_char PyStr.slash "/") with true. cbv iota.
    change ("/" +:+ rel) with (String "/" rel).
    change (PyStr.lstrip_slash (String "/" rel)) with (PyStr.lstrip_slash rel).
    by rewrite lstrip_slash_relative.
  - rewrite endswith_char_cons, Ht by done.
    change (String "/" (String c r) +:+ "/" +:+ rel)
      with (String "/" (String c r +:+ "/" +:+ rel)).
    change (PyStr.lstrip_slash (String "/" (String c r +:+ "/" +:+ rel)))
      with (PyStr.lstrip_slash (String c r +:+ "/" +:+ rel)).
    rewrite lstrip_slash_relative; [done|].
    by rewrite startswith_slash_app.
Qed.

(** C10.  When the path handed to the upload routine begins with the path
    prefix of the S3 parameters, which begins with a slash, the join inside
    the routine returns that path unchanged (it is absolute, so the prefix
    is dropped rather than repeated) and the object is uploaded under that
    path without its leading slashes; for the paths the callers build, the
    normalised prefix joined with a relative path, that is the path less its
    one leading slash. *)
Theorem upload_key_strips_leading_slash E content s3_path s3_parameters path bucket w :
  s3_parameters !! "path" = Some (PyStr path) ->
  s3_parameters !! "bucket" = Some (PyStr bucket) ->
  PyStr.startswith "/" path = true ->
  PyStr.startswith path s3_path = true ->
  PyStr.path_join path s3_path = s3_path
  /\ object_key path s3_path = PyStr.lstrip_slash s3_path
  /\ (exists ok,
        _upload_content_to_s3 E content s3_path s3_parameters w
        = (Ok ok, mkWorld (app_peer_data w) (unit_peer_data w) (unit_status w)
                    (log w ++ [EvUpload bucket (PyStr.lstrip_slash s3_path) content ok])))
  /\ (forall x rel,
        path = "/" +:+ PyStr.strip_slash x ->
        PyStr.startswith "/" rel = false ->
        s3_path = PyStr.path_join path rel ->
        String "/" (object_key path s3_path) = s3_path).
Proof.
  intros Hp Hb Hs Hpre.
  assert (PyStr.path_join path s3_path = s3_path) as Hj
    by (apply path_join_absolute; by eapply startswith_slash_trans).
  assert (object_key path s3_path = PyStr.lstrip_slash s3_path) as Hk
    by (unfold object_key; by rewrite Hj).
  split; [exact Hj|]. split; [exact Hk|]. split.
  - exists (upload_ok E (log w) bucket (PyStr.lstrip_slash s3_path) content).
    unfold _upload_content_to_s3, bind, lift, getitem, get_world, emit, ret.
    rewrite Hb, Hp. cbn [mbind result_bind rbind as_path]. rewrite Hk. reflexivity.
  - intros x rel -> Hrel ->. by apply caller_path_shape.
Qed.

Lemma upload_key_strips_leading_slash_witness :
  object_key "/postgresql" "/postgresql/backup/prod.postgresql/latest"
  = "postgresql/backup/prod.postgresql/latest".
Proof.
  pose proof (upload_key_strips_leading_slash
                (sample_env (fun _ => 0) true None sample_s3_info) "metadata"
                "/postgresql/backup/prod.postgresql/latest"
                (<["path" := PyStr "/postgresql"]> (<["bucket" := PyStr "backups"]> ∅))
                "/postgresql" "backups" sample_world) as H.
  destruct H as (_ & Hk & _).
  - vm_compute. reflexivity.
  - vm_compute. reflexivity.
  - vm_compute. reflexivity.
  - vm_compute. reflexivity.
  - rewrite Hk. vm_compute. reflexivity.
Defined.

(** ** Eligibility for a backup *)

(** C5.  The eligibility check reports the first precondition that fails, in
    the order: blocked unit; primary with more than one planned unit and
    TLS; replica without TLS; database process not started; no stanza; and
    otherwise answers what the check of the S3 settings answers.  A primary
    among two units with TLS and a replica without TLS are denied; a primary
    that is the only unit, without TLS, is past the role checks. *)
Theorem backup_eligibility_first_failure E w :
  let tls_enabled := contains "tls" (unit_peer_data w) in
  let is_primary := unit_is_patroni_primary E in
  let started := member_started E (log w) in
  let has_stanza := contains "stanza" (app_peer_data w) in
  let primary_denied := is_primary && (1 <? planned_units E)%nat && tls_enabled in
  let replica_denied := negb is_primary && negb tls_enabled in
  let r := _can_unit_perform_backup E w in
  (is_blocked w = true -> r = Ok (false, Some "Unit is in a blocking state"))
  /\ (is_blocked w = false -> primary_denied = true ->
      r = Ok (false, Some "Unit cannot perform backups as it is the cluster primary"))
  /\ (is_blocked w = false -> primary_denied = false -> replica_denied = true ->
      r = Ok (false, Some "Unit cannot perform backups as TLS is not enabled"))
  /\ (is_blocked w = false -> primary_denied = false -> replica_denied = false ->
      started = false ->
      r = Ok (false, Some "Unit cannot perform backups as it's not in running state"))
  /\ (is_blocked w = false -> primary_denied = false -> replica_denied = false ->
      started = true -> has_stanza = false ->
      r = Ok (false, Some "Stanza was not initialised"))
  /\ (is_blocked w = false -> primary_denied = false -> replica_denied = false ->
      started = true -> has_stanza = true ->
      r = _are_backup_settings_ok E)
  /\ (is_primary = true -> planned_units E = 2%nat -> tls_enabled = true ->
      exists msg, r = Ok (false, Some msg))
  /\ (is_primary = false -> tls_enabled = false ->
      exists msg, r = Ok (false, Some msg))
  /\ (is_primary = true -> planned_units E = 1%nat -> tls_enabled = false ->
      is_blocked w = false ->
      r = if negb started
          then Ok (false, Some "Unit cannot perform backups as it's not in running state")
          else if negb has_stanza then Ok (false, Some "Stanza was not initialised")
          else _are_backup_settings_ok E).
Proof.
  cbv zeta. unfold _can_unit_perform_backup.
  repeat split.
  - by intros ->.
  - by intros -> ->.
  - by intros -> -> ->.
  - by intros -> -> -> ->.
  - by intros -> -> -> -> ->.
  - by intros -> -> -> -> ->.
  - intros -> -> ->. destruct (is_blocked w); cbn; eauto.
  - intros -> ->. destruct (is_blocked w); cbn; eauto.
  - by intros -> -> -> ->.
Qed.

Lemma backup_eligibility_first_failure_witness :
  _can_unit_perform_backup (sample_env (fun _ => 0) true None sample_s3_info) pending_world
  = Ok (true, None).
Proof.
  destruct (backup_eligibility_first_failure
              (sample_env (fun _ => 0) true None sample_s3_info) pending_world)
    as (_ & _ & _ & _ & _ & Hpass & _).
  rewrite Hpass by reflexivity. vm_compute. reflexivity.
Defined.

(** ** Logs *)

Lemma extend_log_extend_log w a b :
  extend_log (extend_log w a) b = extend_log w (a ++ b).
Proof. unfold extend_log. cbn. by rewrite <- app_assoc. Qed.

Lemma exec_codes_app cmd a b :
  exec_codes cmd (a ++ b) = exec_codes cmd a ++ exec_codes cmd b.
Proof. apply omap_app. Qed.

Lemma sleeps_app a b : sleeps (a ++ b) = sleeps a ++ sleeps b.
Proof. apply omap_app. Qed.

Lemma exec_codes_exec cmd input rc : exec_codes cmd [EvExec cmd input rc] = [rc].
Proof. unfold exec_codes. cbn. by rewrite decide_True. Qed.

(** ** The stanza check *)

(** One attempt reloads the cluster manager when the member has started and
    runs the check command once. *)
Lemma check_attempt_run K E w :
  exists pre rc,
    check_attempt K E w
    = (Ok (rc =? 0), extend_log w (pre ++ [EvExec (check_command K E) None rc]))
    /\ exec_codes (check_command K E) pre = []
    /\ sleeps pre = [].
Proof.
  unfold check_attempt, bind, get_world, _execute_command, emit, ret. cbn.
  destruct (member_started E (log w)); cbn.
  - destruct (exec E _ _ _) as [[rc out] err] eqn:He. cbn.
    exists [EvReloadPatroni], rc. unfold extend_log. cbn.
    by rewrite <- app_assoc.
  - destruct (exec E _ _ _) as [[rc out] err] eqn:He. cbn.
    exists [], rc. done.
Qed.

Lemma Retrying_last d attempt w :
  Retrying 1 d attempt w
  = match attempt w with
    | (Ok ok, w') => (Ok ok, w')
    | (Raise e, w') => (Raise e, w')
    end.
Proof.
  cbn [Retrying]. unfold bind. destruct (attempt w) as [[[]|] w']; reflexivity.
Qed.

Lemma Retrying_more n d attempt w :
  Retrying (S (S n)) d attempt w
  = match attempt w with
    | (Ok true, w') => (Ok true, w')
    | (Ok false, w') => Retrying (S n) d attempt (extend_log w' [EvSleep d])
    | (Raise e, w') => (Raise e, w')
    end.
Proof.
  change (Retrying (S (S n)) d attempt)
    with (bind attempt (fun ok : bool =>
            if ok then ret true
            else bind (emit (EvSleep d)) (fun _ => Retrying (S n) d attempt))).
  unfold bind at 1. destruct (attempt w) as [[[]|] w']; reflexivity.
Qed.

Lemma Retrying_check_attempt K E n w :
  exists ok new,
    Retrying (S n) 3 (check_attempt K E) w = (Ok ok, extend_log w new)
    /\ retry_outcome (check_command K E) (S n) ok new.
Proof.
  revert w. induction n as [|n IH]; intros w;
    destruct (check_attempt_run K E w) as (pre & rc & Hrun & Hpre & Hsl).
  - rewrite Retrying_last, Hrun.
    exists (rc =? 0), (pre ++ [EvExec (check_command K E) None rc]).
    split; [done|].
    unfold retry_outcome. rewrite exec_codes_app, sleeps_app, Hpre, Hsl, exec_codes_exec.
    cbn. split; [lia|]. split; [done|].
    destruct (rc =? 0) eqn:Hrc.
    + apply Z.eqb_eq in Hrc as ->. by exists [].
    + apply Z.eqb_neq in Hrc. split; [done|]. by constructor.
  - rewrite Retrying_more, Hrun.
    destruct (rc =? 0) eqn:Hrc.
    + exists true, (pre ++ [EvExec (check_command K E) None rc]).
      split; [done|].
      unfold retry_outcome. rewrite exec_codes_app, sleeps_app, Hpre, Hsl, exec_codes_exec.
      cbn. split; [lia|]. split; [done|].
      apply Z.eqb_eq in Hrc as ->. by exists [].
    + apply Z.eqb_neq in Hrc. rewrite extend_log_extend_log.
      destruct (IH (extend_log w ((pre ++ [EvExec (check_command K E) None rc])
                                  ++ [EvSleep 3%nat])))
        as (ok & new & Hrec & (Hlen & Hsleep & Hok)).
      exists ok, (((pre ++ [EvExec (check_command K E) None rc]) ++ [EvSleep 3%nat]) ++ new).
      split; [by rewrite Hrec, extend_log_extend_log|].
      unfold retry_outcome.
      rewrite !exec_codes_app, !sleeps_app, Hpre, Hsl, exec_codes_exec. cbn.
      rewrite Hsleep. split; [lia|]. split.
      { destruct (length (exec_codes (check_command K E) new)) as [|m]; [lia|].
        cbn. by rewrite Nat.sub_0_r. }
      destruct ok.
      * destruct Hok as (failed & -> & Hf). exists (rc :: failed). split; [done|].
        by constructor.
      * destruct Hok as [Hn Hf]. split; [by rewrite Hn|]. by constructor.
Qed.

(** Explicit events that are neither runs of a command nor sleeps
    contribute nothing to [exec_codes] and [sleeps]. *)
Ltac quiet_events :=
  repeat match goal with
         | |- context [exec_codes ?c (?e :: ?l)] =>
             change (exec_codes c (e :: l)) with (@nil Z)
         | |- context [exec_codes ?c stanza_rollback] =>
             change (exec_codes c stanza_rollback) with (@nil Z)
         | |- context [sleeps (?e :: ?l)] => change (sleeps (e :: l)) with (@nil nat)
         | |- context [sleeps stanza_rollback] =>
             change (sleeps stanza_rollback) with (@nil nat)
         end;
  cbn [app]; rewrite ?app_nil_r.

(** C2.  On the leader with the init-pending marker set, the check command
    is run at least once and at most five times, with a sleep of three
    seconds between two attempts and nowhere else, and the marker is gone
    afterwards.  If every attempt fails there were five, the stanza name is
    set to the empty string, the configuration is pushed again after that
    and the status is Blocked with the stanza initialisation message; if an
    attempt succeeds the status is Active and the stanza name is kept. *)
Theorem check_stanza_bounded_retries K E w :
  is_leader E = true ->
  contains "init-pgbackrest" (app_peer_data w) = true ->
  exists w' new,
    check_stanza K E w = (Ok tt, w')
    /\ log w' = log w ++ new
    /\ let rcs := exec_codes (check_command K E) new in
       (1 <= length rcs <= 5)%nat
       /\ sleeps new = replicate (length rcs - 1) 3%nat
       /\ app_peer_data w' !! "init-pgbackrest" = None
       /\ (Forall (fun rc => rc <> 0) rcs ->
           length rcs = 5%nat
           /\ app_peer_data w' !! "stanza" = Some ""
           /\ (exists before, new = before ++ stanza_rollback)
           /\ unit_status w' = BlockedStatus FAILED_TO_INITIALIZE_STANZA_ERROR_MESSAGE)
       /\ (Exists (fun rc => rc = 0) rcs ->
           unit_status w' = ActiveStatus
           /\ app_peer_data w' !! "stanza" = app_peer_data w !! "stanza").
Proof.
  intros Hleader Hmarker.
  cbv beta iota delta [check_stanza bind get_world emit set_status ret
                       app_peer_update app_peer_pop].
  rewrite Hleader, Hmarker. cbn [negb orb app_peer_data unit_peer_data unit_status log].
  match goal with
  | |- context [Retrying 5 3 _ ?w2] =>
      destruct (Retrying_check_attempt K E 4 w2) as (ok & new & -> & (Hlen & Hsleep & Hok))
  end.
  unfold extend_log. cbn [app_peer_data unit_peer_data unit_status log].
  destruct ok.
  - eexists _, ([EvUpdateConfig false; EvSetStatus (MaintenanceStatus "checking stanza")]
                ++ new ++ [EvSetStatus ActiveStatus; EvAppPeerPop "init-pgbackrest"]).
    split; [reflexivity|]. cbn [app_peer_data unit_peer_data unit_status log].
    split; [by rewrite <- !app_assoc|].
    rewrite !exec_codes_app, !sleeps_app. quiet_events.
    split; [exact Hlen|]. split; [exact Hsleep|]. split; [apply lookup_delete_eq|].
    destruct Hok as (failed & Hrcs & Hf). split.
    + intros Hall. rewrite Hrcs, Forall_app, Forall_singleton in Hall.
      destruct Hall as [_ Hall]. exfalso. by apply Hall.
    + intros _. split; [done|]. by rewrite lookup_delete_ne.
  - eexists _, ([EvUpdateConfig false; EvSetStatus (MaintenanceStatus "checking stanza")]
                ++ new ++ stanza_rollback).
    split; [reflexivity|]. cbn [app_peer_data unit_peer_data unit_status log].
    split; [by rewrite <- !app_assoc|].
    rewrite !exec_codes_app, !sleeps_app. quiet_events.
    split; [exact Hlen|]. split; [exact Hsleep|]. split; [apply lookup_delete_eq|].
    destruct Hok as [Hn Hf]. split.
    + intros _. split; [exact Hn|]. split.
      * rewrite !lookup_delete_ne by done. unfold dict_update. cbn [foldl fst snd].
        apply lookup_insert_eq.
      * split; [|done]. by exists (EvUpdateConfig false
                     :: EvSetStatus (MaintenanceStatus "checking stanza") :: new).
    + intros Hex. apply Exists_exists in Hex as (rc & Hin & ->).
      rewrite Forall_forall in Hf. by apply Hf in Hin.
Qed.

Lemma check_stanza_bounded_retries_witness :
  exists w',
    check_stanza sample_constants (sample_env (fun _ => 1) true None sample_s3_info)
      pending_world = (Ok tt, w')
    /\ unit_status w' = BlockedStatus FAILED_TO_INITIALIZE_STANZA_ERROR_MESSAGE
    /\ app_peer_data w' !! "stanza" = Some ""
    /\ app_peer_data w' !! "init-pgbackrest" = None.
Proof.
  destruct (check_stanza_bounded_retries sample_constants
              (sample_env (fun _ => 1) true None sample_s3_info) pending_world)
    as (w' & new & Hrun & Hlog & _ & _ & Hmarker & Hfail & _).
  - reflexivity.
  - vm_compute. reflexivity.
  - exists w'. split; [exact Hrun|].
    change (log w' = new) in Hlog.
    destruct Hfail as (_ & Hstanza & _ & Hstatus).
    + rewrite <- Hlog. change w' with (Ok tt, w').2. rewrite <- Hrun.
      vm_compute. repeat constructor; discriminate.
    + split; [exact Hstatus|]. split; [exact Hstanza | exact Hmarker].
Defined.

(** ** Stanza initialisation *)

Ltac frame_nil :=
  exists []; unfold extend_log; rewrite app_nil_r;
  match goal with w : world |- _ => by destruct w end.

Ltac frame_done :=
  eexists; split;
  [ unfold extend_log; cbn [app_peer_data unit_peer_data unit_status log];
    rewrite <- ?app_assoc; reflexivity
  | reflexivity ].

(** The service routine leaves the peer data and the status alone; all it
    does is render the configuration, ping the primary and stop or restart
    the service. *)
Lemma start_stop_pgbackrest_service_frame K E w r w' :
  start_stop_pgbackrest_service K E w = (r, w') ->
  exists service_events,
    w' = extend_log w service_events
    /\ forallb is_service_event service_events = true.
Proof.
  cbv beta iota delta [start_stop_pgbackrest_service bind lift ret emit
                       _render_pgbackrest_conf_file
                       _is_primary_pgbackrest_service_running _execute_command
                       get_world raise].
  destruct (_are_backup_settings_ok E) as [[ok msg]|e].
  2: { intros [= <- <-]. frame_nil. }
  destruct ok; cbn [negb].
  2: { intros [= <- <-]. frame_nil. }
  destruct (_retrieve_s3_parameters E) as [[p missing]|e].
  2: { intros [= <- <-]. frame_nil. }
  destruct missing as [|m ms]; cbn [negb].
  2: { intros [= <- <-]. frame_nil. }
  destruct (snap_present E); cbn [negb].
  2: { intros [= <- <-]. frame_done. }
  destruct (negb (is_tls_enabled E) || _).
  { intros [= <- <-]. frame_done. }
  destruct (is_primary E).
  { cbn [negb]. intros [= <- <-]. frame_done. }
  destruct (primary_endpoint E) as [[|c ep]|].
  - cbn [negb]. intros [= <- <-]. frame_done.
  - cbn [log app_peer_data unit_peer_data unit_status].
    destruct (exec E _ _ _) as [[rc out] err]. cbn [fst snd].
    destruct (rc =? 0); cbn [negb]; intros [= <- <-].
    + frame_done.
    + frame_done.
  - cbn [negb]. intros [= <- <-]. frame_done.
Qed.

Lemma extend_log_nil w : extend_log w [] = w.
Proof. unfold extend_log. rewrite app_nil_r. by destruct w. Qed.

Ltac no_restart :=
  let H := fresh "H" in
  intros [= <- <-]; unfold events_since, extend_log; cbn [log];
  rewrite <- ?app_assoc, ?drop_app_length, ?drop_all; cbn [app]; intros H;
  solve [ repeat (apply elem_of_cons in H as [H|H]; [discriminate|]);
          by apply elem_of_nil in H ].

(** The service routine restarts the service under these conditions only. *)
Lemma start_stop_pgbackrest_service_restart K E w r w' :
  start_stop_pgbackrest_service K E w = (r, w') ->
  EvSnapRestart ∈ events_since w w' ->
  r = Ok true
  /\ (exists msg, _are_backup_settings_ok E = Ok (true, msg))
  /\ snap_present E = true /\ is_tls_enabled E = true /\ peer_members_ips E <> []
  /\ (is_primary E = true
      \/ exists endpoint,
           primary_endpoint E = Some endpoint
           /\ EvExec (server_ping_command K endpoint) None 0 ∈ events_since w w').
Proof.
  cbv beta iota delta [start_stop_pgbackrest_service bind lift ret emit
                       _render_pgbackrest_conf_file
                       _is_primary_pgbackrest_service_running _execute_command
                       get_world raise].
  destruct (_are_backup_settings_ok E) as [[ok msg]|e] eqn:Hset; [|no_restart].
  destruct ok; cbn [negb]; [|no_restart].
  destruct (_retrieve_s3_parameters E) as [[p missing]|e]; [|no_restart].
  destruct missing as [|m ms]; cbn [negb]; [|no_restart].
  destruct (snap_present E) eqn:Hsnap; cbn [negb]; [|no_restart].
  destruct (is_tls_enabled E) eqn:Htls; cbn [negb orb]; [|no_restart].
  destruct (peer_members_ips E) as [|ip ips] eqn:Hpeers; cbn [length Nat.eqb];
    [no_restart|].
  destruct (is_primary E) eqn:Hprim.
  { cbn [negb]. intros [= <- <-] _. repeat split; eauto. }
  destruct (primary_endpoint E) as [[|c ep]|] eqn:Hep; cbn [negb]; [no_restart| |no_restart].
  cbn [log app_peer_data unit_peer_data unit_status].
  destruct (exec E _ _ _) as [[rc out] err]. cbn [fst snd].
  fold (server_ping_command K (String c ep)).
  destruct (rc =? 0) eqn:Hrc; cbn [negb]; [|no_restart].
  apply Z.eqb_eq in Hrc as ->. intros [= <- <-] _.
  repeat split; eauto. right. exists (String c ep). split; [done|].
  unfold events_since. cbn [log]. rewrite <- !app_assoc, drop_app_length. cbn [app].
  apply list_elem_of_further, list_elem_of_here.
Qed.

(** C3, as the code has it.  On the leader, when the unit is not blocked for
    a reason foreign to S3, the stanza-create command is run after the status
    is set to Maintenance.  Exit code 49 raises [TimeoutError].  Any other
    exit code but 0 sets the status to Blocked with the stanza
    initialisation message and changes no peer data.  On exit code 0 the
    service routine runs first and, when it returns, the stanza name and the
    init-pending marker are recorded as the last step: every event of the
    service routine, a restart of the TLS service among them, precedes the
    record.  The routine restarts the TLS service only when the S3 settings
    are complete, the snap is present, TLS is enabled, the unit has peers,
    and the unit is the primary or the ping of the primary's service has
    exited with 0. *)
Theorem initialise_stanza_exit_codes K E w :
  is_leader E = true ->
  (is_blocked w = true -> status_message (unit_status w) ∈ S3_BLOCK_MESSAGES) ->
  let w1 := mkWorld (app_peer_data w) (unit_peer_data w)
              (MaintenanceStatus "initialising stanza")
              (log w ++ [EvSetStatus (MaintenanceStatus "initialising stanza")]) in
  let rc := (exec E (log w1) (stanza_create_command K E) None).1.1 in
  let w2 := extend_log w1 [EvExec (stanza_create_command K E) None rc] in
  (rc = 49 -> _initialise_stanza K E w = (Raise TimeoutError, w2))
  /\ (rc <> 49 -> rc <> 0 ->
      _initialise_stanza K E w
      = (Ok tt, mkWorld (app_peer_data w) (unit_peer_data w)
                  (BlockedStatus FAILED_TO_INITIALIZE_STANZA_ERROR_MESSAGE)
                  (log w2 ++ [EvSetStatus
                                (BlockedStatus FAILED_TO_INITIALIZE_STANZA_ERROR_MESSAGE)])))
  /\ (rc = 0 ->
      forall ok w3,
        start_stop_pgbackrest_service K E w2 = (Ok ok, w3) ->
        exists service_events w',
          w3 = extend_log w2 service_events
          /\ forallb is_service_event service_events = true
          /\ _initialise_stanza K E w = (Ok tt, w')
          /\ log w' = log w2 ++ service_events
                      ++ [EvAppPeerUpdate [("stanza", stanza_name E);
                                           ("init-pgbackrest", "True")]]
          /\ app_peer_data w' !! "stanza" = Some (stanza_name E)
          /\ app_peer_data w' !! "init-pgbackrest" = Some "True"
          /\ event_before is_stanza_record is_service_restart
               (service_events ++ [EvAppPeerUpdate [("stanza", stanza_name E);
                                                    ("init-pgbackrest", "True")]])
             = false
          /\ (EvSnapRestart ∈ service_events ->
              ok = true
              /\ (exists msg, _are_backup_settings_ok E = Ok (true, msg))
              /\ snap_present E = true /\ is_tls_enabled E = true
              /\ peer_members_ips E <> []
              /\ (is_primary E = true
                  \/ exists endpoint,
                       primary_endpoint E = Some endpoint
                       /\ EvExec (server_ping_command K endpoint) None 0
                          ∈ service_events))).
Proof.
  intros Hleader Hguard w1 rc w2.
  assert (is_blocked w
          && negb (bool_decide (status_message (unit_status w) ∈ S3_BLOCK_MESSAGES))
          = false) as Hg.
  { destruct (is_blocked w); [|done]. by rewrite bool_decide_eq_true_2 by auto. }
  assert (_initialise_stanza K E w
            = bind (fun w => (Ok (exec E (log w1) (stanza_create_command K E) None), w2))
                (fun r => let '(return_code, _, stderr) := r in
                   if return_code =? 49 then raise TimeoutError
                   else if negb (return_code =? 0) then
                     set_status (BlockedStatus FAILED_TO_INITIALIZE_STANZA_ERROR_MESSAGE)
                   else
                     bind (start_stop_pgbackrest_service K E)
                       (fun _ => app_peer_update
                          [("stanza", stanza_name E); ("init-pgbackrest", "True")]))
                w) as Hrun.
  { unfold _initialise_stanza. rewrite Hleader. cbn [negb].
    unfold bind at 1. cbn [get_world]. rewrite Hg.
    unfold bind at 1, set_status at 1. unfold bind at 1.
    unfold _execute_command, bind at 1. cbn [get_world].
    unfold bind at 1. cbn [emit log]. unfold bind at 1. reflexivity. }
  rewrite Hrun. clear Hrun.
  subst rc. destruct (exec E (log w1) (stanza_create_command K E) None) as [[rc out] err].
  cbn [fst snd] in *. repeat split.
  - intros ->. reflexivity.
  - intros H49 H0. apply Z.eqb_neq in H49, H0. unfold bind at 1. cbv beta iota.
    rewrite H49, H0. reflexivity.
  - intros -> ok w3 Hsvc. unfold bind at 1. cbv beta iota.
    cbn [Z.eqb negb]. unfold bind. rewrite Hsvc.
    destruct (start_stop_pgbackrest_service_frame _ _ _ _ _ Hsvc)
      as (service_events & -> & Hev).
    pose proof (start_stop_pgbackrest_service_restart _ _ _ _ _ Hsvc) as Hrestart.
    unfold events_since, extend_log in Hrestart. cbn [log] in Hrestart.
    rewrite drop_app_length in Hrestart.
    exists service_events. eexists. split; [done|]. split; [exact Hev|].
    split; [reflexivity|]. cbn [app_peer_update log extend_log app_peer_data].
    split; [by rewrite <- !app_assoc|].
    unfold dict_update. cbn [foldl fst snd].
    split; [by rewrite lookup_insert_ne, lookup_insert_eq|].
    split; [by rewrite lookup_insert_eq|].
    split.
    2: { intros Hin. destruct (Hrestart Hin) as ([= ->] & Hrest). done. }
    clear Hsvc Hrestart. induction service_events as [|e l IH]; [reflexivity|].
    cbn [forallb] in Hev. apply andb_prop in Hev as [He Hl].
    cbn [app event_before]. rewrite (IH Hl), orb_false_r.
    destruct e; try discriminate; reflexivity.
Qed.

Lemma initialise_stanza_exit_codes_witness :
  exists w',
    _initialise_stanza sample_constants (sample_env (fun _ => 0) true None sample_s3_info)
      sample_world = (Ok tt, w')
    /\ app_peer_data w' !! "stanza" = Some "prod.postgresql"
    /\ app_peer_data w' !! "init-pgbackrest" = Some "True".
Proof.
  destruct (initialise_stanza_exit_codes sample_constants
              (sample_env (fun _ => 0) true None sample_s3_info) sample_world)
    as (_ & _ & Hok).
  - reflexivity.
  - discriminate.
  - specialize (Hok eq_refl).
    destruct (start_stop_pgbackrest_service _ _ _) as [[ok|e] w3] eqn:Hsvc;
      [|vm_compute in Hsvc; discriminate].
    destruct (Hok ok w3 eq_refl) as (service_events & w' & _ & _ & Hrun & _ & Hs & Hm & _).
    exists w'. split; [exact Hrun|]. split; [exact Hs | exact Hm].
Defined.

(** C3 as stated fails on the code in the order of its last two steps: after
    exit code 0 the restart of the TLS service is requested before the
    stanza name and the marker are recorded, not after. *)
Lemma initialise_stanza_restart_precedes_record :
  let run := _initialise_stanza sample_constants
               (sample_env (fun _ => 0) true None sample_s3_info) sample_world in
  log run.2
  = [EvSetStatus (MaintenanceStatus "initialising stanza");
     EvExec ["charmed-postgresql.pgbackrest"; "--config=/etc/pgbackrest/pgbackrest.conf";
             "--stanza=prod.postgresql"; "stanza-create"] None 0;
     EvRenderFile "/etc/pgbackrest/pgbackrest.conf";
     EvSnapRestart;
     EvAppPeerUpdate [("stanza", "prod.postgresql"); ("init-pgbackrest", "True")]]
  /\ event_before is_stanza_record is_service_restart (log run.2) = false
  /\ event_before is_service_restart is_stanza_record (log run.2) = true.
Proof. vm_compute. done. Qed.

(** ** The restore action *)

(** The checks before a restore either pass and change nothing, or fail the
    action and do nothing else, or raise from the check of the settings. *)
Lemma _pre_restore_checks_outcome E w :
  _pre_restore_checks E w = (Ok true, w)
  \/ (exists msg, _pre_restore_checks E w = (Ok false, extend_log w [EvFail msg]))
  \/ (exists e, _pre_restore_checks E w = (Raise e, w)).
Proof.
  cbv beta iota delta [_pre_restore_checks bind lift ret emit get_world].
  destruct (_are_backup_settings_ok E) as [[ok msg]|e]; [|eauto].
  destruct ok; cbn [negb]; [|eauto].
  destruct (action_backup_id E) as [[|c id]|]; [eauto| |eauto].
  destruct (is_blocked w && _); [eauto|].
  destruct (1 <? planned_units E)%nat; [eauto|].
  destruct (is_leader E); cbn [negb]; [|eauto].
  by left.
Qed.

(** The listing runs the info command once and does nothing else. *)
Lemma _list_backups_frame K E show_failed w :
  exists r rc,
    _list_backups K E show_failed w
    = (r, extend_log w [EvExec (info_command K) None rc]).
Proof.
  cbv beta iota delta [_list_backups _execute_command bind lift ret emit get_world raise].
  destruct (exec E (log w) (info_command K) None) as [[rc out] err]. cbn [fst snd].
  destruct (rc =? 0); cbn [negb]; [|eauto].
  destruct (json_loads E out); eauto.
Qed.

(** C1.  When the listing without failed backups raises [ListBackupsError],
    or returns a catalog of which the requested backup id is not a key, the
    restore action stops nothing and removes nothing: it leaves the peer
    data and the status as they were, and its only events are at most the
    query of the catalog and the failure of the action.  When the checks
    before the restore return, the action ends by failing the event. *)
Theorem restore_unknown_backup_id_no_side_effect K E w backup_id :
  action_backup_id E = Some backup_id ->
  (exists msg w1, _list_backups K E false w = (Raise (ListBackupsError msg), w1))
  \/ (exists backups w1,
        _list_backups K E false w = (Ok backups, w1) /\ backup_id ∉ od_keys backups) ->
  exists r w' new,
    _on_restore_action K E w = (r, w')
    /\ log w' = log w ++ new
    /\ (forall ok, EvStopPatroni ok ∉ new)
    /\ (forall ok, EvRemoveDataDir ok ∉ new)
    /\ Forall (fun e => (exists rc, e = EvExec (info_command K) None rc)
                        \/ exists msg, e = EvFail msg) new
    /\ app_peer_data w' = app_peer_data w
    /\ unit_peer_data w' = unit_peer_data w
    /\ unit_status w' = unit_status w
    /\ ((exists checked w0, _pre_restore_checks E w = (Ok checked, w0)) ->
        r = Ok tt /\ exists msg, last new = Some (EvFail msg)).
Proof.
  intros Hid Hlist.
  assert (exists r new,
            _on_restore_action K E w = (r, extend_log w new)
            /\ Forall (fun e => (exists rc, e = EvExec (info_command K) None rc)
                                \/ exists msg, e = EvFail msg) new
            /\ ((exists checked w0, _pre_restore_checks E w = (Ok checked, w0)) ->
                r = Ok tt /\ exists msg, last new = Some (EvFail msg)))
    as (r & new & Hrun & Hnew & Hfail).
  { unfold _on_restore_action. unfold bind at 1.
    destruct (_pre_restore_checks_outcome E w) as [Hpre|[[msg Hpre]|[e Hpre]]];
      rewrite Hpre.
    - cbn [negb]. rewrite Hid. cbn [default from_option id].
      unfold bind at 1, catch_ListBackupsError.
      destruct (_list_backups_frame K E false w) as (r & rc & Hrun).
      rewrite Hrun in Hlist |- *.
      destruct Hlist as [(m & w1 & [= -> _])|(backups & w1 & [= -> _] & Hnot)].
      + exists (Ok tt), [EvExec (info_command K) None rc;
                         EvFail "Failed to retrieve backup id"].
        split; [unfold emit, extend_log; cbn; by rewrite <- app_assoc|].
        split; [constructor; [left; eauto | constructor; [right; eauto | constructor]]|].
        intros _. split; [done | eexists; reflexivity].
      + unfold od_mem. rewrite bool_decide_eq_false_2 by exact Hnot. cbn [negb].
        exists (Ok tt), [EvExec (info_command K) None rc;
                         EvFail ("Invalid backup-id: " +:+ backup_id)].
        split; [unfold emit, extend_log; cbn; by rewrite <- app_assoc|].
        split; [constructor; [left; eauto | constructor; [right; eauto | constructor]]|].
        intros _. split; [done | eexists; reflexivity].
    - cbn [negb]. exists (Ok tt), [EvFail msg].
      split; [reflexivity|].
      split; [constructor; [right; eauto | constructor]|].
      intros _. split; [done | eexists; reflexivity].
    - exists (Raise e), []. rewrite extend_log_nil.
      split; [reflexivity|]. split; [constructor | by intros (checked & w0 & [=])]. }
  exists r, (extend_log w new), new. split; [exact Hrun|]. split; [reflexivity|].
  rewrite Forall_forall in Hnew.
  split; [intros ok Hin; destruct (Hnew _ Hin) as [[? ?]|[? ?]]; discriminate|].
  split; [intros ok Hin; destruct (Hnew _ Hin) as [[? ?]|[? ?]]; discriminate|].
  split; [by apply Forall_forall|]. done.
Qed.

Ltac not_in_list H :=
  vm_compute; intros H;
  repeat (apply elem_of_cons in H as [H|H]; [discriminate|]);
  by apply elem_of_nil in H.

Lemma restore_unknown_backup_id_no_side_effect_witness :
  exists w',
    _on_restore_action sample_constants
      (sample_env (fun _ => 0) true (Some "2023-01-02T10:15:00Z") sample_s3_info)
      sample_world = (Ok tt, w')
    /\ log w' = [EvExec (info_command sample_constants) None 0;
                 EvFail "Invalid backup-id: 2023-01-02T10:15:00Z"]
    /\ app_peer_data w' = ∅.
Proof.
  destruct (restore_unknown_backup_id_no_side_effect sample_constants
              (sample_env (fun _ => 0) true (Some "2023-01-02T10:15:00Z") sample_s3_info)
              sample_world "2023-01-02T10:15:00Z")
    as (r & w' & new & Hrun & Hlog & _ & _ & _ & Hpeer & _ & _ & Hfail).
  - reflexivity.
  - right. eexists _, _. split; [vm_compute; reflexivity|]. not_in_list H.
  - exists w'. destruct Hfail as [-> _]; [eexists _, _; vm_compute; reflexivity|].
    split; [exact Hrun|]. split; [|exact Hpeer].
    vm_compute in Hrun. by injection Hrun as <-.
Defined.

Lemma _pre_restore_checks_pass E w w0 :
  _pre_restore_checks E w = (Ok true, w0) -> w0 = w.
Proof.
  intros H. destruct (_pre_restore_checks_outcome E w) as [Hp|[[msg Hp]|[e Hp]]];
    rewrite Hp in H; by simplify_eq.
Qed.

(** ** Running a hook step by step *)

Lemma bind_ret {A B} (a : A) (f : A -> M B) w : bind (ret a) f w = f a w.
Proof. reflexivity. Qed.

Lemma bind_get_world {B} (f : world -> M B) w : bind get_world f w = f w w.
Proof. reflexivity. Qed.

Lemma bind_emit {B} e (f : unit -> M B) w :
  bind (emit e) f w = f tt (extend_log w [e]).
Proof. reflexivity. Qed.

Lemma bind_set_status {B} s (f : unit -> M B) w :
  bind (set_status s) f w
  = f tt (mkWorld (app_peer_data w) (unit_peer_data w) s (log w ++ [EvSetStatus s])).
Proof. reflexivity. Qed.

Lemma bind_app_peer_update {B} kvs (f : unit -> M B) w :
  bind (app_peer_update kvs) f w
  = f tt (mkWorld (dict_update kvs (app_peer_data w)) (unit_peer_data w)
            (unit_status w) (log w ++ [EvAppPeerUpdate kvs])).
Proof. reflexivity. Qed.

Lemma bind_lift_ok {A B} (a : A) (f : A -> M B) w : bind (lift (Ok a)) f w = f a w.
Proof. reflexivity. Qed.

Lemma bind_raise {A B} e (f : A -> M B) w : bind (raise e) f w = (Raise e, w).
Proof. reflexivity. Qed.

Lemma bind_bind {A B C} (m : M A) (f : A -> M B) (g : B -> M C) w :
  bind (bind m f) g w = bind m (fun a => bind (f a) g) w.
Proof. unfold bind. destruct (m w) as [[a|e] w']; reflexivity. Qed.

Lemma emit_run e w : emit e w = (Ok tt, extend_log w [e]).
Proof. reflexivity. Qed.

(** A command without timeout runs to its end. *)
Lemma bind_execute_command {B} E command input (f : Z * string * string -> M B) w :
  bind (_execute_command E command input None) f w
  = f (exec E (log w) command input)
      (extend_log w [EvExec command input (exec E (log w) command input).1.1]).
Proof. reflexivity. Qed.

Ltac hook_rewrite :=
  first
    [ rewrite bind_bind
    | rewrite bind_ret
    | rewrite bind_get_world
    | rewrite bind_emit
    | rewrite bind_set_status
    | rewrite bind_app_peer_update
    | rewrite bind_lift_ok
    | rewrite bind_raise
    | rewrite bind_execute_command
    | rewrite emit_run ].

Ltac hook_step :=
  repeat (progress (repeat hook_rewrite; cbv beta; unfold extend_log;
                    cbn [app_peer_data unit_peer_data unit_status log negb])).

Ltac mem_cases H :=
  repeat (apply elem_of_cons in H as [H|H]; [try discriminate|]);
  try (by apply elem_of_nil in H).

(** C9.  When a restore passes its checks and the requested backup id is a
    key of the listing, a value written under the restoring-backup key is the
    timestamp [ts] that the backup id converts to, followed by the letter F,
    or the empty string that clears the key when the removal of the data
    directory failed; with a backup id that converts, that label is written
    once the database was stopped and the removal did not fail.  The
    directive depends on the backup id alone: the id is the print of the
    timestamp of a listed label, and when the year of that timestamp is 1000
    or later the id converts, and the label made of [ts] and any one
    character lists as that backup id, whatever type suffix the catalog entry
    had.  A backup id that does not convert writes no label: the action then
    raises [ValueError] after the database was stopped and the data
    removed. *)
Theorem restore_label_always_full K E w w0 backup_id backups w1 :
  complete_format (BACKUP_ID_FORMAT K) = true ->
  complete_format (PGBACKREST_BACKUP_ID_FORMAT K) = true ->
  action_backup_id E = Some backup_id ->
  _pre_restore_checks E w = (Ok true, w0) ->
  _list_backups K E false w = (Ok backups, w1) ->
  backup_id ∈ od_keys backups ->
  exists stanza r w',
    od_get backup_id backups = Some stanza
    /\ _on_restore_action K E w = (r, w')
    /\ (forall kvs v,
          EvAppPeerUpdate kvs ∈ events_since w w' ->
          ("restoring-backup", v) ∈ kvs ->
          v = ""
          \/ exists ts, timestamp_of_backup_id K backup_id = Some ts /\ v = ts +:+ "F")
    /\ (forall ts,
          timestamp_of_backup_id K backup_id = Some ts ->
          restore_label K backup_id = Some (ts +:+ "F")
          /\ (EvStopPatroni true ∈ events_since w w' ->
              EvRemoveDataDir false ∉ events_since w w' ->
              EvAppPeerUpdate [("restoring-backup", ts +:+ "F"); ("restore-stanza", stanza)]
                ∈ events_since w w'
              /\ app_peer_data w' !! "restoring-backup" = Some (ts +:+ "F")))
    /\ (exists b dt,
          label_timestamp K (label b) = Some dt
          /\ strftime dt (BACKUP_ID_FORMAT K) = Some backup_id
          /\ ((1000 <= year dt)%nat ->
              exists ts,
                timestamp_of_backup_id K backup_id = Some ts
                /\ forall c, backup_id_of_label K (ts +:+ String c "") = Some backup_id))
    /\ (timestamp_of_backup_id K backup_id = None ->
        (forall kvs v,
           EvAppPeerUpdate kvs ∈ events_since w w' ->
           ("restoring-backup", v) ∈ kvs -> v = "")
        /\ (EvStopPatroni true ∈ events_since w w' ->
            EvRemoveDataDir false ∉ events_since w w' ->
            r = Raise ValueError)).
Proof.
  intros Hb Hp Hid Hpre Hlist Hk.
  pose proof (_pre_restore_checks_pass _ _ _ Hpre) as ->.
  destruct (_list_backups_inv _ _ _ _ _ _ Hlist)
    as (output & repositories & _ & _ & _ & Hd & ->).
  destruct (proj1 (list_backups_of_keys _ _ _ _ _ Hd) Hk) as (b & _ & Hlbl).
  destruct (backup_id_of_label_round_trip _ _ _ Hb Hp Hlbl)
    as (dt & Hdt & Hv & Hprint & Hback).
  destruct (od_get_key _ _ Hk) as [stanza Hst].
  exists stanza.
  assert (exists r new apd,
            _on_restore_action K E w
            = (r, mkWorld apd (unit_peer_data w) (MaintenanceStatus "restoring backup")
                    (log w ++ new))
            /\ (forall kvs v, EvAppPeerUpdate kvs ∈ new ->
                  ("restoring-backup", v) ∈ kvs ->
                  v = ""
                  \/ exists ts, timestamp_of_backup_id K backup_id = Some ts
                                /\ v = ts +:+ "F")
            /\ (forall ts,
                  timestamp_of_backup_id K backup_id = Some ts ->
                  EvStopPatroni true ∈ new -> EvRemoveDataDir false ∉ new ->
                  EvAppPeerUpdate [("restoring-backup", ts +:+ "F");
                                   ("restore-stanza", stanza)] ∈ new
                  /\ apd !! "restoring-backup" = Some (ts +:+ "F"))
            /\ (timestamp_of_backup_id K backup_id = None ->
                (forall kvs v, EvAppPeerUpdate kvs ∈ new ->
                   ("restoring-backup", v) ∈ kvs -> v = "")
                /\ (EvStopPatroni true ∈ new -> EvRemoveDataDir false ∉ new ->
                    r = Raise ValueError)))
    as (r & new & apd & Hrun & Hany & Hwritten & Hnone).
  { unfold _on_restore_action. unfold bind at 1. rewrite Hpre. cbn [negb].
    rewrite Hid. cbn [default from_option id].
    unfold bind at 1, catch_ListBackupsError. rewrite Hlist.
    unfold od_mem. rewrite bool_decide_eq_true_2 by exact Hk. cbn [negb].
    rewrite Hst. unfold restore_label.
    destruct (timestamp_of_backup_id K backup_id) as [ts|] eqn:Hts;
      cbn [mbind option_bind]; unfold or_ValueError.
    all: hook_step.
    all: set (stopped := stop_patroni_ok E _); destruct stopped; hook_step.
    2, 4: eexists _, [_; _; _; _], _; rewrite <- !app_assoc; (split; [reflexivity|]);
      (split; [intros kvs v Hin; mem_cases Hin|]);
      (split; [intros ts' _ Hstop; mem_cases Hstop|]);
      intros _; (split; [intros kvs v Hin; mem_cases Hin | intros Hstop; mem_cases Hstop]).
    all: unfold _empty_data_files; hook_step.
    all: set (existing := data_dir_exists E _); set (removed := rmtree_ok E _).
    all: unfold _restart_database, _execute_command.
    all: destruct existing; hook_step; [destruct removed; hook_step|].
    2, 5: eexists _, [_; _; _; _; _; _; _; _], _; rewrite <- !app_assoc;
      (split; [reflexivity|]);
      (split; [intros kvs v Hin Hkv; mem_cases Hin; injection Hin as ->; mem_cases Hkv;
               injection Hkv as ->; by left|]);
      (split; [intros ts' _ _ Hrm; exfalso; apply Hrm; rewrite !elem_of_cons; auto 10|]);
      intros _;
      (split; [intros kvs v Hin Hkv; mem_cases Hin; injection Hin as ->; mem_cases Hkv;
               by injection Hkv as ->
              | intros _ Hrm; exfalso; apply Hrm; rewrite !elem_of_cons; auto 10]).
    1, 2: set (late := exec_exceeds E _ _ _); destruct late; hook_step.
    1-4: try (set (out := exec E _ _ _); destruct out as [[rc o] err]; cbn [fst snd];
              destruct (rc =? 0); hook_step).
    1-6: eexists _, _, _; rewrite <- ?app_assoc; cbn [app];
      (split; [reflexivity|]);
      (split; [intros kvs v Hin Hkv; mem_cases Hin; injection Hin as ->; mem_cases Hkv;
               injection Hkv as ->; right; by exists ts|]);
      (split; [|intros [=]]);
      intros ts' [= <-] _ _; (split; [rewrite !elem_of_cons; by auto 10|]);
      unfold dict_update; cbn [foldl fst snd];
      by rewrite lookup_insert_ne, lookup_insert_eq.
    all: eexists _, _, _; rewrite <- ?app_assoc; cbn [app];
      (split; [reflexivity|]);
      (split; [intros kvs v Hin; mem_cases Hin|]);
      (split; [intros ts' [=]|]);
      intros _; (split; [intros kvs v Hin; mem_cases Hin | done]). }
  exists r. eexists. split; [exact Hst|]. split; [exact Hrun|].
  unfold events_since. cbn [log]. rewrite drop_app_length.
  split; [exact Hany|]. split.
  { intros ts Hts. split; [unfold restore_label; by rewrite Hts|]. by apply Hwritten. }
  split; [|exact Hnone].
  exists b, dt. split; [exact Hdt|]. split; [exact Hprint|]. intros Hy.
  destruct (Hback Hy) as (ts & H1 & H2 & H3). exists ts. split.
  - unfold timestamp_of_backup_id. by rewrite H1.
  - intros c. unfold backup_id_of_label. rewrite drop_last_append_char, H3. exact Hprint.
Qed.

Lemma restore_label_always_full_witness :
  exists w',
    _on_restore_action sample_constants
      (sample_env (fun _ => 0) true (Some "2023-01-03T23:59:59Z") sample_s3_info)
      sample_world = (Ok tt, w')
    /\ restore_label sample_constants "2023-01-03T23:59:59Z" = Some "20230103-235959F"
    /\ app_peer_data w' !! "restoring-backup" = Some "20230103-235959F".
Proof.
  edestruct (restore_label_always_full sample_constants
               (sample_env (fun _ => 0) true (Some "2023-01-03T23:59:59Z") sample_s3_info)
               sample_world sample_world "2023-01-03T23:59:59Z")
    as (stanza & r & w' & _ & Hrun & _ & Hwritten & _).
  - reflexivity.
  - reflexivity.
  - reflexivity.
  - vm_compute. reflexivity.
  - vm_compute. reflexivity.
  - vm_compute. repeat constructor.
  - destruct (Hwritten "20230103-235959") as [Hrl Hpeer]; [vm_compute; reflexivity|].
    destruct Hpeer as [_ Hpeer].
    + change w' with (r, w').2. rewrite <- Hrun. vm_compute. repeat constructor.
    + change w' with (r, w').2. rewrite <- Hrun. vm_compute. intros H. mem_cases H.
    + assert (r = Ok tt) as ->.
      { change r with (r, w').1. rewrite <- Hrun. vm_compute. reflexivity. }
      exists w'. split; [exact Hrun|]. split; [exact Hrl | exact Hpeer].
Defined.

(** A listed backup id of the year 999 passes the checks of the restore and
    does not convert: the database is stopped, the data directory removed,
    and the action raises [ValueError] with no directive written. *)
Lemma restore_unconvertible_id_raises :
  let E := mkEnv "prod" "postgresql" "postgresql/0" "postgresql" "2.9.42"
             true true true 1 true [] None true sample_s3_info true
             (Some "999-01-01T00:00:00Z")
             (fun _ => true) (fun _ _ _ => (0, "catalog", ""))
             (fun _ _ _ => false) (fun _ => Some ancient_catalog) (fun _ _ _ _ => true)
             (fun _ => true) (fun _ => true) (fun _ => true)
             (fun _ => mkDatetime 2023 1 4 12 0 0) in
  _on_restore_action sample_constants E sample_world
  = (Raise ValueError,
     mkWorld ∅ ∅ (MaintenanceStatus "restoring backup")
       [EvExec (info_command sample_constants) None 0;
        EvSetStatus (MaintenanceStatus "restoring backup");
        EvStopPatroni true; EvRemoveDataDir true]).
Proof. vm_compute. reflexivity. Qed.

(** ** The backup run *)

Lemma strftime_label_of_now dt : strftime dt "%Y%m%d-%H%M%SF" = Some (label_of_now dt).
Proof. reflexivity. Qed.

(** The upload with complete parameters: one event, whose answer is the
    result. *)
Lemma _upload_content_to_s3_run E content s3_path s3_parameters path bucket w :
  s3_parameters !! "path" = Some (PyStr path) ->
  s3_parameters !! "bucket" = Some (PyStr bucket) ->
  _upload_content_to_s3 E content s3_path s3_parameters w
  = (Ok (upload_ok E (log w) bucket (object_key path s3_path) content),
     extend_log w [EvUpload bucket (object_key path s3_path) content
                     (upload_ok E (log w) bucket (object_key path s3_path) content)]).
Proof.
  intros Hp Hb. unfold _upload_content_to_s3, bind, lift, getitem, get_world, emit, ret.
  rewrite Hb, Hp. reflexivity.
Qed.

(** C4.  With the path and the bucket among the S3 parameters: when the
    backup command exits with a code other than 0, the run uploads the log
    once and then fails the action with the engine's stderr, whatever the
    upload answered; when it exits 0 and the upload of the log answers
    false, the run ends by failing the action and sets no result. *)
Theorem run_backup_log_upload K E s3_parameters requested w path bucket :
  s3_parameters !! "path" = Some (PyStr path) ->
  s3_parameters !! "bucket" = Some (PyStr bucket) ->
  let out := exec E (log w) (backup_command K E) None in
  let rc := out.1.1 in
  let logs := backup_logs out.1.2 out.2 in
  exists r w',
    _run_backup K E s3_parameters requested w = (r, w')
    /\ (rc <> 0 ->
        exists ok,
          r = Ok tt
          /\ events_since w w'
             = [EvExec (backup_command K E) None rc;
                EvUpload bucket
                  (object_key path
                     (backup_log_path E path
                        (failed_backup_id E out.1.2
                           (log w ++ [EvExec (backup_command K E) None rc]))))
                  logs ok;
                EvFail ("Failed to backup PostgreSQL with error: " +:+ out.2)])
    /\ (rc = 0 ->
        forall key,
          EvUpload bucket key logs false ∈ events_since w w' ->
          r = Ok tt
          /\ last (events_since w w') = Some (EvFail "Error uploading logs to S3")
          /\ forall k v, EvSetResults k v ∉ events_since w w').
Proof.
  intros Hp Hb out rc logs.
  assert (getitem s3_parameters "path" ≫= as_path = Ok path) as Hpath
    by (unfold getitem; by rewrite Hp).
  unfold _run_backup. rewrite bind_execute_command. fold out.
  subst rc logs. destruct out as [[rc stdout] stderr]. cbn [fst snd].
  destruct (rc =? 0) eqn:Hrc; cbn [negb].
  - apply Z.eqb_eq in Hrc as ->.
    set (w1 := extend_log w _).
    unfold bind at 1. unfold catch_ListBackupsError. unfold bind at 1.
    destruct (_list_backups_frame K E true w1) as (r & rc' & Hlist). rewrite Hlist.
    destruct r as [backups|e].
    + destruct (last (od_keys backups)) as [backup_id|] eqn:Hlast.
      * cbv beta iota. unfold ret at 1. rewrite Hpath. rewrite bind_lift_ok.
        unfold bind at 1.
        rewrite (_upload_content_to_s3_run E _ _ _ path bucket) by assumption.
        set (ok := upload_ok E _ _ _ _). destruct ok; cbn [negb]; rewrite emit_run.
        -- eexists _, _. split; [reflexivity|]. split; [done|]. intros _ key Hin.
           exfalso. unfold events_since, w1, extend_log in Hin.
           cbn [log] in Hin. rewrite <- !app_assoc, drop_app_length in Hin.
           cbn [app] in Hin.
           repeat (apply elem_of_cons in Hin as [Hin|Hin]; [discriminate|]).
           by apply elem_of_nil in Hin.
        -- eexists _, _. split; [reflexivity|]. split; [done|]. intros _ key _.
           unfold events_since, w1, extend_log. cbn [log].
           rewrite <- !app_assoc, drop_app_length. cbn [app].
           split; [done|]. split; [done|]. intros k v Hin.
           repeat (apply elem_of_cons in Hin as [Hin|Hin]; [discriminate|]).
           by apply elem_of_nil in Hin.
      * cbv beta iota. unfold raise at 1.
        eexists _, _. split; [reflexivity|]. split; [done|]. intros _ key Hin.
        exfalso. unfold events_since, w1, extend_log in Hin.
        cbn [log] in Hin. rewrite <- !app_assoc, drop_app_length in Hin.
        cbn [app] in Hin.
        repeat (apply elem_of_cons in Hin as [Hin|Hin]; [discriminate|]).
        by apply elem_of_nil in Hin.
    + destruct e; cbv beta iota; try rewrite emit_run;
        eexists _, _; (split; [reflexivity|]); (split; [done|]); intros _ key Hin;
        exfalso; unfold events_since, w1, extend_log in Hin;
        cbn [log] in Hin; rewrite <- ?app_assoc, drop_app_length in Hin;
        cbn [app] in Hin;
        repeat (apply elem_of_cons in Hin as [Hin|Hin]; [discriminate|]);
        by apply elem_of_nil in Hin.
  - apply Z.eqb_neq in Hrc.
    rewrite bind_get_world. cbn [extend_log log].
    unfold failed_backup_id.
    destruct (find_backup_label stdout) as [lbl|];
      [rewrite bind_ret
      |rewrite strftime_label_of_now; unfold or_ValueError; rewrite bind_lift_ok].
    all: rewrite Hpath, bind_lift_ok; unfold bind at 1.
    all: rewrite (_upload_content_to_s3_run E _ _ _ path bucket) by assumption.
    all: rewrite emit_run.
    all: eexists _, _; (split; [reflexivity|]); (split; [|done]); intros _.
    all: eexists; (split; [reflexivity|]).
    all: unfold events_since, extend_log; cbn [log].
    all: rewrite <- !app_assoc, drop_app_length; reflexivity.
Qed.

Lemma run_backup_log_upload_witness :
  exists w',
    _run_backup sample_constants (sample_env (fun _ => 0) false None sample_s3_info)
      (<["path" := PyStr "/postgresql"]> (<["bucket" := PyStr "backups"]> ∅))
      "2023-01-04T12:00:00Z" sample_world = (Ok tt, w')
    /\ last (log w') = Some (EvFail "Error uploading logs to S3").
Proof.
  destruct (run_backup_log_upload sample_constants
              (sample_env (fun _ => 0) false None sample_s3_info)
              (<["path" := PyStr "/postgresql"]> (<["bucket" := PyStr "backups"]> ∅))
              "2023-01-04T12:00:00Z" sample_world "/postgresql" "backups")
    as (r & w' & Hrun & _ & Hok).
  - vm_compute. reflexivity.
  - vm_compute. reflexivity.
  - edestruct (Hok eq_refl) as (-> & Hlast & _).
    + change w' with (r, w').2. rewrite <- Hrun. vm_compute. repeat constructor.
    + exists w'. split; [exact Hrun | exact Hlast].
Defined.

(** * Further properties *)

(** ** Catalog order *)

Lemma od_set_fresh k v d : k ∉ od_keys d -> od_set k v d = d ++ [(k, v)].
Proof.
  unfold od_keys. induction d as [|[k0 v0] d IH]; [done|]. cbn.
  rewrite not_elem_of_cons. intros [Hne Hd].
  destruct (String.eqb k k0) eqn:He; [by apply String.eqb_eq in He|].
  by rewrite IH.
Qed.

Lemma foldl_od_set_fresh pairs d :
  NoDup (od_keys d ++ pairs.*1) ->
  foldl (fun d p => od_set p.1 p.2 d) d pairs = d ++ pairs.
Proof.
  revert d. induction pairs as [|[k v] pairs IH]; intros d Hnd; cbn.
  - by rewrite app_nil_r.
  - cbn in Hnd. apply NoDup_app in Hnd as (Hd & Hdisj & Hp).
    apply NoDup_cons in Hp as [Hk Hp].
    assert (k ∉ od_keys d) as Hfresh by (intros Hin; apply (Hdisj k Hin); left).
    rewrite (od_set_fresh k v d Hfresh), IH, <- app_assoc; [done|].
    unfold od_keys in *. rewrite fmap_app. cbn. rewrite <- app_assoc. cbn.
    apply NoDup_app. split; [exact Hd|]. split.
    + intros x Hx. rewrite elem_of_cons. intros [->|Hin]; [done|].
      apply (Hdisj x Hx). by right.
    + by apply NoDup_cons.
Qed.

Lemma od_set_NoDup k v d : NoDup (od_keys d) -> NoDup (od_keys (od_set k v d)).
Proof.
  unfold od_keys. induction d as [|[k0 v0] d IH]; cbn.
  - intros _. apply NoDup_singleton.
  - rewrite NoDup_cons. intros [Hk Hd].
    destruct (String.eqb k k0) eqn:He; cbn; apply NoDup_cons.
    + done.
    + split; [|by apply IH].
      intros Hin. apply (od_keys_od_set k v d k0) in Hin as [->|Hin]; [|done].
      by rewrite String.eqb_refl in He.
Qed.

Lemma OrderedDict_NoDup pairs : NoDup (od_keys (OrderedDict pairs)).
Proof.
  unfold OrderedDict.
  assert (forall d, NoDup (od_keys d) ->
            NoDup (od_keys (foldl (fun d p => od_set p.1 p.2 d) d pairs))) as H.
  { induction pairs as [|p pairs IH]; intros d Hd; [done|].
    cbn. apply IH. by apply od_set_NoDup. }
  apply H. constructor.
Qed.

(** X1.  The keys of the catalog listing are pairwise distinct, and when the
    backup ids of the listed entries are pairwise distinct the keys are those
    ids in the order of the engine's output, so that the last key, which the
    backup run takes for the backup just made, is the id of the last listed
    entry. *)
Theorem listing_keeps_catalog_order K show_failed repositories backups :
  list_backups_of K show_failed repositories = Ok backups ->
  NoDup (od_keys backups)
  /\ forall ids,
       Forall2 (fun b backup_id => backup_id_of_label K (label b) = Some backup_id)
         (selected show_failed (catalog_entries repositories)) ids ->
       NoDup ids ->
       od_keys backups = ids /\ last (od_keys backups) = last ids.
Proof.
  unfold list_backups_of, catalog_entries. intros H.
  destruct repositories as [|r rest].
  - injection H as <-. split; [constructor|].
    intros ids Hids _. apply Forall2_nil_inv_l in Hids as ->. done.
  - destruct (catalog_pairs K (name r) (selected show_failed (backup r)))
      as [pairs|] eqn:Hp; [|discriminate].
    injection H as <-. split; [apply OrderedDict_NoDup|].
    intros ids Hids Hnd.
    assert (pairs.*1 = ids) as Hkeys.
    { apply catalog_pairs_inv in Hp. clear Hnd.
      revert ids Hids. induction Hp as [|b p bs ps [Hb _] _ IH]; intros ids Hids.
      - by apply Forall2_nil_inv_l in Hids as ->.
      - apply Forall2_cons_inv_l in Hids as (backup_id & ids' & Hb' & Hids' & ->).
        cbn. rewrite (IH ids' Hids'). congruence. }
    assert (OrderedDict pairs = pairs) as ->.
    { unfold OrderedDict. rewrite foldl_od_set_fresh; [done|]. cbn. by rewrite Hkeys. }
    unfold od_keys. by rewrite Hkeys.
Qed.

Lemma listing_keeps_catalog_order_witness :
  od_keys [("2023-01-01T00:00:00Z", "prod.postgresql");
           ("2023-01-03T23:59:59Z", "prod.postgresql")]
  = ["2023-01-01T00:00:00Z"; "2023-01-03T23:59:59Z"].
Proof.
  destruct (listing_keeps_catalog_order sample_constants false sample_catalog
              [("2023-01-01T00:00:00Z", "prod.postgresql");
               ("2023-01-03T23:59:59Z", "prod.postgresql")]) as [_ H].
  - vm_compute. reflexivity.
  - apply (H ["2023-01-01T00:00:00Z"; "2023-01-03T23:59:59Z"]).
    + rewrite selected_false. cbn [catalog_entries sample_catalog backup].
      rewrite filter_cons_True by reflexivity.
      rewrite filter_cons_False by (by vm_compute).
      rewrite filter_cons_True by reflexivity.
      constructor; [vm_compute; reflexivity|].
      constructor; [vm_compute; reflexivity|]. constructor.
    + repeat (apply NoDup_cons; split; [vm_compute; intros Hin;
        repeat (apply elem_of_cons in Hin as [Hin|Hin]; [discriminate|]);
        by apply elem_of_nil in Hin|]).
      constructor.
Defined.

(** X2.  The listing raises [ValueError] exactly when the label of a listed
    entry is rejected by [strptime], and returns a catalog otherwise; a
    failed entry is a listed one only with [show_failed], so its label can
    break the listing with the failed backups and leave the other alone. *)
Theorem listing_rejects_malformed_label K show_failed repositories :
  ((exists b, b ∈ selected show_failed (catalog_entries repositories)
              /\ backup_id_of_label K (label b) = None)
   -> list_backups_of K show_failed repositories = Raise ValueError)
  /\ ((forall b, b ∈ selected show_failed (catalog_entries repositories) ->
                 is_Some (backup_id_of_label K (label b)))
      -> exists backups, list_backups_of K show_failed repositories = Ok backups).
Proof.
  unfold list_backups_of, catalog_entries.
  destruct repositories as [|r rest].
  - split; [by intros (b & ?%elem_of_nil & _) | eauto].
  - split.
    + intros (b & Hin & Hb).
      assert (catalog_pairs K (name r) (selected show_failed (backup r)) = Raise ValueError)
        as ->; [|done].
      induction (selected show_failed (backup r)) as [|b0 bs IH];
        [by apply elem_of_nil in Hin|].
      cbn. apply elem_of_cons in Hin as [<-|Hin].
      * by rewrite Hb.
      * destruct (backup_id_of_label K (label b0)); [|done]. cbn.
        by rewrite (IH Hin).
    + intros Hall.
      destruct (catalog_pairs_total K (name r) (selected show_failed (backup r)))
        as [pairs ->]; [by apply Forall_forall | cbn; eauto].
Qed.

Lemma listing_rejects_malformed_label_witness :
  list_backups_of sample_constants true
    [ {| name := "prod.postgresql";
         backup := [ {| label := "20230101-000000F"; error := PyNone |};
                     {| label := "20230101-000000F_20230102-000000D";
                        error := PyStr "aborted" |} ] |} ]
  = Raise ValueError
  /\ exists backups,
       list_backups_of sample_constants false
         [ {| name := "prod.postgresql";
              backup := [ {| label := "20230101-000000F"; error := PyNone |};
                          {| label := "20230101-000000F_20230102-000000D";
                             error := PyStr "aborted" |} ] |} ]
       = Ok backups.
Proof.
  split.
  - apply (proj1 (listing_rejects_malformed_label sample_constants true _)).
    exists {| label := "20230101-000000F_20230102-000000D"; error := PyStr "aborted" |}.
    split; [|vm_compute; reflexivity].
    rewrite selected_true. apply list_elem_of_further, list_elem_of_here.
  - apply (proj2 (listing_rejects_malformed_label sample_constants false _)).
    intros b Hb. rewrite selected_false in Hb.
    cbn [catalog_entries backup] in Hb.
    rewrite filter_cons_True in Hb by reflexivity.
    rewrite filter_cons_False in Hb by (by vm_compute).
    apply elem_of_cons in Hb as [->|Hb]; [vm_compute; eauto|].
    by apply elem_of_nil in Hb.
Defined.

(** ** The table of backups *)

Lemma length_append (a b : string) :
  String.length (a +:+ b) = (String.length a + String.length b)%nat.
Proof.
  induction a as [|c a IH]; [reflexivity|].
  change (S (String.length (a +:+ b)) = S (String.length a + String.length b)).
  by rewrite IH.
Qed.

Lemma length_repeat_char c n : String.length (repeat_char c n) = n.
Proof. induction n as [|n IH]; [reflexivity|]. cbn. by rewrite IH. Qed.

Lemma length_ljust n s : String.length (ljust n s) = Nat.max n (String.length s).
Proof. unfold ljust. rewrite length_append, length_repeat_char. lia. Qed.

(** X3.  A row of the table is as long as its two padded columns, the two
    separators and the status; fields that fit their columns (21 and 12
    characters) put the status at offset 39, where the header has it, and a
    longer field is not cut but pushes the rest of its row to the right. *)
Theorem format_row_columns a b c :
  String.length (format_row a b c)
  = (Nat.max 21 (String.length a) + 3 + Nat.max 12 (String.length b) + 3
     + String.length c)%nat
  /\ (exists columns, format_row a b c = columns +:+ c
        /\ String.length columns
           = (Nat.max 21 (String.length a) + Nat.max 12 (String.length b) + 6)%nat)
  /\ ((String.length a <= 21)%nat -> (String.length b <= 12)%nat ->
      exists columns, format_row a b c = columns +:+ c /\ String.length columns = 39%nat).
Proof.
  assert (format_row a b c = (ljust 21 a +:+ " | " +:+ ljust 12 b +:+ " | ") +:+ c) as Hrow.
  { unfold format_row. by rewrite !append_assoc'. }
  assert (String.length (ljust 21 a +:+ " | " +:+ ljust 12 b +:+ " | ")
          = (Nat.max 21 (String.length a) + Nat.max 12 (String.length b) + 6)%nat) as Hlen.
  { rewrite !length_append, !length_ljust. cbn [String.length]. lia. }
  split; [rewrite Hrow, length_append, Hlen; lia|].
  split; [eexists; split; [exact Hrow | exact Hlen]|].
  intros Ha Hb. eexists. split; [exact Hrow|]. rewrite Hlen. lia.
Qed.

Lemma format_row_columns_witness :
  exists columns,
    format_row "2023-01-01T00:00:00Z" "physical" "finished" = columns +:+ "finished"
    /\ String.length columns = 39%nat.
Proof.
  apply (proj2 (proj2 (format_row_columns "2023-01-01T00:00:00Z" "physical" "finished")));
    vm_compute; lia.
Defined.

Lemma take_token_append s rest :
  no_space s = true ->
  take_token (s +:+ String " " rest) = s.
Proof.
  induction s as [|c s IH]; [reflexivity|]. cbn [no_space].
  intros [Hc Hs]%andb_prop.
  change (take_token (String c (s +:+ String " " rest)) = String c s).
  cbn [take_token]. apply negb_true_iff in Hc. by rewrite Hc, IH.
Qed.

(** X4.  The first word of a row is its backup id, whenever the id is not
    empty and has no white space in it: what a reader of the table takes
    with [split()[0]] is the id to hand to the restore action. *)
Theorem first_token_of_row backup_id backup_type backup_status :
  backup_id <> "" ->
  no_space backup_id = true ->
  first_token (format_row backup_id backup_type backup_status) = Some backup_id.
Proof.
  intros Hne Hns.
  assert (exists rest,
            format_row backup_id backup_type backup_status
            = backup_id +:+ String " " rest) as [rest Hrow].
  { unfold format_row, ljust. rewrite !append_assoc'.
    destruct (21 - String.length backup_id)%nat; cbn [repeat_char]; eauto. }
  rewrite Hrow. unfold first_token.
  destruct backup_id as [|c s]; [done|].
  cbn [no_space] in Hns. apply andb_prop in Hns as [Hc Hs].
  apply negb_true_iff in Hc.
  change (String c s +:+ String " " rest) with (String c (s +:+ String " " rest)).
  cbn [PyStr.lstrip_by]. rewrite Hc.
  change (String c (s +:+ String " " rest)) with (String c s +:+ String " " rest).
  rewrite take_token_append; [done|]. cbn [no_space]. by rewrite Hc, Hs.
Qed.

Lemma first_token_of_row_witness :
  first_token (format_row "2023-01-01T00:00:00Z" "physical" "finished")
  = Some "2023-01-01T00:00:00Z".
Proof. apply first_token_of_row; [discriminate | vm_compute; reflexivity]. Defined.

Lemma backup_rows_inv K backups rows :
  backup_rows K backups = Ok rows ->
  Forall2 (fun b row => backup_id_of_label K (label b) = Some row.1.1
                        /\ row.1.2 = "physical"
                        /\ row.2 = backup_status_of b) backups rows.
Proof.
  revert rows. induction backups as [|b backups IH]; intros rows; cbn.
  - intros [= <-]. constructor.
  - destruct (backup_id_of_label K (label b)) as [backup_id|] eqn:Hb; cbn; [|discriminate].
    destruct (backup_rows K backups) as [rest|]; cbn; [|discriminate].
    intros [= <-]. constructor; [|by apply IH].
    split; [exact Hb|]. split; reflexivity.
Qed.

Lemma failed_status_not_finished b :
  truthy (error b) = true -> backup_status_of b <> "finished".
Proof. unfold backup_status_of. intros ->. discriminate. Qed.

(** X5.  When the table of the list-backups action can be built, the listing
    that the restore action consults exists too, and the backup ids it
    accepts are exactly the ids of the rows whose status is finished: a
    failed backup is shown, with its error, and cannot be restored unless a
    finished entry has the same id. *)
Theorem restorable_ids_are_finished_rows K repositories rows :
  backup_rows K (catalog_entries repositories) = Ok rows ->
  exists backups,
    list_backups_of K false repositories = Ok backups
    /\ forall backup_id,
         backup_id ∈ od_keys backups <-> (backup_id, "physical", "finished") ∈ rows.
Proof.
  intros Hrows%backup_rows_inv.
  assert (exists backups, list_backups_of K false repositories = Ok backups)
    as [backups Hl].
  { unfold list_backups_of, catalog_entries in *. destruct repositories as [|r rest]; [eauto|].
    destruct (catalog_pairs_total K (name r) (selected false (backup r))) as [ps ->];
      [|cbn; eauto].
    rewrite selected_false. apply Forall_forall. intros b [_ Hb]%list_elem_of_filter.
    apply list_elem_of_lookup in Hb as [i Hi].
    destruct (Forall2_lookup_l _ _ _ _ _ Hrows Hi) as (row & _ & Hid & _). eauto. }
  exists backups. split; [exact Hl|]. intros backup_id.
  rewrite (list_backups_of_keys _ _ _ _ _ Hl), selected_false. split.
  - intros (b & [He Hb]%list_elem_of_filter & Hid).
    apply list_elem_of_lookup in Hb as [i Hi].
    destruct (Forall2_lookup_l _ _ _ _ _ Hrows Hi) as ([[id ty] st] & Hrow & Hid' & Hty & Hst).
    cbn in *. unfold backup_status_of in Hst. rewrite He in Hst.
    apply list_elem_of_lookup. exists i. rewrite Hrow. congruence.
  - intros Hin. apply list_elem_of_lookup in Hin as [i Hi].
    destruct (Forall2_lookup_r _ _ _ _ _ Hrows Hi) as (b & Hb & Hid & _ & Hst).
    cbn in *. exists b. split; [|done].
    apply list_elem_of_filter. split; [|by eapply list_elem_of_lookup_2].
    destruct (truthy (error b)) eqn:He; [|done].
    by apply failed_status_not_finished in He.
Qed.

Lemma restorable_ids_are_finished_rows_witness :
  exists backups,
    list_backups_of sample_constants false sample_catalog = Ok backups
    /\ ("2023-01-02T10:15:00Z" ∈ od_keys backups
        <-> ("2023-01-02T10:15:00Z", "physical", "finished")
            ∈ [("2023-01-01T00:00:00Z", "physical", "finished");
               ("2023-01-02T10:15:00Z", "physical", "failed: backup aborted");
               ("2023-01-03T23:59:59Z", "physical", "finished")]).
Proof.
  destruct (restorable_ids_are_finished_rows sample_constants sample_catalog
              [("2023-01-01T00:00:00Z", "physical", "finished");
               ("2023-01-02T10:15:00Z", "physical", "failed: backup aborted");
               ("2023-01-03T23:59:59Z", "physical", "finished")])
    as (backups & Hl & Hiff).
  - vm_compute. reflexivity.
  - exists backups. split; [exact Hl | apply Hiff].
Defined.

(** X6.  When the engine's output decodes to an empty list of repositories,
    the listing used by backup and restore is the empty catalog, but the
    table generator indexes the first repository and raises [IndexError],
    which the list-backups action does not catch: it neither sets a result
    nor fails the event. *)
Theorem list_backups_action_empty_repository K E show_failed w :
  (exec E (log w) (info_command K) None).1.1 = 0 ->
  json_loads E (exec E (log w) (info_command K) None).1.2 = Some [] ->
  let w1 := extend_log w [EvExec (info_command K) None 0] in
  _list_backups K E show_failed w = (Ok [], w1)
  /\ _generate_backup_list_output K E w = (Raise IndexError, w1)
  /\ (_are_backup_settings_ok E = Ok (true, None) ->
      _on_list_backups_action K E w = (Raise IndexError, w1)).
Proof.
  intros Hrc Hjson w1.
  assert (_list_backups K E show_failed w = (Ok [], w1)) as Hl.
  { unfold _list_backups. rewrite bind_execute_command.
    destruct (exec E (log w) (info_command K) None) as [[rc out] err].
    cbn [fst snd] in *. subst rc. cbn [Z.eqb negb]. by rewrite Hjson. }
  assert (_generate_backup_list_output K E w = (Raise IndexError, w1)) as Hg.
  { unfold _generate_backup_list_output. rewrite bind_execute_command.
    destruct (exec E (log w) (info_command K) None) as [[rc out] err].
    cbn [fst snd] in *. subst rc. cbn [Z.eqb negb]. by rewrite Hjson. }
  split; [exact Hl|]. split; [exact Hg|].
  intros Hs. unfold _on_list_backups_action. rewrite Hs, bind_lift_ok. cbn [negb].
  unfold bind, catch_ListBackupsError_message. by rewrite Hg.
Qed.

Lemma list_backups_action_empty_repository_witness :
  let E := mkEnv "prod" "postgresql" "postgresql/0" "postgresql" "2.9.42"
             true true true 1 true [] None true sample_s3_info true None
             (fun _ => true) (fun _ _ _ => (0, "[]", ""))
             (fun _ _ _ => false) (fun _ => Some []) (fun _ _ _ _ => true)
             (fun _ => true) (fun _ => true) (fun _ => true)
             (fun _ => mkDatetime 2023 1 4 12 0 0) in
  _on_list_backups_action sample_constants E sample_world
  = (Raise IndexError,
     extend_log sample_world [EvExec (info_command sample_constants) None 0]).
Proof.
  intros E.
  apply (proj2 (proj2 (list_backups_action_empty_repository sample_constants E false
                         sample_world eq_refl eq_refl))).
  vm_compute. reflexivity.
Defined.

(** ** Ownership of the repository *)

Lemma _execute_command_timeout_run E command input t w :
  _execute_command E command input (Some t) w
  = if exec_exceeds E (log w) command t
    then (Raise TimeoutExpired, extend_log w [EvExecTimedOut command])
    else (Ok (exec E (log w) command input),
          extend_log w [EvExec command input (exec E (log w) command input).1.1]).
Proof.
  unfold _execute_command. rewrite bind_get_world.
  destruct (exec_exceeds E (log w) command t); reflexivity.
Qed.

(** X7.  The check of the repository's owner surfaces a timeout of the info
    command as [TimeoutError]; a non-zero exit code makes it answer false
    with the stanza initialisation message; and on a unit that is not the
    leader an exit code of 0 makes it answer true without the output being
    decoded.  None of the three touches the peer data or the status. *)
Theorem can_use_s3_repository_without_inspection K E w :
  let command := info_command K in
  let out := exec E (log w) command None in
  (exec_exceeds E (log w) command 30 = true ->
   can_use_s3_repository K E w
   = (Raise TimeoutError, extend_log w [EvExecTimedOut command]))
  /\ (exec_exceeds E (log w) command 30 = false -> out.1.1 <> 0 ->
      can_use_s3_repository K E w
      = (Ok (false, Some FAILED_TO_INITIALIZE_STANZA_ERROR_MESSAGE),
         extend_log w [EvExec command None out.1.1]))
  /\ (exec_exceeds E (log w) command 30 = false -> out.1.1 = 0 ->
      is_leader E = false ->
      can_use_s3_repository K E w
      = (Ok (true, None), extend_log w [EvExec command None 0])).
Proof.
  cbv zeta. unfold can_use_s3_repository, timeout_as_TimeoutError, bind.
  rewrite !_execute_command_timeout_run.
  destruct (exec E (log w) (info_command K) None) as [[rc stdout] stderr]. cbn [fst snd].
  repeat split.
  - by intros ->.
  - intros -> Hrc%Z.eqb_neq. by rewrite Hrc.
  - intros -> -> ->. reflexivity.
Qed.

Lemma can_use_s3_repository_without_inspection_witness :
  can_use_s3_repository sample_constants (sample_env (fun _ => 1) true None sample_s3_info)
    sample_world
  = (Ok (false, Some FAILED_TO_INITIALIZE_STANZA_ERROR_MESSAGE),
     extend_log sample_world [EvExec (info_command sample_constants) None 1]).
Proof.
  apply (proj1 (proj2 (can_use_s3_repository_without_inspection sample_constants
                         (sample_env (fun _ => 1) true None sample_s3_info) sample_world)));
    [reflexivity | discriminate].
Defined.

Lemma find_none_all {A} (p : A -> bool) (l : list A) :
  find p l = None <-> forall x, x ∈ l -> p x = false.
Proof.
  induction l as [|a l IH]; cbn.
  - split; [by intros _ x ?%elem_of_nil | done].
  - destruct (p a) eqn:Ha.
    + split; [done|]. intros H. specialize (H a (list_elem_of_here _ _)). congruence.
    + rewrite IH. split.
      * intros H x [->|Hx]%elem_of_cons; auto.
      * intros H x Hx. apply H. by right.
Qed.

(** X8.  On the leader, after an info command that exits 0 with output that
    decodes: when every repository bears the recorded stanza name (the name
    of this cluster when none is recorded) the answer is true and nothing is
    changed; as soon as one bears another name the answer is false with the
    other-cluster message, the stanza name is set to the empty string, the
    configuration is pushed, and the cluster manager is reloaded exactly when
    the member has started. *)
Theorem can_use_s3_repository_on_leader K E w repositories :
  let command := info_command K in
  let out := exec E (log w) command None in
  let expected := default (stanza_name E) (app_peer_data w !! "stanza") in
  exec_exceeds E (log w) command 30 = false ->
  out.1.1 = 0 ->
  is_leader E = true ->
  json_loads E out.1.2 = Some repositories ->
  ((forall r, r ∈ repositories -> name r = expected) ->
   can_use_s3_repository K E w = (Ok (true, None), extend_log w [EvExec command None 0]))
  /\ ((exists r, r ∈ repositories /\ name r <> expected) ->
      let cleared := [EvExec command None 0; EvAppPeerUpdate [("stanza", "")];
                      EvUpdateConfig false] in
      can_use_s3_repository K E w
      = (Ok (false, Some ANOTHER_CLUSTER_REPOSITORY_ERROR_MESSAGE),
         mkWorld (<["stanza" := ""]> (app_peer_data w)) (unit_peer_data w) (unit_status w)
           (log w ++ cleared
            ++ if member_started E (log w ++ cleared) then [EvReloadPatroni] else []))).
Proof.
  cbv zeta. intros Hin Hrc Hleader Hjson.
  assert (can_use_s3_repository K E w
          = match find (fun stanza => negb (String.eqb (name stanza)
                          (default (stanza_name E) (app_peer_data w !! "stanza"))))
                    repositories with
            | Some _ =>
                bind (app_peer_update [("stanza", "")])
                  (fun _ => bind (emit (EvUpdateConfig false))
                     (fun _ => bind get_world
                        (fun w' => bind (if member_started E (log w')
                                         then emit EvReloadPatroni else ret tt)
                           (fun _ => ret (false,
                                          Some ANOTHER_CLUSTER_REPOSITORY_ERROR_MESSAGE)))))
            | None => ret (true, None)
            end (extend_log w [EvExec (info_command K) None 0])) as ->.
  { unfold can_use_s3_repository, bind at 1, timeout_as_TimeoutError.
    rewrite _execute_command_timeout_run, Hin.
    destruct (exec E (log w) (info_command K) None) as [[rc stdout] stderr].
    cbn [fst snd] in *. subst rc. cbn [Z.eqb negb]. rewrite Hleader, Hjson.
    rewrite bind_get_world. reflexivity. }
  split.
  - intros Hall.
    assert (find (fun stanza => negb (String.eqb (name stanza)
                    (default (stanza_name E) (app_peer_data w !! "stanza")))) repositories
            = None) as ->; [|reflexivity].
    apply find_none_all. intros r Hr. rewrite (Hall r Hr). by rewrite String.eqb_refl.
  - intros (r & Hr & Hne).
    destruct (find _ repositories) as [r'|] eqn:Hfind.
    + hook_step. rewrite <- !app_assoc. cbn [app].
      destruct (member_started E _); hook_step; unfold dict_update; cbn [foldl fst snd];
        rewrite <- ?app_assoc; reflexivity.
    + exfalso. rewrite find_none_all in Hfind. specialize (Hfind r Hr).
      apply negb_false_iff, String.eqb_eq in Hfind. done.
Qed.

Lemma can_use_s3_repository_on_leader_witness :
  exists w',
    can_use_s3_repository sample_constants (sample_env (fun _ => 0) true None sample_s3_info)
      (mkWorld (<["stanza" := "other.postgresql"]> ∅) ∅ ActiveStatus [])
    = (Ok (false, Some ANOTHER_CLUSTER_REPOSITORY_ERROR_MESSAGE), w')
    /\ app_peer_data w' !! "stanza" = Some "".
Proof.
  eexists. split.
  - apply (proj2 (can_use_s3_repository_on_leader sample_constants
                   (sample_env (fun _ => 0) true None sample_s3_info)
                   (mkWorld (<["stanza" := "other.postgresql"]> ∅) ∅ ActiveStatus [])
                   sample_catalog eq_refl eq_refl eq_refl eq_refl)).
    eexists. split; [apply list_elem_of_here | by vm_compute].
  - apply lookup_insert_eq.
Defined.

(** ** Guards of the stanza state machine *)

Lemma contains_false {V} k (d : gmap string V) : contains k d = false <-> d !! k = None.
Proof. unfold contains. destruct (d !! k); split; congruence. Qed.

Lemma check_stanza_skipped K E w :
  is_leader E = false \/ app_peer_data w !! "init-pgbackrest" = None ->
  check_stanza K E w = (Ok tt, w).
Proof.
  intros H. unfold check_stanza. rewrite bind_get_world.
  destruct H as [->|H%contains_false]; [reflexivity|].
  rewrite H. by rewrite orb_true_r.
Qed.

Lemma check_stanza_marker_gone K E w :
  is_leader E = true ->
  app_peer_data (check_stanza K E w).2 !! "init-pgbackrest" = None.
Proof.
  intros Hleader.
  destruct (app_peer_data w !! "init-pgbackrest") as [v|] eqn:Hm.
  2: { rewrite check_stanza_skipped by auto. exact Hm. }
  assert (contains "init-pgbackrest" (app_peer_data w) = true) as Hc
    by (unfold contains; by rewrite Hm).
  cbv beta iota delta [check_stanza bind get_world emit set_status ret
                       app_peer_update app_peer_pop].
  rewrite Hleader, Hc. cbn [negb orb app_peer_data unit_peer_data unit_status log].
  match goal with
  | |- context [Retrying 5 3 _ ?w2] =>
      destruct (Retrying_check_attempt K E 4 w2) as (ok & new & -> & _)
  end.
  destruct ok; cbn [snd app_peer_data]; apply lookup_delete_eq.
Qed.

(** X9.  The stanza check does nothing at all on a unit that is not the
    leader or when no initialisation is pending; on the leader it always
    leaves no initialisation pending, so that a second check right after a
    first one does nothing: the engine is not asked again and a status set
    by the first check stays. *)
Theorem check_stanza_runs_once K E w :
  (is_leader E = false \/ app_peer_data w !! "init-pgbackrest" = None ->
   check_stanza K E w = (Ok tt, w))
  /\ (is_leader E = true ->
      app_peer_data (check_stanza K E w).2 !! "init-pgbackrest" = None)
  /\ check_stanza K E (check_stanza K E w).2 = (Ok tt, (check_stanza K E w).2).
Proof.
  split; [apply check_stanza_skipped|]. split; [apply check_stanza_marker_gone|].
  apply check_stanza_skipped.
  destruct (is_leader E) eqn:Hl; [right|by left]. by apply check_stanza_marker_gone.
Qed.

Lemma check_stanza_runs_once_witness :
  check_stanza sample_constants (sample_env (fun _ => 0) true None sample_s3_info) sample_world
  = (Ok tt, sample_world).
Proof.
  apply (proj1 (check_stanza_runs_once sample_constants
                  (sample_env (fun _ => 0) true None sample_s3_info) sample_world)).
  right. reflexivity.
Defined.

(** The stanza initialisation past its guards: the status is set, the
    command is run, and what the exit code asks for follows. *)
Lemma _initialise_stanza_run K E w :
  is_leader E = true ->
  is_blocked w
  && negb (bool_decide (status_message (unit_status w) ∈ S3_BLOCK_MESSAGES)) = false ->
  let w1 := mkWorld (app_peer_data w) (unit_peer_data w)
              (MaintenanceStatus "initialising stanza")
              (log w ++ [EvSetStatus (MaintenanceStatus "initialising stanza")]) in
  let rc := (exec E (log w1) (stanza_create_command K E) None).1.1 in
  let w2 := extend_log w1 [EvExec (stanza_create_command K E) None rc] in
  _initialise_stanza K E w
  = (if rc =? 49 then raise TimeoutError
     else if negb (rc =? 0) then
       set_status (BlockedStatus FAILED_TO_INITIALIZE_STANZA_ERROR_MESSAGE)
     else
       bind (start_stop_pgbackrest_service K E)
         (fun _ => app_peer_update
            [("stanza", stanza_name E); ("init-pgbackrest", "True")])) w2.
Proof.
  intros Hleader Hg w1 rc w2. unfold _initialise_stanza. rewrite Hleader. cbn [negb].
  rewrite bind_get_world, Hg, bind_set_status, bind_execute_command.
  subst rc w2 w1. cbn [log].
  by destruct (exec E _ (stanza_create_command K E) None) as [[rc out] err].
Qed.

(** X10.  Stanza initialisation runs the stanza-create command exactly when
    the unit is the leader and is not blocked for a reason other than the
    three S3 messages; otherwise it returns at once and changes nothing. *)
Theorem initialise_stanza_guards K E w :
  let allowed := is_leader E
                 && negb (is_blocked w
                          && negb (bool_decide (status_message (unit_status w)
                                                ∈ S3_BLOCK_MESSAGES))) in
  (allowed = false -> _initialise_stanza K E w = (Ok tt, w))
  /\ ((exists rc, EvExec (stanza_create_command K E) None rc
                  ∈ events_since w (_initialise_stanza K E w).2)
      <-> allowed = true).
Proof.
  cbv zeta.
  assert (is_leader E
          && negb (is_blocked w
                   && negb (bool_decide (status_message (unit_status w)
                                         ∈ S3_BLOCK_MESSAGES))) = false ->
          _initialise_stanza K E w = (Ok tt, w)) as Hskip.
  { unfold _initialise_stanza. destruct (is_leader E); [|done]. cbn [andb negb].
    rewrite bind_get_world. intros ->%negb_false_iff. reflexivity. }
  split; [exact Hskip|]. split.
  - intros [rc Hin]. destruct (is_leader E && _) eqn:Ha; [done|].
    rewrite (Hskip eq_refl) in Hin. unfold events_since in Hin. cbn [snd] in Hin.
    rewrite drop_all in Hin. by apply elem_of_nil in Hin.
  - intros [Hleader Hg%negb_true_iff]%andb_prop.
    rewrite (_initialise_stanza_run K E w Hleader Hg).
    set (w1 := mkWorld _ _ _ _).
    set (rc := (exec E (log w1) (stanza_create_command K E) None).1.1).
    exists rc.
    assert (forall (r : result unit) w',
              (exists tail, log w' = log (extend_log w1 [EvExec (stanza_create_command K E)
                                                            None rc]) ++ tail) ->
              EvExec (stanza_create_command K E) None rc ∈ events_since w (r, w').2)
      as Hlog.
    { intros r w' [tail Htail]. unfold events_since. cbn [snd]. rewrite Htail.
      unfold extend_log, w1. cbn [log]. rewrite <- !app_assoc, drop_app_length.
      cbn [app]. apply list_elem_of_further, list_elem_of_here. }
    destruct (rc =? 49); [apply Hlog; exists []; by rewrite app_nil_r|].
    destruct (rc =? 0); cbn [negb]; [|apply Hlog; eexists; reflexivity].
    unfold bind.
    destruct (start_stop_pgbackrest_service K E _) as [[ok|e] w3] eqn:Hsvc;
      destruct (start_stop_pgbackrest_service_frame _ _ _ _ _ Hsvc) as (ev & -> & _).
    + apply Hlog. eexists. cbn [app_peer_update snd log extend_log].
      rewrite <- !app_assoc. reflexivity.
    + apply Hlog. by exists ev.
Qed.

Lemma initialise_stanza_guards_witness :
  _initialise_stanza sample_constants (sample_env (fun _ => 0) true None sample_s3_info)
    (mkWorld ∅ ∅ (BlockedStatus "extensions not available") [])
  = (Ok tt, mkWorld ∅ ∅ (BlockedStatus "extensions not available") []).
Proof.
  apply (proj1 (initialise_stanza_guards sample_constants
                  (sample_env (fun _ => 0) true None sample_s3_info)
                  (mkWorld ∅ ∅ (BlockedStatus "extensions not available") []))).
  vm_compute. reflexivity.
Defined.

(** X11.  When the credentials are gone a status is replaced by Active only
    if it is Blocked with one of the three S3 messages, and the peer data is
    never touched; so the block that a failed stanza initialisation (an exit
    code other than 0 and 49) has set is lifted by it. *)
Theorem credential_gone_lifts_s3_blocks K E w :
  (is_blocked w
   && bool_decide (status_message (unit_status w) ∈ S3_BLOCK_MESSAGES) = false ->
   _on_s3_credential_gone w = (Ok tt, w))
  /\ app_peer_data (_on_s3_credential_gone w).2 = app_peer_data w
  /\ (is_leader E = true ->
      is_blocked w
      && negb (bool_decide (status_message (unit_status w) ∈ S3_BLOCK_MESSAGES)) = false ->
      let rc := (exec E (log w ++ [EvSetStatus (MaintenanceStatus "initialising stanza")])
                   (stanza_create_command K E) None).1.1 in
      rc <> 0 -> rc <> 49 ->
      let blocked := (_initialise_stanza K E w).2 in
      unit_status blocked = BlockedStatus FAILED_TO_INITIALIZE_STANZA_ERROR_MESSAGE
      /\ unit_status (_on_s3_credential_gone blocked).2 = ActiveStatus
      /\ app_peer_data (_on_s3_credential_gone blocked).2 = app_peer_data w).
Proof.
  split; [|split].
  - unfold _on_s3_credential_gone. rewrite bind_get_world. by intros ->.
  - unfold _on_s3_credential_gone. rewrite bind_get_world.
    by destruct (is_blocked w && _).
  - intros Hleader Hg rc H0 H49 blocked. subst blocked.
    rewrite (_initialise_stanza_run K E w Hleader Hg). cbn [log]. fold rc.
    apply Z.eqb_neq in H0, H49. rewrite H0, H49. cbn [negb].
    split; [reflexivity|]. split; reflexivity.
Qed.

Lemma credential_gone_lifts_s3_blocks_witness :
  unit_status
    (_on_s3_credential_gone
       (_initialise_stanza sample_constants
          (sample_env (fun _ => 1) true None sample_s3_info) sample_world).2).2
  = ActiveStatus.
Proof.
  destruct (credential_gone_lifts_s3_blocks sample_constants
              (sample_env (fun _ => 1) true None sample_s3_info) sample_world)
    as (_ & _ & H).
  destruct H as (_ & H & _); [reflexivity | reflexivity | discriminate | discriminate |].
  exact H.
Defined.

(** ** The TLS service of the engine *)

Lemma events_since_extend_log w new : events_since w (extend_log w new) = new.
Proof. unfold events_since, extend_log. cbn [log]. by rewrite drop_app_length. Qed.

Ltac service_events :=
  unfold events_since, extend_log; cbn [log];
  rewrite <- ?app_assoc, ?drop_app_length, ?drop_all; cbn [app].

Ltac service_goals :=
  let H := fresh "H" in
  split; [|split; [|split]];
  [ try (intros H; by mem_cases H)
  | try (intros H; by mem_cases H)
  | try done; try (intros _; split; intros H; by mem_cases H)
  | try done ].

(** X12.  The service routine restarts the TLS service only when the S3
    settings are complete, the snap is present, TLS is enabled, the unit has
    peers and either the unit is the primary or the ping of the primary's
    service has exited with 0; it stops the service only when TLS is
    disabled or there are no peers; it never does both; whenever it answers
    false the service has been neither stopped nor restarted; and with
    incomplete settings it answers true and does nothing. *)
Theorem service_restart_conditions K E w r w' :
  start_stop_pgbackrest_service K E w = (r, w') ->
  let new := events_since w w' in
  (EvSnapRestart ∈ new ->
   r = Ok true
   /\ (exists msg, _are_backup_settings_ok E = Ok (true, msg))
   /\ snap_present E = true /\ is_tls_enabled E = true /\ peer_members_ips E <> []
   /\ (is_primary E = true
       \/ exists endpoint, primary_endpoint E = Some endpoint
                           /\ EvExec (server_ping_command K endpoint) None 0 ∈ new))
  /\ (EvSnapStop ∈ new ->
      r = Ok true /\ snap_present E = true
      /\ (is_tls_enabled E = false \/ peer_members_ips E = [])
      /\ EvSnapRestart ∉ new)
  /\ (r = Ok false -> (EvSnapStop ∉ new) /\ (EvSnapRestart ∉ new))
  /\ (forall msg, _are_backup_settings_ok E = Ok (false, msg) -> r = Ok true /\ w' = w).
Proof.
  cbv zeta.
  cbv beta iota delta [start_stop_pgbackrest_service bind lift ret emit
                       _render_pgbackrest_conf_file
                       _is_primary_pgbackrest_service_running _execute_command
                       get_world raise].
  destruct (_are_backup_settings_ok E) as [[ok msg]|e] eqn:Hset.
  2: { intros [= <- <-]. service_events. service_goals. }
  destruct ok; cbn [negb].
  2: { intros [= <- <-]. service_events. service_goals. }
  destruct (_retrieve_s3_parameters E) as [[p missing]|e].
  2: { intros [= <- <-]. service_events. service_goals. }
  destruct missing as [|m ms]; cbn [negb].
  2: { intros [= <- <-]. service_events. service_goals. }
  destruct (snap_present E) eqn:Hsnap; cbn [negb].
  2: { intros [= <- <-]. service_events. service_goals. }
  destruct (is_tls_enabled E) eqn:Htls; cbn [negb orb].
  2: { intros [= <- <-]. service_events. service_goals.
       intros _. repeat split; auto. intros H. by mem_cases H. }
  destruct (peer_members_ips E) as [|ip ips] eqn:Hpeers; cbn [length Nat.eqb].
  { intros [= <- <-]. service_events. service_goals.
    intros _. repeat split; auto. intros H. by mem_cases H. }
  destruct (is_primary E) eqn:Hprim.
  { cbn [negb]. intros [= <- <-]. service_events. service_goals.
    intros _. repeat split; eauto. }
  destruct (primary_endpoint E) as [[|c ep]|] eqn:Hep.
  - cbn [negb]. intros [= <- <-]. service_events. service_goals.
  - cbn [log app_peer_data unit_peer_data unit_status].
    destruct (exec E _ _ _) as [[rc out] err]. cbn [fst snd].
    fold (server_ping_command K (String c ep)).
    destruct (rc =? 0) eqn:Hrc; cbn [negb]; intros [= <- <-].
    + apply Z.eqb_eq in Hrc as ->. service_events. service_goals.
      intros _. repeat split; eauto.
      right. exists (String c ep). split; [done|].
      apply list_elem_of_further, list_elem_of_here.
    + service_events. service_goals.
  - cbn [negb]. intros [= <- <-]. service_events. service_goals.
Qed.

Lemma service_restart_conditions_witness :
  let E := sample_env (fun _ => 0) true None sample_s3_info in
  (start_stop_pgbackrest_service sample_constants E sample_world).1 = Ok true
  /\ is_tls_enabled E = true /\ peer_members_ips E <> [].
Proof.
  intros E.
  destruct (service_restart_conditions sample_constants E sample_world _ _
              (surjective_pairing _)) as (H & _).
  destruct H as (Hr & _ & _ & Htls & Hpeers & _).
  - vm_compute. apply list_elem_of_further, list_elem_of_here.
  - done.
Defined.

(** ** The checks before a restore *)

(** X13.  With complete S3 settings and a backup id given, the checks before
    a restore pass exactly when the unit is not blocked, or is blocked with
    the message of a repository of another cluster, at most one unit is
    planned and the unit is the leader; when they pass nothing is done, and
    when they do not the action is failed once and nothing else is done. *)
Theorem pre_restore_checks_pass_iff E w backup_id msg :
  _are_backup_settings_ok E = Ok (true, msg) ->
  action_backup_id E = Some backup_id ->
  backup_id <> "" ->
  let eligible :=
    negb (is_blocked w
          && negb (String.eqb (status_message (unit_status w))
                     ANOTHER_CLUSTER_REPOSITORY_ERROR_MESSAGE))
    && (planned_units E <=? 1)%nat && is_leader E in
  (eligible = true -> _pre_restore_checks E w = (Ok true, w))
  /\ (eligible = false ->
      exists reason, _pre_restore_checks E w = (Ok false, extend_log w [EvFail reason])).
Proof.
  intros Hset Hid Hne eligible. subst eligible.
  cbv beta iota delta [_pre_restore_checks bind lift ret emit get_world].
  rewrite Hset, Hid. cbn [negb].
  destruct backup_id as [|c id]; [done|].
  destruct (is_blocked w && _); cbn [negb andb].
  { split; [done|]. intros _. eexists. reflexivity. }
  rewrite Nat.ltb_antisym. destruct (planned_units E <=? 1)%nat; cbn [negb andb].
  2: { split; [done|]. intros _. eexists. reflexivity. }
  destruct (is_leader E); cbn [negb].
  - split; [done|]. done.
  - split; [done|]. intros _. eexists. reflexivity.
Qed.

Lemma pre_restore_checks_pass_iff_witness :
  _pre_restore_checks (sample_env (fun _ => 0) true (Some "2023-01-01T00:00:00Z") sample_s3_info)
    (mkWorld ∅ ∅ (BlockedStatus ANOTHER_CLUSTER_REPOSITORY_ERROR_MESSAGE) [])
  = (Ok true, mkWorld ∅ ∅ (BlockedStatus ANOTHER_CLUSTER_REPOSITORY_ERROR_MESSAGE) []).
Proof.
  apply (proj1 (pre_restore_checks_pass_iff
                  (sample_env (fun _ => 0) true (Some "2023-01-01T00:00:00Z") sample_s3_info)
                  (mkWorld ∅ ∅ (BlockedStatus ANOTHER_CLUSTER_REPOSITORY_ERROR_MESSAGE) [])
                  "2023-01-01T00:00:00Z" None
                  ltac:(vm_compute; reflexivity) eq_refl ltac:(discriminate))).
  vm_compute. reflexivity.
Defined.

(** ** What the actions report *)

Lemma reports_app a b : reports (a ++ b) = reports a ++ reports b.
Proof. apply filter_app. Qed.

Lemma quiet_ret {A} (a : A) : quiet (ret a).
Proof. intros w. exists []. by rewrite app_nil_r. Qed.

Lemma quiet_raise {A} e : quiet (@raise A e).
Proof. intros w. exists []. by rewrite app_nil_r. Qed.

Lemma quiet_lift {A} (r : result A) : quiet (lift r).
Proof. intros w. exists []. destruct r; by rewrite app_nil_r. Qed.

Lemma quiet_get_world : quiet get_world.
Proof. intros w. exists []. by rewrite app_nil_r. Qed.

Lemma quiet_emit e : is_report e = false -> quiet (emit e).
Proof.
  intros He w. exists [e]. split; [reflexivity|].
  unfold reports. rewrite filter_cons_False by (rewrite He; discriminate). reflexivity.
Qed.

Lemma quiet_set_status s : quiet (set_status s).
Proof. intros w. by exists [EvSetStatus s]. Qed.

Lemma quiet_app_peer_update kvs : quiet (app_peer_update kvs).
Proof. intros w. by exists [EvAppPeerUpdate kvs]. Qed.

Lemma quiet_unit_peer_update kvs : quiet (unit_peer_update kvs).
Proof. intros w. by exists [EvUnitPeerUpdate kvs]. Qed.

Lemma quiet_bind {A B} (m : M A) (f : A -> M B) :
  quiet m -> (forall a, quiet (f a)) -> quiet (bind m f).
Proof.
  intros Hm Hf w. unfold bind. destruct (Hm w) as (n1 & H1 & R1).
  destruct (m w) as [[a|e] w1]; cbn [snd] in *.
  - destruct (Hf a w1) as (n2 & H2 & R2). exists (n1 ++ n2).
    by rewrite H2, H1, app_assoc, reports_app, R1, R2.
  - by exists n1.
Qed.

Lemma quiet_catch_ListBackupsError {A} (m : M A) :
  quiet m -> quiet (catch_ListBackupsError m).
Proof.
  intros Hm w. unfold catch_ListBackupsError. destruct (Hm w) as (n & H & R).
  exists n. by destruct (m w) as [[a|[]] w1].
Qed.

Lemma quiet_catch_ListBackupsError_message {A} (m : M A) :
  quiet m -> quiet (catch_ListBackupsError_message m).
Proof.
  intros Hm w. unfold catch_ListBackupsError_message. destruct (Hm w) as (n & H & R).
  exists n. by destruct (m w) as [[a|[]] w1].
Qed.

Ltac quiet_step :=
  first
    [ apply quiet_ret | apply quiet_raise | apply quiet_lift | apply quiet_get_world
    | apply quiet_set_status | apply quiet_app_peer_update
    | apply quiet_unit_peer_update
    | apply quiet_emit; reflexivity
    | apply quiet_catch_ListBackupsError
    | apply quiet_catch_ListBackupsError_message
    | apply quiet_bind; [|intros ?]
    | match goal with
      | |- quiet (match ?x with _ => _ end) => destruct x
      end ].

Ltac quiet_run := repeat quiet_step.

Lemma quiet_execute_command E command input timeout :
  quiet (_execute_command E command input timeout).
Proof. unfold _execute_command. quiet_run. Qed.

Lemma quiet_upload_content_to_s3 E content s3_path s3_parameters :
  quiet (_upload_content_to_s3 E content s3_path s3_parameters).
Proof. unfold _upload_content_to_s3. quiet_run. Qed.

Lemma quiet_list_backups K E show_failed : quiet (_list_backups K E show_failed).
Proof.
  unfold _list_backups. apply quiet_bind; [apply quiet_execute_command|intros ?].
  quiet_run.
Qed.

Lemma quiet_change_connectivity_to_database connectivity :
  quiet (_change_connectivity_to_database connectivity).
Proof. unfold _change_connectivity_to_database. quiet_run. Qed.

Lemma quiet_restart_database : quiet _restart_database.
Proof. unfold _restart_database. quiet_run. Qed.

Lemma quiet_empty_data_files E : quiet (_empty_data_files E).
Proof. unfold _empty_data_files. quiet_run. Qed.

Lemma quiet_generate_backup_list_output K E : quiet (_generate_backup_list_output K E).
Proof.
  unfold _generate_backup_list_output.
  apply quiet_bind; [apply quiet_execute_command|intros ?]. quiet_run.
Qed.

Lemma once_emit e : is_report e = true -> reports_once (emit e).
Proof.
  intros He w. exists [e]. split; [reflexivity|].
  unfold reports. rewrite filter_cons_True by exact He. cbn. split; [lia|done].
Qed.

Lemma once_raise {A} e : reports_once (@raise A e).
Proof.
  intros w. exists []. rewrite app_nil_r. split; [done|]. split; [cbn; lia|].
  intros a. discriminate.
Qed.

Lemma once_lift_raise {A} e : reports_once (@lift A (Raise e)).
Proof. apply (once_raise e). Qed.

(** A quiet computation, then one that reports once. *)
Lemma once_bind {A B} (m : M A) (f : A -> M B) :
  quiet m -> (forall a, reports_once (f a)) -> reports_once (bind m f).
Proof.
  intros Hm Hf w. unfold bind. destruct (Hm w) as (n1 & H1 & R1).
  destruct (m w) as [[a|e] w1]; cbn [snd] in *.
  - destruct (Hf a w1) as (n2 & H2 & R2 & R3). exists (n1 ++ n2).
    rewrite H2, H1, app_assoc, reports_app, R1. done.
  - exists n1. rewrite R1. split; [done|]. split; [cbn; lia|]. intros a. discriminate.
Qed.

(** One that reports once, then a quiet computation. *)
Lemma once_then {A B} (m : M A) (f : A -> M B) :
  reports_once m -> (forall a, quiet (f a)) -> reports_once (bind m f).
Proof.
  intros Hm Hf w. unfold bind. destruct (Hm w) as (n1 & H1 & R1 & R2).
  destruct (m w) as [[a|e] w1]; cbn [fst snd] in *.
  - destruct (Hf a w1) as (n2 & H2 & R3). exists (n1 ++ n2).
    rewrite H2, H1, app_assoc, reports_app, R3, app_nil_r.
    split; [done|]. split; [done|]. intros _ _. by apply (R2 a).
  - exists n1. split; [done|]. split; [done|]. intros a. discriminate.
Qed.

Ltac once_step :=
  first
    [ apply once_emit; reflexivity
    | apply once_raise
    | apply once_lift_raise
    | apply once_bind;
      [ first [ apply quiet_execute_command | apply quiet_upload_content_to_s3
              | apply quiet_list_backups | apply quiet_empty_data_files
              | apply quiet_catch_ListBackupsError_message;
                apply quiet_generate_backup_list_output
              | quiet_run; fail ]
      | intros ? ]
    | apply once_then;
      [ apply once_emit; reflexivity
      | intros ?; first [ apply quiet_restart_database | quiet_run; fail ] ]
    | match goal with
      | |- reports_once (match ?x with _ => _ end) => destruct x
      end ].

Lemma once_run_backup K E s3_parameters requested :
  reports_once (_run_backup K E s3_parameters requested).
Proof.
  unfold _run_backup. repeat once_step.
Qed.

Lemma once_after_pre_restore_checks E (rest : M unit) :
  reports_once rest ->
  reports_once (bind (_pre_restore_checks E)
                  (fun checked => if negb checked then ret tt else rest)).
Proof.
  intros Hrest w. unfold bind.
  destruct (_pre_restore_checks_outcome E w) as [Hp|[[msg Hp]|[e Hp]]]; rewrite Hp.
  - apply Hrest.
  - exists [EvFail msg]. split; [reflexivity|].
    unfold reports. rewrite filter_cons_True by reflexivity. cbn. split; [lia | done].
  - exists []. rewrite app_nil_r. split; [done|]. split; [cbn; lia | discriminate].
Qed.

(** X14.  Each of the three actions reports at most once, and exactly once
    when its handler returns: either one [event.fail] or one
    [event.set_results], never both and never a second failure; a handler
    that raises has reported at most once.  The same holds of the backup run
    inside the backup action. *)
Theorem actions_report_once K E :
  reports_once (_on_create_backup_action K E)
  /\ (forall s3_parameters requested,
       reports_once (_run_backup K E s3_parameters requested))
  /\ reports_once (_on_restore_action K E)
  /\ reports_once (_on_list_backups_action K E).
Proof.
  split; [|split; [|split]].
  - unfold _on_create_backup_action. repeat once_step.
    apply once_then; [apply once_run_backup|intros ?]. quiet_run.
  - apply once_run_backup.
  - unfold _on_restore_action. apply once_after_pre_restore_checks.
    repeat once_step.
  - unfold _on_list_backups_action. repeat once_step.
Qed.

(** ** The backup action on a replica *)

Lemma logs_only_ret {A} (a : A) : logs_only (ret a).
Proof. intros w. exists []. by rewrite extend_log_nil. Qed.

Lemma logs_only_raise {A} e : logs_only (@raise A e).
Proof. intros w. exists []. by rewrite extend_log_nil. Qed.

Lemma logs_only_lift {A} (r : result A) : logs_only (lift r).
Proof. intros w. exists []. rewrite extend_log_nil. by destruct r. Qed.

Lemma logs_only_get_world : logs_only get_world.
Proof. intros w. exists []. by rewrite extend_log_nil. Qed.

Lemma logs_only_emit e : logs_only (emit e).
Proof. intros w. by exists [e]. Qed.

Lemma logs_only_bind {A B} (m : M A) (f : A -> M B) :
  logs_only m -> (forall a, logs_only (f a)) -> logs_only (bind m f).
Proof.
  intros Hm Hf w. unfold bind. destruct (Hm w) as (n1 & H1).
  destruct (m w) as [[a|e] w1]; cbn [snd] in *.
  - destruct (Hf a w1) as (n2 & H2). exists (n1 ++ n2).
    by rewrite H2, H1, extend_log_extend_log.
  - by exists n1.
Qed.

Lemma logs_only_catch_ListBackupsError {A} (m : M A) :
  logs_only m -> logs_only (catch_ListBackupsError m).
Proof.
  intros Hm w. unfold catch_ListBackupsError. destruct (Hm w) as (n & H).
  exists n. by destruct (m w) as [[a|[]] w1].
Qed.

Ltac logs_only_step :=
  first
    [ apply logs_only_ret | apply logs_only_raise | apply logs_only_lift
    | apply logs_only_get_world | apply logs_only_emit
    | apply logs_only_catch_ListBackupsError
    | apply logs_only_bind; [|intros ?]
    | match goal with
      | |- logs_only (match ?x with _ => _ end) => destruct x
      end ].

Lemma logs_only_execute_command E command input timeout :
  logs_only (_execute_command E command input timeout).
Proof.
  unfold _execute_command. apply logs_only_bind; [apply logs_only_get_world|intros w0].
  cbv zeta. repeat logs_only_step.
Qed.

Lemma logs_only_upload_content_to_s3 E content s3_path s3_parameters :
  logs_only (_upload_content_to_s3 E content s3_path s3_parameters).
Proof. unfold _upload_content_to_s3. cbv zeta. repeat logs_only_step. Qed.

Lemma logs_only_list_backups K E show_failed : logs_only (_list_backups K E show_failed).
Proof.
  unfold _list_backups.
  apply logs_only_bind; [apply logs_only_execute_command|intros ?].
  repeat logs_only_step.
Qed.

(** The backup run leaves the peer data and the status as they are. *)
Lemma logs_only_run_backup K E s3_parameters requested :
  logs_only (_run_backup K E s3_parameters requested).
Proof.
  unfold _run_backup.
  apply logs_only_bind; [apply logs_only_execute_command|intros [[rc out] err]].
  destruct (negb (rc =? 0)).
  - apply logs_only_bind; [apply logs_only_get_world|intros w0].
    apply logs_only_bind; [repeat logs_only_step|intros backup_id]. cbv zeta.
    apply logs_only_bind; [apply logs_only_lift|intros path].
    apply logs_only_bind; [apply logs_only_upload_content_to_s3|intros ?].
    apply logs_only_emit.
  - apply logs_only_bind.
    + apply logs_only_catch_ListBackupsError.
      apply logs_only_bind; [apply logs_only_list_backups|intros ?].
      repeat logs_only_step.
    + intros [backup_id|]; [|apply logs_only_emit]. cbv zeta.
      apply logs_only_bind; [apply logs_only_lift|intros path].
      apply logs_only_bind; [apply logs_only_upload_content_to_s3|intros ?].
      repeat logs_only_step.
Qed.

Lemma strftime_requested_at dt :
  strftime dt "%Y-%m-%dT%H:%M:%SZ" = Some (requested_at dt).
Proof. reflexivity. Qed.

(** X15.  On a unit that is not the primary, once the unit may perform the
    backup and the metadata object was stored, the backup is run with the
    connectivity of the database off, the status Maintenance and the
    configuration flagged as creating a backup.  When the run returns,
    even having failed the action, the connectivity is set back on, the flag
    cleared and the status set to Active as the last step.  When the run
    raises (the catalog query after a successful backup is not decodable, or
    lists nothing), the handler raises too and the connectivity stays off,
    the status Maintenance and the flag set. *)
Theorem create_backup_replica_connectivity K E w msg s3_parameters missing path bucket :
  is_primary E = false ->
  _can_unit_perform_backup E w = Ok (true, msg) ->
  _retrieve_s3_parameters E = Ok (s3_parameters, missing) ->
  s3_parameters !! "path" = Some (PyStr path) ->
  s3_parameters !! "bucket" = Some (PyStr bucket) ->
  let requested := requested_at (now E (log w)) in
  let key := object_key path (PyStr.path_join path ("backup/" +:+ stanza_name E +:+ "/latest")) in
  upload_ok E (log w) bucket key (backup_metadata E requested) = true ->
  let before :=
    [EvUpload bucket key (backup_metadata E requested) true;
     EvUnitPeerUpdate [("connectivity", "off")]; EvUpdateConfig false;
     EvSetStatus (MaintenanceStatus "creating backup"); EvUpdateConfig true] in
  let after :=
    [EvUnitPeerUpdate [("connectivity", "on")]; EvUpdateConfig false;
     EvUpdateConfig false; EvSetStatus ActiveStatus] in
  let w1 := mkWorld (app_peer_data w) (<["connectivity" := "off"]> (unit_peer_data w))
              (MaintenanceStatus "creating backup") (log w ++ before) in
  exists r run,
    _run_backup K E s3_parameters requested w1 = (r, extend_log w1 run)
    /\ match r with
       | Ok _ =>
           _on_create_backup_action K E w
           = (Ok tt,
              mkWorld (app_peer_data w)
                (<["connectivity" := "on"]> (<["connectivity" := "off"]> (unit_peer_data w)))
                ActiveStatus (log w ++ before ++ run ++ after))
       | Raise e =>
           _on_create_backup_action K E w = (Raise e, extend_log w1 run)
       end.
Proof.
  intros Hprim Hcan Hparams Hpath Hbucket requested key Hup before after w1.
  assert (_on_create_backup_action K E w
          = bind (_run_backup K E s3_parameters requested)
              (fun _ =>
                 bind (_change_connectivity_to_database true)
                   (fun _ => bind (emit (EvUpdateConfig false))
                               (fun _ => set_status ActiveStatus))) w1) as Hact.
  { unfold _on_create_backup_action.
    rewrite bind_get_world, Hcan, bind_lift_ok. cbn [negb].
    rewrite Hparams, bind_lift_ok, strftime_requested_at. unfold or_ValueError at 1.
    rewrite bind_lift_ok. fold requested.
    assert (getitem s3_parameters "path" ≫= as_path = Ok path) as ->
      by (unfold getitem; by rewrite Hpath).
    rewrite bind_lift_ok. unfold bind at 1.
    rewrite (_upload_content_to_s3_run E _ _ _ path bucket) by assumption.
    fold key. rewrite Hup. cbn [negb]. rewrite Hprim. cbn [negb].
    unfold _change_connectivity_to_database at 1.
    rewrite !bind_bind. unfold bind at 1. unfold unit_peer_update at 1.
    cbn [extend_log app_peer_data unit_peer_data unit_status log dict_update foldl fst snd].
    rewrite bind_emit, bind_set_status, bind_emit.
    f_equal. unfold extend_log, w1, before.
    cbn [app_peer_data unit_peer_data unit_status log].
    by rewrite <- !app_assoc. }
  destruct (logs_only_run_backup K E s3_parameters requested w1) as [run Hrun].
  exists (_run_backup K E s3_parameters requested w1).1, run.
  split; [rewrite <- Hrun; apply surjective_pairing|].
  rewrite Hact. clear Hact.
  destruct (_run_backup K E s3_parameters requested w1) as [[u|e] w2] eqn:Hrb;
    cbn [fst snd] in *; subst w2; unfold bind at 1; rewrite Hrb; [|reflexivity].
  unfold _change_connectivity_to_database.
  rewrite !bind_bind. unfold bind at 1. unfold unit_peer_update at 1.
  rewrite bind_emit, bind_emit. unfold set_status.
  cbn [extend_log app_peer_data unit_peer_data unit_status log dict_update foldl fst snd w1].
  f_equal. f_equal. subst after. rewrite <- !app_assoc. cbn [app]. reflexivity.
Qed.

Lemma create_backup_replica_connectivity_witness :
  exists w',
    _on_create_backup_action sample_constants (sample_replica_env []) sample_replica_world
    = (Raise IndexError, w')
    /\ unit_peer_data w' !! "connectivity" = Some "off"
    /\ unit_status w' = MaintenanceStatus "creating backup".
Proof.
  set (s3_parameters := match _retrieve_s3_parameters (sample_replica_env []) with
                        | Ok (p, _) => p
                        | Raise _ => ∅
                        end).
  destruct (create_backup_replica_connectivity sample_constants (sample_replica_env [])
              sample_replica_world None s3_parameters [] "/postgresql" "backups")
    as (r & run & Hrun & Hact).
  - reflexivity.
  - vm_compute. reflexivity.
  - vm_compute. reflexivity.
  - vm_compute. reflexivity.
  - vm_compute. reflexivity.
  - reflexivity.
  - assert (r = Raise IndexError) as ->.
    { match type of Hrun with
      | _ = (r, ?w2) => change r with (r, w2).1
      end.
      rewrite <- Hrun. vm_compute. reflexivity. }
    eexists. split; [exact Hact|]. split; [|reflexivity].
    cbn [extend_log unit_peer_data]. apply lookup_insert_eq.
Defined.

(** ** The order of the steps of a restore *)

Ltac restore_leaf :=
  unfold extend_log; cbn [app_peer_data unit_peer_data unit_status log fst snd];
  rewrite <- ?app_assoc; cbn [app];
  eexists _, _, _, _; (split; [reflexivity|]);
  (split; [|split; [|split; [|split]]]); vm_compute; done.

(** X16.  Whatever the environment answers, the restore action removes the
    data directory only after the database was stopped, writes the
    restoring-backup key only after that stop, starts the database only
    after the stop and after the key was written, and pipes its answer to a
    command (the removal of the previous cluster) only after the database
    was started.  Once the database was stopped the status is Maintenance
    when the action ends, and the unit's peer data is never touched. *)
Theorem restore_steps_in_order K E w :
  let w' := (_on_restore_action K E w).2 in
  let new := events_since w w' in
  (existsb is_data_removal new = true ->
   event_before is_database_stop is_data_removal new = true)
  /\ (existsb is_restore_record new = true ->
      event_before is_database_stop is_restore_record new = true)
  /\ (existsb is_database_start new = true ->
      event_before is_database_stop is_database_start new = true
      /\ event_before is_restore_record is_database_start new = true)
  /\ (existsb is_command new = true ->
      event_before is_database_start is_command new = true)
  /\ (existsb is_database_stop new = true ->
      unit_status w' = MaintenanceStatus "restoring backup")
  /\ unit_peer_data w' = unit_peer_data w.
Proof.
  assert (exists r new st apd,
            _on_restore_action K E w = (r, mkWorld apd (unit_peer_data w) st (log w ++ new))
            /\ (existsb is_data_removal new = true ->
                event_before is_database_stop is_data_removal new = true)
            /\ (existsb is_restore_record new = true ->
                event_before is_database_stop is_restore_record new = true)
            /\ (existsb is_database_start new = true ->
                event_before is_database_stop is_database_start new = true
                /\ event_before is_restore_record is_database_start new = true)
            /\ (existsb is_command new = true ->
                event_before is_database_start is_command new = true)
            /\ (existsb is_database_stop new = true ->
                st = MaintenanceStatus "restoring backup"))
    as (r & new & st & apd & -> & H).
  { unfold _on_restore_action. unfold bind at 1.
    destruct (_pre_restore_checks_outcome E w) as [Hpre|[[msg Hpre]|[e Hpre]]];
      rewrite Hpre; cbn [negb].
    2: { unfold ret. restore_leaf. }
    2: { exists (Raise e), [], (unit_status w), (app_peer_data w).
         rewrite app_nil_r. split; [by destruct w|]. vm_compute.
         repeat split; discriminate. }
    unfold bind at 1, catch_ListBackupsError.
    destruct (_list_backups_frame K E false w) as (r & rc & ->).
    destruct r as [backups|e]; [|destruct e; try rewrite emit_run; restore_leaf].
    destruct (od_mem _ backups); cbn [negb]; [|rewrite emit_run; restore_leaf].
    destruct (restore_label K _) as [lbl|]; unfold or_ValueError.
    all: destruct (od_get _ backups) as [stanza|].
    all: hook_step.
    all: set (stopped := stop_patroni_ok E _); destruct stopped; hook_step;
      [|restore_leaf].
    all: unfold _empty_data_files; hook_step.
    all: set (existing := data_dir_exists E _); set (removed := rmtree_ok E _).
    all: unfold _restart_database, _execute_command.
    all: destruct existing; hook_step; [destruct removed; hook_step|].
    all: try (set (late := exec_exceeds E _ _ _); destruct late; hook_step).
    all: try (set (out := exec E _ _ _); destruct out as [[rc' o] err]; cbn [fst snd];
              destruct (rc' =? 0); hook_step).
    all: restore_leaf. }
  cbv zeta. unfold events_since. cbn [snd log unit_status unit_peer_data].
  rewrite drop_app_length. destruct H as (H1 & H2 & H3 & H4 & H5). done.
Qed.

Lemma restore_steps_in_order_witness :
  let E := sample_env (fun _ => 0) true (Some "2023-01-03T23:59:59Z") sample_s3_info in
  let new := events_since sample_world
               (_on_restore_action sample_constants E sample_world).2 in
  event_before is_database_stop is_database_start new = true
  /\ event_before is_restore_record is_database_start new = true.
Proof.
  intros E new.
  apply (proj1 (proj2 (proj2 (restore_steps_in_order sample_constants E sample_world)))).
  vm_compute. reflexivity.
Defined.

(** ** The label of a failed backup *)

Lemma append_cons c (a b : string) : String c a +:+ b = String c (a +:+ b).
Proof. reflexivity. Qed.

Lemma append_nil (b : string) : "" +:+ b = b.
Proof. reflexivity. Qed.

Lemma strip_prefix_spec p s r : strip_prefix p s = Some r <-> s = p +:+ r.
Proof.
  revert s. induction p as [|a p IH]; intros s.
  - rewrite append_nil. destruct s; cbn; split; congruence.
  - rewrite append_cons. destruct s as [|b s]; cbn; [split; discriminate|].
    destruct (Ascii.eqb_spec a b) as [->|Hne].
    + rewrite IH. split; congruence.
    + split; [discriminate|]. congruence.
Qed.

Lemma take_digits_spec n s d r :
  take_digits n s = Some (d, r)
  <-> s = d +:+ r /\ String.length d = n /\ all_digits d = true.
Proof.
  revert s d r. induction n as [|n IH]; intros s d r.
  - cbn. split.
    + intros [= <- <-]. done.
    + intros (-> & Hlen & _). destruct d; [done|discriminate].
  - destruct s as [|c s]; cbn.
    + split; [discriminate|]. intros (Hs & Hlen & _). destruct d; discriminate.
    + destruct (bool_decide (is_Some (digit_val c))) eqn:Hc.
      * destruct (take_digits n s) as [[t r']|] eqn:Ht.
        -- apply IH in Ht as (-> & Hlen & Hd). split.
           ++ intros [= <- <-]. rewrite append_cons. cbn. rewrite Hc, Hd, Hlen. done.
           ++ intros (Hs & Hl & Hd'). destruct d as [|c' d]; [discriminate|].
              rewrite append_cons in Hs. injection Hs as <- Hs. cbn in Hl, Hd'.
              injection Hl as Hl. apply andb_prop in Hd' as [_ Hd'].
              assert (take_digits n (t +:+ r') = Some (d, r)) as Ht'
                by (apply IH; done).
              assert (take_digits n (t +:+ r') = Some (t, r')) as Ht''
                by (apply IH; done).
              congruence.
        -- split; [discriminate|]. intros (Hs & Hl & Hd').
           destruct d as [|c' d]; [discriminate|].
           rewrite append_cons in Hs. injection Hs as <- Hs. cbn in Hl, Hd'.
           injection Hl as Hl. apply andb_prop in Hd' as [_ Hd'].
           assert (take_digits n s = Some (d, r)) as Ht' by (apply IH; done).
           congruence.
      * split; [discriminate|]. intros (Hs & Hl & Hd').
        destruct d as [|c' d]; [discriminate|].
        rewrite append_cons in Hs. injection Hs as <- Hs. cbn in Hd'.
        rewrite Hc in Hd'. discriminate.
Qed.

Lemma backup_label_at_spec s l :
  backup_label_at s = Some l
  <-> exists post,
        s = "new backup label = " +:+ l +:+ post
        /\ full_backup_label l /\ at_line_end post = true.
Proof.
  unfold backup_label_at, full_backup_label. split.
  - destruct (strip_prefix "new backup label = " s) as [r0|] eqn:H0; [|discriminate].
    cbn [mbind option_bind].
    destruct (take_digits 8 r0) as [[d8 r1]|] eqn:H1; [|discriminate].
    cbn [mbind option_bind].
    destruct (strip_prefix "-" r1) as [r2|] eqn:H2; [|discriminate].
    cbn [mbind option_bind].
    destruct (take_digits 6 r2) as [[d6 r3]|] eqn:H3; [|discriminate].
    cbn [mbind option_bind].
    destruct (strip_prefix "F" r3) as [r4|] eqn:H4; [|discriminate].
    cbn [mbind option_bind].
    destruct (at_line_end r4) eqn:H5; [|discriminate]. intros [= <-].
    apply strip_prefix_spec in H0, H2, H4.
    apply take_digits_spec in H1 as (H1 & L8 & D8), H3 as (H3 & L6 & D6).
    exists r4. split; [|split; [exists d8, d6; done | done]].
    rewrite H0, H1, H2, H3, H4. by rewrite !append_assoc'.
  - intros (post & -> & (d8 & d6 & -> & L8 & L6 & D8 & D6) & Hend).
    assert (strip_prefix "new backup label = "
              ("new backup label = " +:+ (d8 +:+ "-" +:+ d6 +:+ "F") +:+ post)
            = Some (d8 +:+ ("-" +:+ (d6 +:+ ("F" +:+ post))))) as ->
      by (apply strip_prefix_spec; by rewrite !append_assoc').
    cbn [mbind option_bind].
    assert (take_digits 8 (d8 +:+ ("-" +:+ (d6 +:+ ("F" +:+ post))))
            = Some (d8, "-" +:+ (d6 +:+ ("F" +:+ post)))) as ->
      by (by apply take_digits_spec).
    cbn [mbind option_bind].
    assert (strip_prefix "-" ("-" +:+ (d6 +:+ ("F" +:+ post)))
            = Some (d6 +:+ ("F" +:+ post))) as -> by (by apply strip_prefix_spec).
    cbn [mbind option_bind].
    assert (take_digits 6 (d6 +:+ ("F" +:+ post)) = Some (d6, "F" +:+ post)) as ->
      by (by apply take_digits_spec).
    cbn [mbind option_bind].
    assert (strip_prefix "F" ("F" +:+ post) = Some post) as ->
      by (by apply strip_prefix_spec).
    cbn [mbind option_bind]. by rewrite Hend.
Qed.

Lemma find_backup_label_here s l :
  backup_label_at s = Some l -> find_backup_label s = Some l.
Proof. intros H. destruct s; cbn [find_backup_label]; by rewrite H. Qed.

(** X17.  The label recovered from the output of a failed backup is a text
    of the shape of eight digits, a dash, six digits and the letter F that
    stands in the output right after [new backup label = ] and right before
    the end of a line or of the output; and whenever the output holds such a
    text at such a place, a label is recovered, so that the time of the
    clock is used only when there is none. *)
Theorem find_backup_label_spec stdout :
  (forall l,
     find_backup_label stdout = Some l ->
     full_backup_label l
     /\ exists pre post,
          stdout = pre +:+ "new backup label = " +:+ l +:+ post
          /\ at_line_end post = true)
  /\ (forall pre l post,
        stdout = pre +:+ "new backup label = " +:+ l +:+ post ->
        full_backup_label l -> at_line_end post = true ->
        is_Some (find_backup_label stdout)).
Proof.
  split.
  - induction stdout as [|c s IH]; intros l; cbn [find_backup_label].
    + destruct (backup_label_at "") as [l'|] eqn:Hat; [|discriminate].
      intros [= ->]. apply backup_label_at_spec in Hat as (post & Hs & Hl & Hend).
      split; [done|]. by exists "", post.
    + destruct (backup_label_at (String c s)) as [l'|] eqn:Hat.
      * intros [= ->]. apply backup_label_at_spec in Hat as (post & Hs & Hl & Hend).
        split; [done|]. by exists "", post.
      * intros Hfind. destruct (IH _ Hfind) as (Hl & pre & post & -> & Hend).
        split; [done|]. by exists (String c pre), post.
  - intros pre l post -> Hl Hend. induction pre as [|c pre IH].
    + rewrite append_nil.
      assert (backup_label_at ("new backup label = " +:+ l +:+ post) = Some l) as Hat
        by (apply backup_label_at_spec; by exists post).
      rewrite (find_backup_label_here _ _ Hat). by eexists.
    + rewrite append_cons. cbn [find_backup_label].
      destruct (backup_label_at _); [by eexists | exact IH].
Qed.

Lemma find_backup_label_spec_witness :
  is_Some (find_backup_label
             ("P00 INFO: new backup label = 20230104-120000F"
              +:+ nl +:+ "P00 ERROR: unable to write")).
Proof.
  apply (proj2 (find_backup_label_spec _) "P00 INFO: " "20230104-120000F"
           (nl +:+ "P00 ERROR: unable to write")).
  - reflexivity.
  - exists "20230104", "120000". repeat split; reflexivity.
  - reflexivity.
Defined.

(** ** The endpoint of the object store *)

Lemma before_scheme_separator_here h :
  before_scheme_separator ("://" +:+ h) = "".
Proof. reflexivity. Qed.

Lemma startswith_separator_rebuilt c s h :
  PyStr.startswith "://" (String c s) = false ->
  PyStr.startswith "://" (String c (before_scheme_separator s +:+ "://" +:+ h)) = false.
Proof.
  cbn [PyStr.startswith]. destruct (Ascii.eqb ":" c); [|done]. cbn [andb].
  destruct s as [|c1 s1]; [done|].
  cbn [before_scheme_separator].
  destruct (PyStr.startswith "://" (String c1 s1)); [done|].
  rewrite append_cons. cbn [PyStr.startswith].
  destruct (Ascii.eqb "/" c1); [|done]. cbn [andb].
  destruct s1 as [|c2 s2]; [done|].
  cbn [before_scheme_separator].
  destruct (PyStr.startswith "://" (String c2 s2)); [done|].
  rewrite append_cons. cbn [PyStr.startswith].
  destruct (Ascii.eqb "/" c2); [|done]. cbn [andb]. by destruct s2.
Qed.

Lemma before_scheme_separator_rebuilt s h :
  before_scheme_separator (before_scheme_separator s +:+ "://" +:+ h)
  = before_scheme_separator s.
Proof.
  induction s as [|c s IH]; [reflexivity|].
  cbn [before_scheme_separator].
  destruct (PyStr.startswith "://" (String c s)) eqn:Hst; [reflexivity|].
  rewrite append_cons. cbn [before_scheme_separator].
  rewrite (startswith_separator_rebuilt c s h Hst). by rewrite IH.
Qed.

(** X18.  The endpoint built for a region keeps the scheme of the endpoint
    given, the text before the first [://]; and building it again from the
    built endpoint gives the same endpoint. *)
Theorem construct_endpoint_stable construct_endpoint s3_parameters url :
  _construct_endpoint construct_endpoint s3_parameters = Ok url ->
  _construct_endpoint construct_endpoint (<["endpoint" := url]> s3_parameters) = Ok url
  /\ forall endpoint,
       s3_parameters !! "endpoint" = Some (PyStr endpoint) ->
       exists built,
         url = PyStr built
         /\ before_scheme_separator built = before_scheme_separator endpoint.
Proof.
  unfold _construct_endpoint, getitem.
  rewrite lookup_insert_eq, lookup_insert_ne by done.
  destruct (s3_parameters !! "endpoint") as [v|]; [|discriminate].
  destruct (s3_parameters !! "region") as [region|]; [|discriminate].
  cbn [mbind result_bind rbind].
  destruct (construct_endpoint region) as [[dnsSuffix hostname]|].
  2: { intros [= ->]. split; [done|]. intros endpoint [= ->]. by eexists. }
  destruct v as [| | |text|]; try discriminate. cbn [str_method mbind result_bind rbind id].
  destruct (endswith dnsSuffix text) eqn:Hends; intros [= <-].
  - cbn [str_method mbind result_bind rbind id].
    rewrite before_scheme_separator_rebuilt. split.
    + by destruct (endswith dnsSuffix (_ +:+ _)).
    + intros endpoint [= ->]. eexists. split; [done|].
      apply before_scheme_separator_rebuilt.
  - cbn [str_method mbind result_bind rbind id]. rewrite Hends. split; [done|].
    intros endpoint [= ->]. by eexists.
Qed.

Lemma construct_endpoint_stable_witness :
  let resolver := fun _ : pyval => Some ("amazonaws.com", "s3.eu-west-1.amazonaws.com") in
  let s3_parameters :=
    <["endpoint" := PyStr "https://s3.amazonaws.com"]> (<["region" := PyStr "eu-west-1"]> ∅) in
  _construct_endpoint resolver
    (<["endpoint" := PyStr "https://s3.eu-west-1.amazonaws.com"]> s3_parameters)
  = Ok (PyStr "https://s3.eu-west-1.amazonaws.com").
Proof.
  intros resolver s3_parameters.
  apply (proj1 (construct_endpoint_stable resolver s3_parameters
                  (PyStr "https://s3.eu-west-1.amazonaws.com") ltac:(vm_compute; reflexivity))).
Defined.

(** ** From the initialisation of a stanza to its check *)

Lemma check_stanza_outcome K E w :
  is_leader E = true ->
  contains "init-pgbackrest" (app_peer_data w) = true ->
  exists ok new,
    check_stanza K E w
    = (Ok tt,
       mkWorld
         (if ok : bool then delete "init-pgbackrest" (app_peer_data w)
          else delete "init-pgbackrest"
                 (delete "init-pgbackrest" (<["stanza" := ""]> (app_peer_data w))))
         (unit_peer_data w)
         (if ok then ActiveStatus
          else BlockedStatus FAILED_TO_INITIALIZE_STANZA_ERROR_MESSAGE)
         (log w ++ new)).
Proof.
  intros Hleader Hmarker.
  cbv beta iota delta [check_stanza bind get_world emit set_status ret
                       app_peer_update app_peer_pop].
  rewrite Hleader, Hmarker. cbn [negb orb app_peer_data unit_peer_data unit_status log].
  match goal with
  | |- context [Retrying 5 3 _ ?w2] =>
      destruct (Retrying_check_attempt K E 4 w2) as (ok & new & -> & _)
  end.
  unfold extend_log. cbn [app_peer_data unit_peer_data unit_status log].
  exists ok. destruct ok; cbn [app_peer_data unit_peer_data unit_status log dict_update
                                 foldl fst snd];
    eexists; rewrite <- !app_assoc; reflexivity.
Qed.

(** X19.  On the leader, when the stanza-create command has exited with 0
    and the initialisation has returned, the stanza name and the pending
    marker are recorded; the check that follows then always returns and
    removes the marker, and leaves either the status Active with the stanza
    name recorded, or the status Blocked with the stanza initialisation
    message and the empty string as the stanza name: the stanza is never
    left pending and never recorded under a Blocked status. *)
Theorem stanza_initialised_then_checked K E w :
  is_leader E = true ->
  is_blocked w
  && negb (bool_decide (status_message (unit_status w) ∈ S3_BLOCK_MESSAGES)) = false ->
  (exec E (log w ++ [EvSetStatus (MaintenanceStatus "initialising stanza")])
     (stanza_create_command K E) None).1.1 = 0 ->
  (_initialise_stanza K E w).1 = Ok tt ->
  let w1 := (_initialise_stanza K E w).2 in
  let w2 := (check_stanza K E w1).2 in
  app_peer_data w1 !! "stanza" = Some (stanza_name E)
  /\ app_peer_data w1 !! "init-pgbackrest" = Some "True"
  /\ (check_stanza K E w1).1 = Ok tt
  /\ app_peer_data w2 !! "init-pgbackrest" = None
  /\ (unit_status w2 = ActiveStatus
      /\ app_peer_data w2 !! "stanza" = Some (stanza_name E)
      \/ unit_status w2 = BlockedStatus FAILED_TO_INITIALIZE_STANZA_ERROR_MESSAGE
         /\ app_peer_data w2 !! "stanza" = Some "").
Proof.
  intros Hleader Hg Hrc. rewrite (_initialise_stanza_run K E w Hleader Hg).
  cbn [log]. rewrite Hrc. cbn [Z.eqb negb].
  set (w0 := extend_log _ _). unfold bind.
  destruct (start_stop_pgbackrest_service K E w0) as [[ok|e] w3] eqn:Hsvc;
    [|discriminate].
  destruct (start_stop_pgbackrest_service_frame _ _ _ _ _ Hsvc) as (ev & -> & _).
  intros _. cbv zeta.
  cbn [app_peer_update snd app_peer_data extend_log dict_update foldl fst].
  assert (<["init-pgbackrest":="True"]> (<["stanza":=stanza_name E]> (app_peer_data w0))
          !! "stanza" = Some (stanza_name E)) as Hstanza
    by (by rewrite lookup_insert_ne, lookup_insert_eq).
  split; [exact Hstanza|]. split; [apply lookup_insert_eq|].
  match goal with
  | |- context [check_stanza K E ?w1] =>
      destruct (check_stanza_outcome K E w1 Hleader) as (okc & new & ->)
  end.
  { unfold contains. cbn [app_peer_data]. by rewrite lookup_insert_eq. }
  cbn [fst snd app_peer_data unit_status]. split; [done|].
  destruct okc.
  - split; [apply lookup_delete_eq|]. left. split; [done|].
    by rewrite lookup_delete_ne.
  - split; [apply lookup_delete_eq|]. right. split; [done|].
    rewrite !lookup_delete_ne by done. apply lookup_insert_eq.
Qed.

Lemma stanza_initialised_then_checked_witness :
  let E := sample_env (fun _ => 0) true None sample_s3_info in
  let w1 := (_initialise_stanza sample_constants E sample_world).2 in
  let w2 := (check_stanza sample_constants E w1).2 in
  app_peer_data w2 !! "init-pgbackrest" = None
  /\ unit_status w2 = ActiveStatus.
Proof.
  intros E w1 w2.
  destruct (stanza_initialised_then_checked sample_constants E sample_world)
    as (_ & _ & _ & Hgone & Hend).
  - reflexivity.
  - reflexivity.
  - reflexivity.
  - vm_compute. reflexivity.
  - split; [exact Hgone|]. vm_compute. reflexivity.
Defined.

(** ** The metadata object as a test of the credentials *)

Lemma _upload_content_to_s3_outcome E content s3_path s3_parameters w :
  (exists e, _upload_content_to_s3 E content s3_path s3_parameters w = (Raise e, w))
  \/ _upload_content_to_s3 E content s3_path s3_parameters w = (Ok false, w)
  \/ exists bucket key ok,
       _upload_content_to_s3 E content s3_path s3_parameters w
       = (Ok ok, extend_log w [EvUpload bucket key content ok]).
Proof.
  unfold _upload_content_to_s3, bind, lift, get_world, emit, ret.
  destruct (getitem s3_parameters "bucket") as [v|e]; [|eauto].
  destruct (getitem s3_parameters "path" ≫= as_path) as [path|e]; [|eauto].
  destruct v; eauto 10.
Qed.

Lemma bind_lift_raise {A B} e (f : A -> M B) w : bind (lift (Raise e)) f w = (Raise e, w).
Proof. reflexivity. Qed.

(** X20.  The backup action runs a command, or changes the status or the
    peer data of the unit, only when the unit may perform a backup and the
    metadata object was stored in the bucket as the first step: an upload
    that is not acknowledged stops the action before anything is run or
    changed. *)
Theorem create_backup_needs_metadata K E w :
  let w' := (_on_create_backup_action K E w).2 in
  let new := events_since w w' in
  (exists cmd input rc, EvExec cmd input rc ∈ new)
  \/ unit_status w' <> unit_status w
  \/ unit_peer_data w' <> unit_peer_data w ->
  (exists msg, _can_unit_perform_backup E w = Ok (true, msg))
  /\ exists bucket key content, head new = Some (EvUpload bucket key content true).
Proof.
  assert (exists r w',
            _on_create_backup_action K E w = (r, w')
            /\ ((exists new,
                   w' = extend_log w new
                   /\ forall cmd input rc, EvExec cmd input rc ∉ new)
                \/ ((exists msg, _can_unit_perform_backup E w = Ok (true, msg))
                    /\ exists bucket key content tail,
                         log w' = log w ++ EvUpload bucket key content true :: tail)))
    as (r & w' & Hrun & Hcases).
  { assert (forall r : result unit, exists r' w',
              (r, w) = (r', w')
              /\ ((exists new,
                     w' = extend_log w new
                     /\ forall cmd input rc, EvExec cmd input rc ∉ new)
                  \/ ((exists msg, _can_unit_perform_backup E w = Ok (true, msg))
                      /\ exists bucket key content tail,
                           log w' = log w ++ EvUpload bucket key content true :: tail)))
      as Hnothing.
    { intros r. exists r, w. split; [done|]. left. exists []. rewrite extend_log_nil.
      split; [done|]. intros cmd input rc Hin. by apply elem_of_nil in Hin. }
    unfold _on_create_backup_action. rewrite bind_get_world.
    destruct (_can_unit_perform_backup E w) as [[[] msg]|e] eqn:Hcan;
      [rewrite bind_lift_ok; cbn [negb]
      | rewrite bind_lift_ok; cbn [negb]; rewrite emit_run;
        eexists _, _; split; [reflexivity|]; left; eexists; split; [reflexivity|];
        intros cmd input rc Hin; mem_cases Hin
      | rewrite bind_lift_raise; apply Hnothing].
    destruct (_retrieve_s3_parameters E) as [[s3_parameters missing]|e];
      [rewrite bind_lift_ok | rewrite bind_lift_raise; apply Hnothing].
    rewrite strftime_requested_at. unfold or_ValueError at 1. rewrite bind_lift_ok.
    destruct (getitem s3_parameters "path" ≫= as_path) as [path|e];
      [rewrite bind_lift_ok | rewrite bind_lift_raise; apply Hnothing].
    unfold bind at 1.
    destruct (_upload_content_to_s3_outcome E
                (backup_metadata E (requested_at (now E (log w))))
                (PyStr.path_join path ("backup/" +:+ stanza_name E +:+ "/latest"))
                s3_parameters w) as [[e ->]|[->|(bucket & key & ok & ->)]].
    - apply Hnothing.
    - cbn [negb]. rewrite emit_run.
      eexists _, _; split; [reflexivity|]; left; eexists; split; [reflexivity|];
        intros cmd input rc Hin; mem_cases Hin.
    - destruct ok; cbn [negb].
      + match goal with
        | |- exists r w', ?rest ?w1 = _ /\ _ =>
            exists (rest w1).1, (rest w1).2; split; [apply surjective_pairing|];
            assert (reports_once rest) as Hrest
        end.
        { repeat once_step. apply once_then; [apply once_run_backup|intros ?]. quiet_run. }
        right. split; [by eexists|].
        exists bucket, key, (backup_metadata E (requested_at (now E (log w)))).
        match goal with
        | |- context [log (_ ?w1).2] => destruct (Hrest w1) as (tail & -> & _)
        end.
        exists tail. cbn [extend_log log]. by rewrite <- app_assoc.
      + rewrite emit_run, extend_log_extend_log.
        eexists _, _; split; [reflexivity|]; left; eexists; split; [reflexivity|];
          intros cmd input rc Hin; mem_cases Hin. }
  cbv zeta. rewrite Hrun. cbn [snd].
  destruct Hcases as [(new & -> & Hnew)|[Hcan (bucket & key & content & tail & Hlog)]].
  - rewrite events_since_extend_log. cbn [extend_log unit_status unit_peer_data].
    intros [(cmd & input & rc & Hin)|[?|?]]; [by apply Hnew in Hin|done..].
  - intros _. split; [exact Hcan|]. exists bucket, key, content.
    unfold events_since. rewrite Hlog, drop_app_length. reflexivity.
Qed.

Lemma create_backup_needs_metadata_witness :
  exists bucket key content,
    head (events_since sample_world
            (_on_create_backup_action sample_constants
               (sample_env (fun _ => 0) true None sample_s3_info)
               (mkWorld (<["stanza" := "prod.postgresql"]> ∅) ∅ ActiveStatus [])).2)
    = Some (EvUpload bucket key content true).
Proof.
  apply (create_backup_needs_metadata sample_constants
           (sample_env (fun _ => 0) true None sample_s3_info)
           (mkWorld (<["stanza" := "prod.postgresql"]> ∅) ∅ ActiveStatus [])).
  left. exists (backup_command sample_constants
                  (sample_env (fun _ => 0) true None sample_s3_info)), None, 0.
  vm_compute. do 3 apply list_elem_of_further. apply list_elem_of_here.
Defined.
